(** * Keycloak load-test harness: a shallow embedding and its properties

    The repository has three scripts:
    - [load_scenarios.py]: the scenario runner ([LoadTestRunner]);
    - [locustfile.py]: the workload of one virtual user ([KeycloakUser]);
    - [performance_monitor.py]: the metrics collector and reporter
      ([PerformanceMonitor]).

    Each script is embedded in a module of its own.  Everything the scripts
    get from outside (the clock, the HTTP peers, the random generator, the
    subprocess) is an oracle: a function the definitions consult, so that a
    run of the embedding is a run of the script against that environment. *)

From Stdlib Require Import ZArith List String Ascii Bool Lia QArith Lqa.
From Stdlib Require Import DecimalString.
Import ListNotations.
Open Scope string_scope.

(** ** The fragment of Python the scripts rely on *)

Module Py.

(** The exception classes the scripts can meet. *)
Inductive exn : Type :=
| AttributeError (attr : string)
| KeyError (key : string)
| IndexError
| TypeError
| ValueError
| OverflowError
| JSONDecodeError
| OSError (what : string)
| RequestException (what : string).

(** A call either returns a value or raises. *)
Inductive result (A : Type) : Type :=
| Ok (a : A)
| Raise (e : exn).
Arguments Ok {A} a.
Arguments Raise {A} e.

(** [str(e)] for an exception: its message.  The interpreter words the
    message of an [IndexError], a [TypeError], a [ValueError] and a
    [JSONDecodeError] after the operands; one text stands here for each of
    these classes. *)
Definition str_exn (e : exn) : string :=
  match e with
  | AttributeError attr => "object has no attribute '" ++ attr ++ "'"
  | KeyError key => "'" ++ key ++ "'"
  | IndexError => "index out of range"
  | TypeError => "unsupported operand"
  | ValueError => "invalid value"
  | OverflowError => "int too large to convert to float"
  | JSONDecodeError => "Expecting value"
  | OSError what => what
  | RequestException what => what
  end.

(** [str(n)] for an integer. *)
Definition str_int (z : Z) : string := NilZero.string_of_int (Z.to_int z).

(** [c * n]: a string repeated. *)
Fixpoint repeat_str (s : string) (n : nat) : string :=
  match n with
  | O => ""
  | S k => s ++ repeat_str s k
  end.

(** [sep.join(parts)]. *)
Fixpoint join (sep : string) (parts : list string) : string :=
  match parts with
  | [] => ""
  | [p] => p
  | p :: rest => p ++ sep ++ join sep rest
  end.

(** [s.upper()], on the ASCII letters. *)
Definition upper_ascii (c : ascii) : ascii :=
  let n := nat_of_ascii c in
  if andb (97 <=? n)%nat (n <=? 122)%nat then ascii_of_nat (n - 32) else c.

Fixpoint upper (s : string) : string :=
  match s with
  | EmptyString => EmptyString
  | String c r => String (upper_ascii c) (upper r)
  end.

(** [s.split(sep)] for a one-character separator: the pieces between the
    separators, in order; a string without separator is its only piece. *)
Fixpoint split_on (sep : ascii) (s : string) : list string :=
  match s with
  | EmptyString => [EmptyString]
  | String c r =>
      if Ascii.eqb c sep then EmptyString :: split_on sep r
      else match split_on sep r with
           | [] => [String c EmptyString]
           | p :: ps => String c p :: ps
           end
  end.

(** [needle in s] for two strings. *)
Fixpoint contains (needle s : string) : bool :=
  if String.prefix needle s then true
  else match s with
       | EmptyString => false
       | String _ r => contains needle r
       end.

(** [int(x)] for a float: truncation towards zero. *)
Definition int_of_float (x : Q) : Z := Z.quot (Qnum x) (Zpos (Qden x)).

(** A parsed JSON document, as [response.json()] returns it: [None],
    [bool], [int], [float], [str], [list], and [dict] in insertion order. *)
#[warnings="-register-all"]
Inductive json : Type :=
| JNull
| JBool (b : bool)
| JInt (z : Z)
| JFloat (x : Q)
| JStr (s : string)
| JList (items : list json)
| JDict (fields : list (string * json)).

(** A [dict] with string keys, in insertion order.  [d.get(k)]: the value
    under [k], if any. *)
Fixpoint dict_get {V} (k : string) (d : list (string * V)) : option V :=
  match d with
  | [] => None
  | (k', v) :: rest => if String.eqb k k' then Some v else dict_get k rest
  end.

(** [d[k] = v]: the value under [k] is replaced where it stands, a new key
    goes to the end. *)
Fixpoint dict_set {V} (k : string) (v : V) (d : list (string * V))
  : list (string * V) :=
  match d with
  | [] => [(k, v)]
  | (k', v') :: rest =>
      if String.eqb k k' then (k', v) :: rest else (k', v') :: dict_set k v rest
  end.

Definition dict_keys {V} (d : list (string * V)) : list string := map fst d.

(** [k in d]. *)
Definition dict_has {V} (k : string) (d : list (string * V)) : bool :=
  existsb (String.eqb k) (dict_keys d).

(** [v[k]] for a string [k]: only a [dict] takes it. *)
Definition subscript_key (v : json) (k : string) : result json :=
  match v with
  | JDict fields =>
      match dict_get k fields with
      | Some x => Ok x
      | None => Raise (KeyError k)
      end
  | _ => Raise TypeError
  end.

(** [v[i]] for an integer [i] that is not negative: an item of a [list],
    a character of a [str]; a [dict] from JSON has no integer key. *)
Definition subscript_index (v : json) (i : nat) : result json :=
  match v with
  | JList items =>
      match nth_error items i with
      | Some x => Ok x
      | None => Raise IndexError
      end
  | JStr s =>
      match String.get i s with
      | Some c => Ok (JStr (String c EmptyString))
      | None => Raise IndexError
      end
  | JDict _ => Raise (KeyError (str_int (Z.of_nat i)))
  | _ => Raise TypeError
  end.

(** Truthiness of a JSON value, as [if v:] tests it. *)
Definition truthy (v : json) : bool :=
  match v with
  | JNull => false
  | JBool b => b
  | JInt z => negb (z =? 0)%Z
  | JFloat x => negb (Qeq_bool x 0)
  | JStr s => negb (String.eqb s "")
  | JList items => match items with [] => false | _ => true end
  | JDict fields => match fields with [] => false | _ => true end
  end.

(** [s.startswith(p)]. *)
Definition startswith (p s : string) : bool := String.prefix p s.

(** [s[:n]]. *)
Definition take_str (n : nat) (s : string) : string := String.substring 0 n s.

End Py.
Import Py.

(** ** load_scenarios.py *)

Module LoadScenarios.

(** One entry of [self.scenarios]. *)
Record scenario_config : Type := {
  users : Z;
  spawn_rate : Z;
  run_time : string
}.

(** A [LoadTestRunner] instance.  [base_dir] is [None] as long as the
    attribute has not been assigned: reading it then raises
    [AttributeError]. *)
Record LoadTestRunner : Type := {
  results_dir : string;
  scenarios : list (string * scenario_config);
  base_dir : option string
}.

(** [__init__]: [base_dir] is a local variable there, the instance gets
    [results_dir] and [scenarios] only.  [cwd] is what [os.getcwd()]
    answers. *)
Definition init (cwd : string) : LoadTestRunner :=
  let base_dir := cwd in
  {| results_dir := base_dir ++ "/test_results";
     scenarios :=
       [ ("light_load", {| users := 20; spawn_rate := 2; run_time := "5m" |});
         ("medium_load", {| users := 100; spawn_rate := 5; run_time := "10m" |});
         ("heavy_load", {| users := 500; spawn_rate := 10; run_time := "15m" |});
         ("stress_test", {| users := 2000; spawn_rate := 20; run_time := "20m" |}) ];
     base_dir := None |}.

Definition get_base_dir (self : LoadTestRunner) : result string :=
  match base_dir self with
  | Some d => Ok d
  | None => Raise (AttributeError "base_dir")
  end.

(** What a run does to the outside, in order. *)
Inductive event : Type :=
| Print (line : string)
| Spawn (cmd : list string) (cwd : string)
| HttpGet (url : string) (timeout : Z)
| Sleep (seconds : Z).

(** [subprocess.run(cmd, capture_output=True, text=True, cwd=...)]: the
    process ran to its end, or it could not be launched. *)
Inductive completed : Type :=
| Completed (returncode : Z) (stdout stderr : string)
| LaunchFailed (e : exn).

(** One [requests.get] of the readiness poll. *)
Inductive probe : Type :=
| Answered (status_code : Z)
| Failed (e : exn).

Definition banner : string := repeat_str "=" 60.

Section Runner.

(** The subprocess, the wall clock as [strftime] prints it, and the
    health endpoint as the [i]-th attempt finds it. *)
Variable subprocess_run : list string -> string -> completed.
Variable timestamp : string.
Variable health : nat -> probe.

Definition locust_cmd (base results : string) (scenario_name : string)
    (scenario_config : scenario_config) (result_file : string) : list string :=
  [ "locust";
    "-f"; base ++ "/locustfile.py";
    "--host"; "http://localhost:8080";
    "--users"; str_int (users scenario_config);
    "--spawn-rate"; str_int (spawn_rate scenario_config);
    "--run-time"; run_time scenario_config;
    "--html"; result_file;
    "--headless";
    "--print-stats";
    "--csv"; results ++ "/" ++ scenario_name ++ "_" ++ timestamp ].

(** [run_scenario]: the events up to the return or the raise, and the
    outcome.  The command list is built before the [try]; the [try]
    covers the subprocess and the report of its status. *)
Definition run_scenario (self : LoadTestRunner) (scenario_name : string)
    (scenario_config : scenario_config) : list event * result bool :=
  let header :=
    [ Print (String "010" banner);
      Print ("Running " ++ upper scenario_name ++ " scenario");
      Print ("Users: " ++ str_int (users scenario_config)
             ++ ", Spawn Rate: " ++ str_int (spawn_rate scenario_config));
      Print ("Duration: " ++ run_time scenario_config);
      Print banner ] in
  let result_file :=
    results_dir self ++ "/" ++ scenario_name ++ "_" ++ timestamp ++ ".html" in
  match get_base_dir self with
  | Raise e => (header, Raise e)
  | Ok base =>
      let cmd := locust_cmd base (results_dir self) scenario_name
                   scenario_config result_file in
      let started :=
        (header ++ [ Print ("Command: " ++ join " " cmd);
                     Print "Starting test..." ])%list in
      (* try: *)
      match subprocess_run cmd base with
      | Completed returncode stdout stderr =>
          if (returncode =? 0)%Z then
            ((started ++ [ Spawn cmd base;
                          Print ("✅ " ++ scenario_name ++ " completed successfully!");
                          Print ("Results saved to: " ++ result_file) ])%list,
             Ok true)
          else
            ((started ++ [ Spawn cmd base;
                          Print ("❌ " ++ scenario_name ++ " failed!");
                          Print ("STDOUT: " ++ stdout);
                          Print ("STDERR: " ++ stderr) ])%list,
             Ok false)
      (* except Exception as e: *)
      | LaunchFailed e =>
          ((started ++ [ Spawn cmd base;
                        Print ("❌ Error running " ++ scenario_name ++ ": " ++ str_exn e) ])%list,
           Ok false)
      end
  end.

Definition health_url : string := "http://localhost:8080/realms/master".

(** The body of [for i in range(max_attempts)], over the attempts that
    are left. *)
Fixpoint poll (max_attempts : Z) (attempts : list nat) : list event * bool :=
  match attempts with
  | [] => ([Print "❌ Keycloak is not responding"], false)
  | i :: rest =>
      let again :=
        let (ev, r) := poll max_attempts rest in
        (HttpGet health_url 5
           :: Print ("Attempt " ++ str_int (Z.of_nat i + 1) ++ "/"
                     ++ str_int max_attempts ++ "... waiting 10 seconds")
           :: Sleep 10 :: ev, r) in
      match health i with
      | Answered status_code =>
          if (status_code =? 200)%Z
          then ([HttpGet health_url 5; Print "✅ Keycloak is ready!"], true)
          else again
      | Failed _ => again   (* except: pass *)
      end
  end.

(** [wait_for_keycloak(max_attempts)]. *)
Definition wait_for_keycloak (max_attempts : Z) : list event * bool :=
  let (ev, r) := poll max_attempts (seq 0 (Z.to_nat max_attempts)) in
  (Print "Waiting for Keycloak to be ready..." :: ev, r).

(** The number of requests a run sent to the health endpoint. *)
Definition is_get (e : event) : bool :=
  match e with HttpGet _ _ => true | _ => false end.
Definition attempts_made (ev : list event) : nat :=
  List.length (filter is_get ev).

Definition is_spawn (e : event) : bool :=
  match e with Spawn _ _ => true | _ => false end.

End Runner.

End LoadScenarios.

(** ** Properties of the scenario runner *)

Module LoadScenariosProps.
Import LoadScenarios.

Section RunScenario.
Variable subprocess_run : list string -> string -> completed.
Variable timestamp : string.

(** With [base_dir] assigned, [run_scenario] is the function its
    [try]/[except] intends: it returns, and it returns [True] exactly
    when the process ran and left with status zero. *)
Lemma run_scenario_with_base_dir self d scenario_name scenario_config :
  base_dir self = Some d ->
  exists b,
    snd (run_scenario subprocess_run timestamp self scenario_name scenario_config)
      = Ok b
    /\ (b = true <->
        exists cmd out err, subprocess_run cmd d = Completed 0 out err
          /\ cmd = locust_cmd timestamp d (results_dir self) scenario_name
                     scenario_config
                     (results_dir self ++ "/" ++ scenario_name ++ "_"
                        ++ timestamp ++ ".html")).
Proof.
  intros Hd. unfold run_scenario, get_base_dir. rewrite Hd.
  set (cmd := locust_cmd _ _ _ _ _ _).
  destruct (subprocess_run cmd d) as [rc out err | e] eqn:Hrun.
  - destruct (rc =? 0)%Z eqn:Hrc; eexists; (split; [reflexivity |]).
    + apply Z.eqb_eq in Hrc. subst rc.
      split; [intros _; now exists cmd, out, err | reflexivity].
    + split; [discriminate |].
      intros (cmd' & out' & err' & Hrun' & ->). fold cmd in Hrun'.
      rewrite Hrun in Hrun'. injection Hrun' as -> _ _. discriminate.
  - eexists; split; [reflexivity |]. split; [discriminate |].
    intros (cmd' & out' & err' & Hrun' & ->). fold cmd in Hrun'.
    rewrite Hrun in Hrun'. discriminate.
Qed.

(** C1.  On a runner as [__init__] builds it, [run_scenario] raises
    [AttributeError] to its caller for every scenario name and every
    profile, whatever the subprocess would have done: [self.base_dir] is
    read while the command is built, before the [try], and [__init__]
    never assigned it.  No process is spawned, so no exit status is ever
    looked at. *)
Theorem run_scenario_after_init_raises cwd scenario_name scenario_config :
  snd (run_scenario subprocess_run timestamp (init cwd) scenario_name scenario_config)
    = Raise (AttributeError "base_dir")
  /\ filter is_spawn
       (fst (run_scenario subprocess_run timestamp (init cwd) scenario_name
               scenario_config)) = [].
Proof.
  unfold run_scenario, get_base_dir, init; simpl. split; reflexivity.
Qed.

End RunScenario.

Section WaitForKeycloak.
Variable health : nat -> probe.

Definition ready (p : probe) : bool :=
  match p with
  | Answered status_code => (status_code =? 200)%Z
  | Failed _ => false
  end.

Lemma poll_step max_attempts i rest :
  poll health max_attempts (i :: rest) =
    if ready (health i)
    then ([HttpGet health_url 5; Print "✅ Keycloak is ready!"], true)
    else (HttpGet health_url 5
            :: Print ("Attempt " ++ str_int (Z.of_nat i + 1) ++ "/"
                      ++ str_int max_attempts ++ "... waiting 10 seconds")
            :: Sleep 10 :: fst (poll health max_attempts rest),
          snd (poll health max_attempts rest)).
Proof.
  simpl. destruct (poll health max_attempts rest) as [ev r].
  destruct (health i) as [c | e]; simpl; [destruct (c =? 200)%Z |]; reflexivity.
Qed.

(** A poll whose first [n] attempts all fail goes on with the rest. *)
Lemma poll_all_failing max_attempts n start rest :
  (forall i, start <= i < start + n -> ready (health i) = false)%nat ->
  snd (poll health max_attempts (seq start n ++ rest))
    = snd (poll health max_attempts rest)
  /\ attempts_made (fst (poll health max_attempts (seq start n ++ rest)))
     = (n + attempts_made (fst (poll health max_attempts rest)))%nat.
Proof.
  revert start. induction n as [| n IH]; intros start Hfail.
  - split; reflexivity.
  - cbn [seq app]. rewrite poll_step, Hfail by lia. cbn [fst snd].
    destruct (IH (S start)) as [IHr IHa]; [intros; apply Hfail; lia |].
    split; [exact IHr |]. unfold attempts_made in *. simpl. now rewrite IHa.
Qed.

Lemma wait_for_keycloak_poll max_attempts :
  snd (wait_for_keycloak health max_attempts)
    = snd (poll health max_attempts (seq 0 (Z.to_nat max_attempts)))
  /\ attempts_made (fst (wait_for_keycloak health max_attempts))
     = attempts_made (fst (poll health max_attempts (seq 0 (Z.to_nat max_attempts)))).
Proof.
  unfold wait_for_keycloak.
  destruct (poll health max_attempts _) as [ev r]. split; reflexivity.
Qed.

(** C3, as the code has it.  The poll succeeds on status 200 and on no
    other: when the first [N] attempts fail (an exception, or any status
    but 200) and attempt [N+1] is answered 200, a call with
    [max_attempts >= N+1] returns [True] after exactly [N+1] requests;
    when all [max_attempts] attempts fail, it returns [False] after
    [max_attempts] requests.  The function has no raising path. *)
Theorem wait_for_keycloak_on_200 (max_attempts : Z) :
  (forall N : nat,
      (Z.of_nat N + 1 <= max_attempts)%Z ->
      (forall i, (i < N)%nat -> ready (health i) = false) ->
      health N = Answered 200 ->
      snd (wait_for_keycloak health max_attempts) = true
      /\ attempts_made (fst (wait_for_keycloak health max_attempts)) = (N + 1)%nat)
  /\ ((forall i, (Z.of_nat i < max_attempts)%Z -> ready (health i) = false) ->
      snd (wait_for_keycloak health max_attempts) = false
      /\ attempts_made (fst (wait_for_keycloak health max_attempts))
         = Z.to_nat max_attempts).
Proof.
  destruct (wait_for_keycloak_poll max_attempts) as [-> ->]. split.
  - intros N Hmax Hfail HN.
    replace (Z.to_nat max_attempts) with (N + S (Z.to_nat max_attempts - N - 1))%nat
      by lia.
    rewrite seq_app.
    destruct (poll_all_failing max_attempts N 0
                (seq (0 + N) (S (Z.to_nat max_attempts - N - 1)))) as [-> ->].
    { intros i Hi. apply Hfail. lia. }
    cbn [seq]. rewrite poll_step. cbn [Nat.add]. rewrite HN. simpl.
    split; [reflexivity |]. unfold attempts_made. simpl. lia.
  - intros Hfail.
    rewrite <- (app_nil_r (seq 0 (Z.to_nat max_attempts))).
    destruct (poll_all_failing max_attempts (Z.to_nat max_attempts) 0 [])
      as [-> ->].
    { intros i Hi. apply Hfail. lia. }
    split; [reflexivity |]. unfold attempts_made. simpl. lia.
Qed.

End WaitForKeycloak.

(** A health endpoint that answers 503 twice and 200 from then on. *)
Definition late_health (i : nat) : probe :=
  if (i <? 2)%nat then Answered 503 else Answered 200.

(** A health endpoint that never answers. *)
Definition dead_health (_ : nat) : probe := Failed (RequestException "refused").

Lemma wait_for_keycloak_on_200_witness :
  (snd (wait_for_keycloak late_health 30) = true
   /\ attempts_made (fst (wait_for_keycloak late_health 30)) = 3%nat)
  /\ (snd (wait_for_keycloak dead_health 4) = false
      /\ attempts_made (fst (wait_for_keycloak dead_health 4)) = 4%nat).
Proof.
  split.
  - apply (proj1 (wait_for_keycloak_on_200 late_health 30) 2%nat).
    + lia.
    + intros [| [| i]] Hi; [reflexivity | reflexivity | lia].
    + reflexivity.
  - apply (proj2 (wait_for_keycloak_on_200 dead_health 4)).
    intros i _. reflexivity.
Defined.

(** C3, as the spec words it, fails: 204 is a 2xx status, and a health
    endpoint that answers 204 to every attempt is polled to exhaustion. *)
Lemma wait_for_keycloak_rejects_204 :
  (200 <= 204 < 300)%Z
  /\ wait_for_keycloak (fun _ => Answered 204) 2
     = ([ Print "Waiting for Keycloak to be ready...";
          HttpGet health_url 5;
          Print "Attempt 1/2... waiting 10 seconds";
          Sleep 10;
          HttpGet health_url 5;
          Print "Attempt 2/2... waiting 10 seconds";
          Sleep 10;
          Print "❌ Keycloak is not responding" ], false).
Proof. split; [lia | reflexivity]. Qed.

End LoadScenariosProps.

(** ** locustfile.py *)

Module Locustfile.

Inductive http_method : Type := GET | POST | PUT | DELETE.

(** What a request carries: [data=] (a form), [json=], [params=], or
    nothing. *)
Inductive body : Type :=
| NoBody
| FormData (fields : list (string * string))
| JsonBody (j : json)
| Params (ps : list (string * Z)).

(** A request of [self.client]: [name] is the label Locust files it
    under, [authorization] the session's default header when it left. *)
Record request : Type := {
  method : http_method;
  url : string;
  name : string;
  payload : body;
  authorization : option string
}.

(** What the tasks read of an answer of the admin API.  [self.client]
    does not raise on a transport failure: Locust answers it with status
    0.  [location] is [headers.get('Location', '')]; [json_body] is
    [response.json()], which raises on a body that is not JSON. *)
Record response : Type := {
  status_code : Z;
  location : string;
  json_body : result json
}.

(** An answer of the token endpoint: its status and [response.json()],
    which raises on a body that is not JSON.  The code reads the body under
    status 200 only, and may find anything there. *)
Record token_response : Type := {
  token_status : Z;
  token_json : result json
}.

(** A request with what came back for it. *)
Inductive answer : Type :=
| FromAdminApi (r : response)
| FromTokenEndpoint (t : token_response).

Record exchange : Type := {
  sent : request;
  received : answer
}.

Definition received_status (e : exchange) : Z :=
  match received e with
  | FromAdminApi r => status_code r
  | FromTokenEndpoint t => token_status t
  end.

(** [self.created_resources]. *)
Record resources : Type := {
  users : list string;
  clients : list string;
  realms : list string;
  roles : list string;
  groups : list string
}.

(** The attributes of a [KeycloakUser] instance.  [admin_token] is unset
    until a token fetch finds one; it is whatever JSON value the answer had
    under [access_token].  [client_authorization] is the Authorization
    header among [self.client.headers]. *)
Record KeycloakUser : Type := {
  token_expires_at : Q;
  test_realm_name : string;
  created_resources : resources;
  admin_token : option json;
  client_authorization : option string
}.

Definition host : string := "http://host.docker.internal:8080".

(** The [token_url] of [get_admin_token]. *)
Definition token_url : string :=
  host ++ "/realms/master/protocol/openid-connect/token".

(** How far the session has read each of its oracles. *)
Record world : Type := {
  n_requests : nat;
  n_clock : nat;
  n_random : nat;
  n_uuid : nat
}.

Definition state : Type := KeycloakUser * world.

(** A method of the session: from a state to an outcome, the state it
    leaves, and the exchanges it had with the server, in order.  The state
    is kept when the method raises. *)
Definition M (A : Type) : Type := state -> result A * state * list exchange.

Definition ret {A} (a : A) : M A := fun st => (Ok a, st, []).

Definition raise {A} (e : exn) : M A := fun st => (Raise e, st, []).

Definition bind {A B} (m : M A) (k : A -> M B) : M B :=
  fun st =>
    match m st with
    | (Ok a, st1, es1) =>
        match k a st1 with
        | (r, st2, es2) => (r, st2, (es1 ++ es2)%list)
        end
    | (Raise e, st1, es1) => (Raise e, st1, es1)
    end.

Notation "x <- m ;; k" := (bind m (fun x => k))
  (at level 61, m at next level, right associativity).
Notation "m ;;; k" := (bind m (fun _ => k))
  (at level 61, right associativity).

Definition self : M KeycloakUser := fun st => (Ok (fst st), st, []).

Definition update_self (f : KeycloakUser -> KeycloakUser) : M unit :=
  fun st => (Ok tt, (f (fst st), snd st), []).

Definition outcome {A} (x : result A * state * list exchange) : result A :=
  fst (fst x).
Definition state_after {A} (x : result A * state * list exchange) : state :=
  snd (fst x).
Definition user_after {A} (x : result A * state * list exchange) : KeycloakUser :=
  fst (snd (fst x)).
Definition exchanges {A} (x : result A * state * list exchange) : list exchange :=
  snd x.

(** Setters for the attributes the methods assign. *)
Definition set_admin_token (tok : json) (u : KeycloakUser) : KeycloakUser :=
  {| token_expires_at := token_expires_at u;
     test_realm_name := test_realm_name u;
     created_resources := created_resources u;
     admin_token := Some tok;
     client_authorization := client_authorization u |}.

Definition set_token_expires_at (expires : Q) (u : KeycloakUser) : KeycloakUser :=
  {| token_expires_at := expires;
     test_realm_name := test_realm_name u;
     created_resources := created_resources u;
     admin_token := admin_token u;
     client_authorization := client_authorization u |}.

Definition set_authorization (header : string) (u : KeycloakUser) : KeycloakUser :=
  {| token_expires_at := token_expires_at u;
     test_realm_name := test_realm_name u;
     created_resources := created_resources u;
     admin_token := admin_token u;
     client_authorization := Some header |}.

Definition set_resources (r : resources) (u : KeycloakUser) : KeycloakUser :=
  {| token_expires_at := token_expires_at u;
     test_realm_name := test_realm_name u;
     created_resources := r;
     admin_token := admin_token u;
     client_authorization := client_authorization u |}.

(** The four resource types a session keeps identifiers of. *)
Inductive kind : Type := Users | Clients | Roles | Groups.

(** [self.created_resources[k]]. *)
Definition tracked (k : kind) (u : KeycloakUser) : list string :=
  match k with
  | Users => users (created_resources u)
  | Clients => clients (created_resources u)
  | Roles => roles (created_resources u)
  | Groups => groups (created_resources u)
  end.

Definition set_tracked (k : kind) (l : list string) (u : KeycloakUser) : KeycloakUser :=
  let r := created_resources u in
  set_resources
    match k with
    | Users => {| users := l; clients := clients r; realms := realms r;
                  roles := roles r; groups := groups r |}
    | Clients => {| users := users r; clients := l; realms := realms r;
                    roles := roles r; groups := groups r |}
    | Roles => {| users := users r; clients := clients r; realms := realms r;
                  roles := l; groups := groups r |}
    | Groups => {| users := users r; clients := clients r; realms := realms r;
                   roles := roles r; groups := l |}
    end u.

Definition set_realms (l : list string) (u : KeycloakUser) : KeycloakUser :=
  let r := created_resources u in
  set_resources {| users := users r; clients := clients r; realms := l;
                   roles := roles r; groups := groups r |} u.

(** The last path segment of the collection of a resource type. *)
Definition segment (k : kind) : string :=
  match k with
  | Users => "users"
  | Clients => "clients"
  | Roles => "roles"
  | Groups => "groups"
  end.

Definition realm_url (realm : string) : string := "/admin/realms/" ++ realm.

Definition collection_url (realm : string) (k : kind) : string :=
  realm_url realm ++ "/" ++ segment k.

Definition resource_url (realm : string) (k : kind) (id : string) : string :=
  collection_url realm k ++ "/" ++ id.

(** [location.split('/')[-1]]. *)
Definition last_segment (location : string) : string :=
  last (split_on "/" location) "".

(** [lst.pop()] on a list that is not empty: the list without its last
    element, and that element. *)
Definition pop (l : list string) : list string * string :=
  (removelast l, last l "").

(** [d.get(k, default)]: only a [dict] has the method. *)
Definition get_or (d : json) (k : string) (default : json) : result json :=
  match d with
  | JDict fields =>
      Ok match dict_get k fields with
         | Some v => v
         | None => default
         end
  | _ => Raise (AttributeError "get")
  end.

(** A Python number: an [int], of any size, or a [float].  The floats of
    a document are finite: the parser's extensions to JSON, NaN and
    Infinity, are outside the model. *)
Inductive number : Type :=
| Int (z : Z)
| Float (x : Q).

(** [v - n] for an integer [n]: a number takes it, [True] and [False]
    counting as 1 and 0, and an [int] gives an [int]. *)
Definition subtract (v : json) (n : Z) : result number :=
  match v with
  | JInt z => Ok (Int (z - n))
  | JFloat x => Ok (Float (x - inject_Z n))
  | JBool b => Ok (Int ((if b then 1 else 0) - n))
  | _ => Raise TypeError
  end.

(** The float an operand of a float addition is taken as: an [int] is
    converted, which raises when the nearest float would be 2^1024 or
    beyond.  Below that the value is taken exactly, as every timestamp
    is. *)
Definition as_float (v : number) : result Q :=
  match v with
  | Float x => Ok x
  | Int z =>
      if (Z.abs z <? 2 ^ 1024 - 2 ^ 970)%Z then Ok (inject_Z z)
      else Raise OverflowError
  end.

(** A call that returns or raises, inside a method. *)
Definition lift {A} (r : result A) : M A :=
  match r with
  | Ok a => ret a
  | Raise e => raise e
  end.

Section Session.

(** The environment of one session: the [k]-th reading of
    [time.time()], the hex digits of the [k]-th [uuid.uuid4()], the
    [k]-th draw of the random generator below a bound, and the server's
    answer to the session's [k]-th request: the token endpoint for a
    token request, the admin API for the others.  [repr] is Python's
    text for a JSON value that is neither a string nor an integer. *)
Variable clock : nat -> Q.
Variable uuid4_hex : nat -> string.
Variable randbelow : nat -> nat -> nat.
Variable token_endpoint : nat -> request -> token_response.
Variable admin_api : nat -> request -> response.
Variable repr : json -> string.

(** [time.time()]. *)
Definition time_time : M Q :=
  fun '(u, w) =>
    (Ok (clock (n_clock w)),
     (u, {| n_requests := n_requests w; n_clock := S (n_clock w);
            n_random := n_random w; n_uuid := n_uuid w |}),
     []).

(** [uuid.uuid4().hex]. *)
Definition uuid4 : M string :=
  fun '(u, w) =>
    (Ok (uuid4_hex (n_uuid w)),
     (u, {| n_requests := n_requests w; n_clock := n_clock w;
            n_random := n_random w; n_uuid := S (n_uuid w) |}),
     []).

(** The element [random.choice] takes from [l] on the draw [r]. *)
Definition choice_at {A} (r : nat) (l : list A) : option A :=
  nth_error l (r mod List.length l).

(** [random.choice(l)]: an element at an index drawn below [len(l)];
    [IndexError] on an empty list. *)
Definition random_choice {A} (l : list A) : M A :=
  fun '(u, w) =>
    let w' := {| n_requests := n_requests w; n_clock := n_clock w;
                 n_random := S (n_random w); n_uuid := n_uuid w |} in
    match choice_at (randbelow (n_random w) (List.length l)) l with
    | Some x => (Ok x, (u, w'), [])
    | None => (Raise IndexError, (u, w), [])
    end.

Definition next_request (w : world) : world :=
  {| n_requests := S (n_requests w); n_clock := n_clock w;
     n_random := n_random w; n_uuid := n_uuid w |}.

(** A request of [self.client] to the admin API. *)
Definition client_request (m : http_method) (url name : string) (payload : body)
  : M response :=
  fun '(u, w) =>
    let req := {| method := m; url := url; name := name; payload := payload;
                  authorization := client_authorization u |} in
    let resp := admin_api (n_requests w) req in
    (Ok resp, (u, next_request w),
     [ {| sent := req; received := FromAdminApi resp |} ]).

(** The [self.client.post] of the token request. *)
Definition token_request (url name : string) (payload : body) : M token_response :=
  fun '(u, w) =>
    let req := {| method := POST; url := url; name := name; payload := payload;
                  authorization := client_authorization u |} in
    let resp := token_endpoint (n_requests w) req in
    (Ok resp, (u, next_request w),
     [ {| sent := req; received := FromTokenEndpoint resp |} ]).

(** [response.json()]. *)
Definition json_of (r : response) : M json :=
  match json_body r with
  | Ok j => ret j
  | Raise e => raise e
  end.

(** A value inside an f-string. *)
Definition format_value (j : json) : string :=
  match j with
  | JStr s => s
  | JInt z => str_int z
  | _ => repr j
  end.

(** Under status 200 every line can raise but the last: [response.json()]
    on a body that is not JSON, [token_info["access_token"]] on a document
    that is no object or has no such key, the subtraction on a lifetime
    that is no number, and the sum on an integer too large for a float.
    What was assigned before stays assigned: the token is stored before the
    expiry is computed, and in the sum the clock is read before the lifetime
    is looked at. *)
Definition get_admin_token : M unit :=
  let token_data := [ ("grant_type", "password"); ("client_id", "admin-cli");
                      ("username", "admin"); ("password", "admin") ] in
  response <- token_request token_url "auth/get_admin_token" (FormData token_data) ;;
  if (token_status response =? 200)%Z then
    token_info <- lift (token_json response) ;;
    access_token <- lift (subscript_key token_info "access_token") ;;
    update_self (set_admin_token access_token) ;;;
    now <- time_time ;;
    expires_in <- lift (get_or token_info "expires_in" (JInt 300)) ;;
    lifetime <- lift (subtract expires_in 60) ;;
    lifetime <- lift (as_float lifetime) ;;
    update_self (set_token_expires_at (now + lifetime)) ;;;
    u <- self ;;
    match admin_token u with
    | Some token => update_self (set_authorization ("Bearer " ++ format_value token))
    | None => raise (AttributeError "admin_token")
    end
  else ret tt.   (* print("Failed to get admin token: ...") *)

Definition ensure_valid_token : M unit :=
  now <- time_time ;;
  u <- self ;;
  if Qle_bool (token_expires_at u) now then get_admin_token else ret tt.

Definition create_test_realm : M unit :=
  u <- self ;;
  let realm_data :=
    JDict [ ("realm", JStr (test_realm_name u));
            ("displayName", JStr ("Test Realm " ++ test_realm_name u));
            ("enabled", JBool true) ] in
  response <- client_request POST "/admin/realms" "setup/create_test_realm"
                (JsonBody realm_data) ;;
  if (status_code response =? 201)%Z then
    update_self (fun u =>
      set_realms (realms (created_resources u) ++ [test_realm_name u])%list u)
  else ret tt.

Definition cleanup_resources : M unit :=
  ensure_valid_token ;;;
  u <- self ;;
  if existsb (String.eqb (test_realm_name u)) (realms (created_resources u)) then
    client_request DELETE (realm_url (test_realm_name u))
      "cleanup/delete_test_realm" NoBody ;;;
    ret tt
  else ret tt.

Definition on_start : M unit :=
  hex <- uuid4 ;;
  update_self (fun u =>
    {| token_expires_at := 0;
       test_realm_name := "test-realm-" ++ take_str 8 hex;
       created_resources := {| users := []; clients := []; realms := [];
                               roles := []; groups := [] |};
       admin_token := admin_token u;
       client_authorization := client_authorization u |}) ;;;
  get_admin_token ;;;
  create_test_realm.

Definition on_stop : M unit := cleanup_resources.

(** [self.created_resources[k].append(id)]. *)
Definition track (k : kind) (id : string) : M unit :=
  update_self (fun u => set_tracked k (tracked k u ++ [id])%list u).

(** The tail the creations of users, clients and groups share: on 201,
    the identifier is the last segment of the [Location] header, and it
    is tracked when the header is there. *)
Definition track_location (k : kind) (response : response) : M unit :=
  if (status_code response =? 201)%Z then
    let location := location response in
    if negb (String.eqb location "") then track k (last_segment location)
    else ret tt
  else ret tt.

(** *** Create operations *)

Definition create_user : M unit :=
  ensure_valid_token ;;;
  hex <- uuid4 ;;
  let unique_id := take_str 8 hex in
  u <- self ;;
  let user_data :=
    JDict [ ("username", JStr ("testuser_" ++ unique_id));
            ("enabled", JBool true);
            ("firstName", JStr ("Test_" ++ unique_id));
            ("lastName", JStr "User");
            ("email", JStr ("testuser_" ++ unique_id ++ "@example.com"));
            ("credentials",
             JList [ JDict [ ("type", JStr "password");
                             ("value", JStr "password123");
                             ("temporary", JBool false) ] ]) ] in
  response <- client_request POST (collection_url (test_realm_name u) Users)
                "create/user" (JsonBody user_data) ;;
  track_location Users response.

Definition create_client : M unit :=
  ensure_valid_token ;;;
  hex <- uuid4 ;;
  let unique_id := take_str 8 hex in
  u <- self ;;
  let client_data :=
    JDict [ ("clientId", JStr ("test-client-" ++ unique_id));
            ("name", JStr ("Test Client " ++ unique_id));
            ("description", JStr "Load test client");
            ("enabled", JBool true);
            ("protocol", JStr "openid-connect");
            ("publicClient", JBool false);
            ("standardFlowEnabled", JBool true);
            ("directAccessGrantsEnabled", JBool true) ] in
  response <- client_request POST (collection_url (test_realm_name u) Clients)
                "create/client" (JsonBody client_data) ;;
  track_location Clients response.

Definition create_realm_role : M unit :=
  ensure_valid_token ;;;
  hex <- uuid4 ;;
  let unique_id := take_str 8 hex in
  u <- self ;;
  let role_name := "test-role-" ++ unique_id in
  let role_data :=
    JDict [ ("name", JStr role_name);
            ("description", JStr ("Test role for load testing - " ++ unique_id));
            ("composite", JBool false) ] in
  response <- client_request POST (collection_url (test_realm_name u) Roles)
                "create/realm_role" (JsonBody role_data) ;;
  if (status_code response =? 201)%Z then track Roles role_name else ret tt.

Definition create_group : M unit :=
  ensure_valid_token ;;;
  hex <- uuid4 ;;
  let unique_id := take_str 8 hex in
  u <- self ;;
  let group_data :=
    JDict [ ("name", JStr ("test-group-" ++ unique_id));
            ("attributes",
             JDict [ ("description",
                      JList [ JStr ("Load test group " ++ unique_id) ]) ]) ] in
  response <- client_request POST (collection_url (test_realm_name u) Groups)
                "create/group" (JsonBody group_data) ;;
  track_location Groups response.

Definition create_client_scope : M unit :=
  ensure_valid_token ;;;
  hex <- uuid4 ;;
  let unique_id := take_str 8 hex in
  u <- self ;;
  let scope_data :=
    JDict [ ("name", JStr ("test-scope-" ++ unique_id));
            ("description", JStr ("Test client scope " ++ unique_id));
            ("protocol", JStr "openid-connect");
            ("attributes", JDict [ ("include.in.token.scope", JStr "true") ]) ] in
  client_request POST (realm_url (test_realm_name u) ++ "/client-scopes")
    "create/client_scope" (JsonBody scope_data) ;;;
  ret tt.

(** *** Read operations *)

Definition read_users : M unit :=
  ensure_valid_token ;;;
  u <- self ;;
  client_request GET (collection_url (test_realm_name u) Users) "read/users"
    (Params [ ("max", 20%Z); ("first", 0%Z) ]) ;;;
  ret tt.

Definition read_clients : M unit :=
  ensure_valid_token ;;;
  u <- self ;;
  client_request GET (collection_url (test_realm_name u) Clients) "read/clients"
    NoBody ;;;
  ret tt.

Definition read_realm_roles : M unit :=
  ensure_valid_token ;;;
  u <- self ;;
  client_request GET (collection_url (test_realm_name u) Roles) "read/realm_roles"
    NoBody ;;;
  ret tt.

Definition read_groups : M unit :=
  ensure_valid_token ;;;
  u <- self ;;
  client_request GET (collection_url (test_realm_name u) Groups) "read/groups"
    NoBody ;;;
  ret tt.

Definition read_realm_info : M unit :=
  ensure_valid_token ;;;
  u <- self ;;
  client_request GET (realm_url (test_realm_name u)) "read/realm_info" NoBody ;;;
  ret tt.

(** *** Update operations *)

Definition nonempty {A} (l : list A) : bool :=
  match l with [] => false | _ => true end.

Definition update_user : M unit :=
  ensure_valid_token ;;;
  u <- self ;;
  if nonempty (tracked Users u) then
    user_id <- random_choice (tracked Users u) ;;
    hex <- uuid4 ;;
    now <- time_time ;;
    let update_data :=
      JDict [ ("firstName", JStr ("Updated_" ++ take_str 4 hex));
              ("attributes",
               JDict [ ("lastUpdated",
                        JList [ JStr (str_int (int_of_float now)) ]) ]) ] in
    client_request PUT (resource_url (test_realm_name u) Users user_id)
      "update/user" (JsonBody update_data) ;;;
    ret tt
  else ret tt.

Definition update_client : M unit :=
  ensure_valid_token ;;;
  u <- self ;;
  if nonempty (tracked Clients u) then
    client_id <- random_choice (tracked Clients u) ;;
    now1 <- time_time ;;
    now2 <- time_time ;;
    let update_data :=
      JDict [ ("description",
               JStr ("Updated client description - " ++ str_int (int_of_float now1)));
              ("attributes",
               JDict [ ("lastModified", JStr (str_int (int_of_float now2))) ]) ] in
    client_request PUT (resource_url (test_realm_name u) Clients client_id)
      "update/client" (JsonBody update_data) ;;;
    ret tt
  else ret tt.

(** [current_role["description"] = ...]: the right-hand side is
    evaluated first, then the item is assigned, which only a [dict]
    takes with a string key. *)
Definition update_realm_role : M unit :=
  ensure_valid_token ;;;
  u <- self ;;
  if nonempty (tracked Roles u) then
    role_name <- random_choice (tracked Roles u) ;;
    get_response <- client_request GET
                      (resource_url (test_realm_name u) Roles role_name)
                      "get/realm_role_for_update" NoBody ;;
    if (status_code get_response =? 200)%Z then
      current_role <- json_of get_response ;;
      now <- time_time ;;
      match current_role with
      | JDict fields =>
          let current_role :=
            JDict (dict_set "description"
                     (JStr ("Updated role description - "
                            ++ str_int (int_of_float now))) fields) in
          client_request PUT (resource_url (test_realm_name u) Roles role_name)
            "update/realm_role" (JsonBody current_role) ;;;
          ret tt
      | _ => raise TypeError
      end
    else ret tt
  else ret tt.

(** [current_group["attributes"][key] = value]: the value is evaluated,
    then [current_group["attributes"]] is fetched and assigned into. *)
Definition set_attribute (key : string) (value : json)
    (current_group : list (string * json)) : M (list (string * json)) :=
  match dict_get "attributes" current_group with
  | Some (JDict attributes) =>
      ret (dict_set "attributes" (JDict (dict_set key value attributes))
             current_group)
  | Some _ => raise TypeError
  | None => raise (KeyError "attributes")
  end.

Definition update_group : M unit :=
  ensure_valid_token ;;;
  u <- self ;;
  if nonempty (tracked Groups u) then
    group_id <- random_choice (tracked Groups u) ;;
    get_response <- client_request GET
                      (resource_url (test_realm_name u) Groups group_id)
                      "get/group_for_update" NoBody ;;
    if (status_code get_response =? 200)%Z then
      current_group <- json_of get_response ;;
      match current_group with
      | JDict fields =>
          let fields :=
            if negb (dict_has "attributes" fields)
            then dict_set "attributes" (JDict []) fields
            else fields in
          now1 <- time_time ;;
          fields <- set_attribute "description"
                      (JList [ JStr ("Updated group - "
                                     ++ str_int (int_of_float now1)) ]) fields ;;
          now2 <- time_time ;;
          fields <- set_attribute "lastModified"
                      (JList [ JStr (str_int (int_of_float now2)) ]) fields ;;
          client_request PUT (resource_url (test_realm_name u) Groups group_id)
            "update/group" (JsonBody (JDict fields)) ;;;
          ret tt
      | JList items =>
          (* a list takes no string index, before or after the test *)
          if existsb (fun v => match v with
                               | JStr s => String.eqb s "attributes"
                               | _ => false
                               end) items
          then time_time ;;; raise TypeError
          else raise TypeError
      | JStr s =>
          if contains "attributes" s then time_time ;;; raise TypeError
          else raise TypeError
      | _ => raise TypeError   (* [in] on a value that is no container *)
      end
    else ret tt
  else ret tt.

Definition update_realm_settings : M unit :=
  ensure_valid_token ;;;
  u <- self ;;
  now1 <- time_time ;;
  now2 <- time_time ;;
  let update_data :=
    JDict [ ("displayName",
             JStr ("Updated Test Realm - " ++ str_int (int_of_float now1)));
            ("attributes",
             JDict [ ("lastUpdated", JStr (str_int (int_of_float now2))) ]) ] in
  client_request PUT (realm_url (test_realm_name u)) "update/realm_settings"
    (JsonBody update_data) ;;;
  ret tt.

(** *** Delete operations *)

(** The four deletions of tracked resources are one text, up to the
    key, the path and the label. *)
Definition delete_tracked (k : kind) (name : string) : M unit :=
  ensure_valid_token ;;;
  u <- self ;;
  if (1 <? List.length (tracked k u))%nat then   (* keep at least one *)
    let (rest, id) := pop (tracked k u) in
    update_self (set_tracked k rest) ;;;
    client_request DELETE (resource_url (test_realm_name u) k id) name NoBody ;;;
    ret tt
  else ret tt.

Definition delete_user : M unit := delete_tracked Users "delete/user".
Definition delete_client : M unit := delete_tracked Clients "delete/client".
Definition delete_realm_role : M unit := delete_tracked Roles "delete/realm_role".
Definition delete_group : M unit := delete_tracked Groups "delete/group".

(** [for s in scopes]: what iterating a JSON value yields. *)
Fixpoint chars (s : string) : list json :=
  match s with
  | EmptyString => []
  | String c r => JStr (String c EmptyString) :: chars r
  end.

Definition iterate (j : json) : result (list json) :=
  match j with
  | JList items => Ok items
  | JDict fields => Ok (map (fun kv => JStr (fst kv)) fields)
  | JStr s => Ok (chars s)
  | _ => Raise TypeError
  end.

(** [[s for s in scopes if s.get('name', '').startswith('test-scope-')]]:
    every element has to be a [dict], and its name a string. *)
Fixpoint test_scopes_of (scopes : list json) : result (list (list (string * json))) :=
  match scopes with
  | [] => Ok []
  | JDict s :: rest =>
      match match dict_get "name" s with Some v => v | None => JStr "" end with
      | JStr n =>
          match test_scopes_of rest with
          | Ok found =>
              Ok (if startswith "test-scope-" n then s :: found else found)
          | Raise e => Raise e
          end
      | _ => Raise (AttributeError "startswith")
      end
  | _ :: _ => Raise (AttributeError "get")
  end.

Definition delete_client_scope : M unit :=
  ensure_valid_token ;;;
  u <- self ;;
  response <- client_request GET (realm_url (test_realm_name u) ++ "/client-scopes")
                "get_scopes_for_delete" NoBody ;;
  if (status_code response =? 200)%Z then
    scopes <- json_of response ;;
    items <- lift (iterate scopes) ;;
    test_scopes <- lift (test_scopes_of items) ;;
    if nonempty test_scopes then
      scope <- random_choice test_scopes ;;
      match dict_get "id" scope with
      | Some scope_id =>
          client_request DELETE
            (realm_url (test_realm_name u) ++ "/client-scopes/"
               ++ format_value scope_id)
            "delete/client_scope" NoBody ;;;
          ret tt
      | None => raise (KeyError "id")
      end
    else ret tt
  else ret tt.

(** *** The task set *)

Inductive task : Type :=
| CreateUser | CreateClient | CreateRealmRole | CreateGroup | CreateClientScope
| ReadUsers | ReadClients | ReadRealmRoles | ReadGroups | ReadRealmInfo
| UpdateUser | UpdateClient | UpdateRealmRole | UpdateGroup | UpdateRealmSettings
| DeleteUser | DeleteClient | DeleteRealmRole | DeleteGroup | DeleteClientScope.

(** The [@task(n)] weights. *)
Definition weight (t : task) : nat :=
  match t with
  | CreateUser => 2 | CreateClient => 1 | CreateRealmRole => 1
  | CreateGroup => 1 | CreateClientScope => 1
  | ReadUsers => 5 | ReadClients => 3 | ReadRealmRoles => 2
  | ReadGroups => 2 | ReadRealmInfo => 4
  | UpdateUser => 2 | UpdateClient => 1 | UpdateRealmRole => 1
  | UpdateGroup => 1 | UpdateRealmSettings => 1
  | DeleteUser => 1 | DeleteClient => 1 | DeleteRealmRole => 1
  | DeleteGroup => 1 | DeleteClientScope => 1
  end.

Definition run_task (t : task) : M unit :=
  match t with
  | CreateUser => create_user
  | CreateClient => create_client
  | CreateRealmRole => create_realm_role
  | CreateGroup => create_group
  | CreateClientScope => create_client_scope
  | ReadUsers => read_users
  | ReadClients => read_clients
  | ReadRealmRoles => read_realm_roles
  | ReadGroups => read_groups
  | ReadRealmInfo => read_realm_info
  | UpdateUser => update_user
  | UpdateClient => update_client
  | UpdateRealmRole => update_realm_role
  | UpdateGroup => update_group
  | UpdateRealmSettings => update_realm_settings
  | DeleteUser => delete_user
  | DeleteClient => delete_client
  | DeleteRealmRole => delete_realm_role
  | DeleteGroup => delete_group
  | DeleteClientScope => delete_client_scope
  end.

(** Locust runs the tasks it picks one after the other; a task that
    raises is reported and the session goes on with the next one.  The
    run of a list of tasks: the state it ends in and every exchange it
    had. *)
Fixpoint run_tasks (ts : list task) (st : state) : state * list exchange :=
  match ts with
  | [] => (st, [])
  | t :: rest =>
      let '(_, st1, es1) := run_task t st in
      let '(st2, es2) := run_tasks rest st1 in
      (st2, (es1 ++ es2)%list)
  end.

(** A user instance before [on_start], and a world nothing was read
    of. *)
Definition new_user : KeycloakUser :=
  {| token_expires_at := 0;
     test_realm_name := "";
     created_resources := {| users := []; clients := []; realms := [];
                             roles := []; groups := [] |};
     admin_token := None;
     client_authorization := None |}.

Definition new_world : world :=
  {| n_requests := 0; n_clock := 0; n_random := 0; n_uuid := 0 |}.

(** A whole session up to its last task: [on_start], then the tasks.
    Locust stops a user whose [on_start] raises: it runs none of its
    tasks. *)
Definition session (ts : list task) : state * list exchange :=
  match on_start (new_user, new_world) with
  | (Ok _, st0, es0) =>
      let '(st1, es1) := run_tasks ts st0 in
      (st1, (es0 ++ es1)%list)
  | (Raise _, st0, es0) => (st0, es0)
  end.

End Session.

End Locustfile.

(** ** Properties of the workload *)

Module LocustfileProps.
Import Locustfile.

(** *** A weakest-precondition reading of the session monad *)

Definition wp {A} (m : M A) (st : state)
    (Q : result A -> state -> list exchange -> Prop) : Prop :=
  Q (outcome (m st)) (state_after (m st)) (exchanges (m st)).

Lemma wp_ret {A} (a : A) st Q : Q (Ok a) st [] -> wp (ret a) st Q.
Proof. exact (fun H => H). Qed.

Lemma wp_raise {A} (e : exn) st (Q : result A -> _) :
  Q (Raise e) st [] -> wp (raise e) st Q.
Proof. exact (fun H => H). Qed.

Lemma wp_bind {A B} (m : M A) (k : A -> M B) st Q :
  wp m st (fun r st1 es1 =>
             match r with
             | Ok a => wp (k a) st1 (fun r2 st2 es2 => Q r2 st2 (es1 ++ es2)%list)
             | Raise e => Q (Raise e) st1 es1
             end) ->
  wp (bind m k) st Q.
Proof.
  unfold wp, bind, outcome, state_after, exchanges.
  destruct (m st) as [[[a | e] st1] es1]; cbn [fst snd]; [| exact (fun H => H)].
  destruct (k a st1) as [[r st2] es2]. exact (fun H => H).
Qed.

Lemma wp_self u w Q : Q (Ok u) (u, w) [] -> wp self (u, w) Q.
Proof. exact (fun H => H). Qed.

Lemma wp_update_self f u w Q : Q (Ok tt) (f u, w) [] -> wp (update_self f) (u, w) Q.
Proof. exact (fun H => H). Qed.

Lemma wp_lift {A} (r : result A) st Q : Q r st [] -> wp (lift r) st Q.
Proof. destruct r; exact (fun H => H). Qed.

Lemma wp_json_of (r : response) st Q : Q (json_body r) st [] -> wp (json_of r) st Q.
Proof. unfold json_of. destruct (json_body r); exact (fun H => H). Qed.

(** The world after one more reading of the clock, one more draw, one more
    identifier. *)
Definition tick (w : world) : world :=
  {| n_requests := n_requests w; n_clock := S (n_clock w);
     n_random := n_random w; n_uuid := n_uuid w |}.

Definition drawn (w : world) : world :=
  {| n_requests := n_requests w; n_clock := n_clock w;
     n_random := S (n_random w); n_uuid := n_uuid w |}.

Definition minted (w : world) : world :=
  {| n_requests := n_requests w; n_clock := n_clock w;
     n_random := n_random w; n_uuid := S (n_uuid w) |}.

Definition kind_eqb (a b : kind) : bool :=
  match a, b with
  | Users, Users | Clients, Clients | Roles, Roles | Groups, Groups => true
  | _, _ => false
  end.

Section Session.
Variable clock : nat -> Q.
Variable uuid4_hex : nat -> string.
Variable randbelow : nat -> nat -> nat.
Variable token_endpoint : nat -> request -> token_response.
Variable admin_api : nat -> request -> response.
Variable repr : json -> string.

Lemma wp_time_time u w Q :
  Q (Ok (clock (n_clock w))) (u, tick w) [] -> wp (time_time clock) (u, w) Q.
Proof. exact (fun H => H). Qed.

Lemma wp_uuid4 u w Q :
  Q (Ok (uuid4_hex (n_uuid w))) (u, minted w) [] -> wp (uuid4 uuid4_hex) (u, w) Q.
Proof. exact (fun H => H). Qed.

Lemma wp_random_choice {A} (l : list A) u w Q :
  (forall x, choice_at (randbelow (n_random w) (List.length l)) l = Some x ->
             Q (Ok x) (u, drawn w) []) ->
  (choice_at (randbelow (n_random w) (List.length l)) l = None ->
   Q (Raise IndexError) (u, w) []) ->
  wp (random_choice randbelow l) (u, w) Q.
Proof.
  intros Hsome Hnone. unfold wp, random_choice.
  destruct (choice_at _ l) as [x |]; [now apply Hsome | now apply Hnone].
Qed.

(** The request the session sends from the state [(u, w)], and the exchange
    it makes with the admin API. *)
Definition request_of (u : KeycloakUser) m url name payload : request :=
  {| method := m; url := url; name := name; payload := payload;
     authorization := client_authorization u |}.

Definition api_exchange (u : KeycloakUser) (w : world) m url name payload : exchange :=
  {| sent := request_of u m url name payload;
     received := FromAdminApi (admin_api (n_requests w) (request_of u m url name payload)) |}.

Lemma wp_client_request m url name payload u w Q :
  Q (Ok (admin_api (n_requests w) (request_of u m url name payload)))
    (u, next_request w) [api_exchange u w m url name payload] ->
  wp (client_request admin_api m url name payload) (u, w) Q.
Proof. exact (fun H => H). Qed.


(** The exchange of a token fetch from the state [(u, w)]. *)
Definition token_exchange (u : KeycloakUser) (w : world) : exchange :=
  let req := request_of u POST token_url "auth/get_admin_token"
               (FormData [ ("grant_type", "password"); ("client_id", "admin-cli");
                           ("username", "admin"); ("password", "admin") ]) in
  {| sent := req; received := FromTokenEndpoint (token_endpoint (n_requests w) req) |}.

(** What a token check leaves as it was: the tracked resources, the realm,
    and the random generator. *)
Definition kept (u u' : KeycloakUser) (w w' : world) : Prop :=
  created_resources u' = created_resources u
  /\ test_realm_name u' = test_realm_name u
  /\ n_random w' = n_random w.

Lemma wp_token_request url name payload u w Q :
  Q (Ok (token_endpoint (n_requests w) (request_of u POST url name payload)))
    (u, next_request w)
    [ {| sent := request_of u POST url name payload;
         received := FromTokenEndpoint
                       (token_endpoint (n_requests w)
                          (request_of u POST url name payload)) |} ] ->
  wp (token_request token_endpoint url name payload) (u, w) Q.
Proof. exact (fun H => H). Qed.

Ltac wp_step0 :=
  lazymatch goal with
  | |- wp (bind _ _) _ _ => apply wp_bind
  | |- wp (ret _) _ _ => apply wp_ret
  | |- wp (raise _) _ _ => apply wp_raise
  | |- wp self _ _ => apply wp_self
  | |- wp (update_self _) _ _ => apply wp_update_self
  | |- wp (lift _) _ _ => apply wp_lift
  | |- wp (json_of _) _ _ => apply wp_json_of
  | |- wp (time_time _) _ _ => apply wp_time_time
  | |- wp (uuid4 _) _ _ => apply wp_uuid4
  | |- wp (random_choice _ _) _ _ =>
      apply wp_random_choice; [intros ? ? | intros ?]
  | |- wp (client_request _ _ _ _ _) _ _ => apply wp_client_request
  | |- wp (track _ _) _ _ => unfold track
  | |- wp (track_location _ _) _ _ => unfold track_location
  | |- wp (set_attribute _ _ _) _ _ => unfold set_attribute
  | |- wp (if ?c then _ else _) _ _ => destruct c eqn:?
  | |- wp (match ?x with _ => _ end) _ _ => destruct x eqn:?
  | |- match ?x with _ => _ end => destruct x eqn:?
  end; cbv beta iota zeta.

(** The answer of the token endpoint to a fetch from [(u, w)]. *)
Definition token_answer (u : KeycloakUser) (w : world) : token_response :=
  token_endpoint (n_requests w) (sent (token_exchange u w)).

(** A token fetch raises only while it reads an answer with status 200. *)
Definition raised_reading {A} (r : result A) (answer : token_response) : Prop :=
  match r with
  | Ok _ => True
  | Raise _ => token_status answer = 200%Z
  end.

Lemma wp_get_admin_token u w Q :
  (forall r u' w',
      kept u u' w w' -> raised_reading r (token_answer u w) ->
      Q r (u', w') [token_exchange u w]) ->
  wp (get_admin_token clock token_endpoint repr) (u, w) Q.
Proof.
  intros HQ. unfold get_admin_token.
  apply wp_bind, wp_token_request. cbv beta iota zeta.
  change (token_endpoint (n_requests w) _) with (token_answer u w).
  change {| sent := _; received := FromTokenEndpoint (token_answer u w) |}
    with (token_exchange u w).
  destruct (token_status (token_answer u w) =? 200)%Z eqn:H200;
    [apply Z.eqb_eq in H200 |].
  - repeat wp_step0.
    all: cbn [app]; apply HQ; [repeat split | first [exact H200 | exact I]].
  - apply wp_ret. cbn [app]. apply HQ; [repeat split | exact I].
Qed.

(** Whether the token check at [(u, w)] finds the token expired. *)
Definition expired (u : KeycloakUser) (w : world) : bool :=
  Qle_bool (token_expires_at u) (clock (n_clock w)).

(** The exchanges of [ensure_valid_token] at [(u, w)]. *)
Definition token_part (u : KeycloakUser) (w : world) : list exchange :=
  if expired u w then [token_exchange u (tick w)] else [].

(** A token check raises only when it finds the token expired and reads
    an answer with status 200. *)
Definition check_raised {A} (r : result A) (u : KeycloakUser) (w : world) : Prop :=
  match r with
  | Ok _ => True
  | Raise _ => expired u w = true /\ token_status (token_answer u (tick w)) = 200%Z
  end.

Lemma ensure_valid_token_spec u w :
  wp (ensure_valid_token clock token_endpoint repr) (u, w) (fun r st es =>
    kept u (fst st) w (snd st) /\ check_raised r u w /\ es = token_part u w).
Proof.
  unfold ensure_valid_token.
  apply wp_bind, wp_time_time. cbv beta iota.
  apply wp_bind, wp_self. cbv beta iota.
  unfold token_part, check_raised, expired.
  destruct (Qle_bool (token_expires_at u) (clock (n_clock w))).
  - apply wp_get_admin_token. intros r u' w' Hk Hr. split; [exact Hk |].
    split; [| reflexivity].
    destruct r; [exact I | split; [reflexivity | exact Hr]].
  - apply wp_ret. repeat split.
Qed.

(** [r] is the outcome of the token check at [(u, w)]. *)
Definition checked (r : result unit) (u : KeycloakUser) (w : world) : Prop :=
  r = outcome (ensure_valid_token clock token_endpoint repr (u, w))
  /\ check_raised r u w.

Lemma wp_ensure_valid_token u w Q :
  (forall r u' w',
      kept u u' w w' -> checked r u w -> Q r (u', w') (token_part u w)) ->
  wp (ensure_valid_token clock token_endpoint repr) (u, w) Q.
Proof.
  intros HQ. pose proof (ensure_valid_token_spec u w) as (Hk & Hr & Hes).
  unfold wp in *. rewrite Hes.
  destruct (state_after (ensure_valid_token _ _ _ (u, w))) as [u' w'].
  apply HQ; [exact Hk | split; [reflexivity | exact Hr]].
Qed.

Ltac wp_step :=
  lazymatch goal with
  | |- wp (ensure_valid_token _ _ _) _ _ =>
      apply wp_ensure_valid_token; intros [[] | ?] ? ? ? ?; cbv beta iota zeta
  | |- _ => wp_step0
  end.

Ltac unfold_task :=
  unfold run_task, create_user, create_client, create_realm_role, create_group,
    create_client_scope, read_users, read_clients, read_realm_roles, read_groups,
    read_realm_info, update_user, update_client, update_realm_role, update_group,
    update_realm_settings, delete_user, delete_client, delete_realm_role,
    delete_group, delete_tracked, delete_client_scope.

Local Abbreviation run_task' :=
  (run_task clock uuid4_hex randbelow token_endpoint admin_api repr).
Local Abbreviation ensure_valid_token' :=
  (ensure_valid_token clock token_endpoint repr).

(** A leaf where the token check raised, although it is known to return. *)
Ltac check_returns :=
  match goal with
  | R : checked (Raise _) ?u ?w, Hok : outcome _ = Ok tt |- _ =>
      destruct R as [R _]; rewrite Hok in R; discriminate R
  end.

Lemma tracked_set_tracked k k0 l u :
  tracked k (set_tracked k0 l u)
  = if kind_eqb k k0 then l else tracked k u.
Proof. destruct k, k0; reflexivity. Qed.

Lemma set_tracked_keeps_realm k l u :
  test_realm_name (set_tracked k l u) = test_realm_name u
  /\ realms (created_resources (set_tracked k l u)) = realms (created_resources u).
Proof. destruct k; split; reflexivity. Qed.

(** No task touches the realm's name or the [realms] list. *)
Lemma task_keeps_realm t u w :
  test_realm_name (user_after (run_task' t (u, w))) = test_realm_name u
  /\ realms (created_resources (user_after (run_task' t (u, w))))
     = realms (created_resources u).
Proof.
  change (wp (run_task' t) (u, w) (fun _ st _ =>
            test_realm_name (fst st) = test_realm_name u
            /\ realms (created_resources (fst st)) = realms (created_resources u))).
  destruct t; unfold_task; repeat wp_step.
  all: cbn [fst];
    match goal with H : kept _ _ _ _ |- _ => destruct H as (Hres & Hrealm & _) end;
    rewrite <- Hrealm, <- Hres;
    try apply set_tracked_keeps_realm; split; reflexivity.
Qed.


Local Abbreviation on_start' := (on_start clock uuid4_hex token_endpoint admin_api repr).
Local Abbreviation on_stop' := (on_stop clock token_endpoint admin_api repr).
Local Abbreviation cleanup_resources' :=
  (cleanup_resources clock token_endpoint admin_api repr).
Local Abbreviation run_tasks' :=
  (run_tasks clock uuid4_hex randbelow token_endpoint admin_api repr).

Lemma run_tasks_keep_realm ts st :
  test_realm_name (fst (fst (run_tasks' ts st))) = test_realm_name (fst st)
  /\ realms (created_resources (fst (fst (run_tasks' ts st))))
     = realms (created_resources (fst st)).
Proof.
  revert st. induction ts as [| t ts IH]; intros st; [split; reflexivity |].
  cbn [run_tasks]. destruct st as [u w].
  pose proof (task_keeps_realm t u w) as Ht. unfold user_after in Ht.
  destruct (run_task' t (u, w)) as [[r st1] es1]. cbn [fst snd] in Ht.
  specialize (IH st1). destruct (run_tasks' ts st1) as [st2 es2].
  cbn [fst snd] in *. destruct Ht as [Ht1 Ht2], IH as [IH1 IH2].
  split; congruence.
Qed.

(** The realm [on_start] names, read off the state it leaves. *)
Definition realm_post (e : exchange) : bool :=
  String.eqb (name (sent e)) "setup/create_test_realm".

(** [on_start] starts with the token fetch.  When the fetch returns, the
    creation of the realm follows and nothing else, and the realm is tracked
    exactly when its creation was answered 201; when the fetch raises,
    [on_start] raises with it: it has no other exchange and tracks no
    realm. *)
Lemma on_start_spec st0 :
  exists tok rest,
    exchanges (on_start' st0) = tok :: rest
    /\ realm_post tok = false
    /\ ((exists post,
           rest = [post] /\ realm_post post = true
           /\ outcome (on_start' st0) = Ok tt
           /\ realms (created_resources (user_after (on_start' st0)))
              = if (received_status post =? 201)%Z
                then [test_realm_name (user_after (on_start' st0))] else [])
        \/ (rest = []
            /\ (exists e, outcome (on_start' st0) = Raise e)
            /\ realms (created_resources (user_after (on_start' st0))) = [])).
Proof.
  destruct st0 as [u0 w0].
  change (wp on_start' (u0, w0) (fun r st es =>
    exists tok rest, es = tok :: rest /\ realm_post tok = false
      /\ ((exists post,
             rest = [post] /\ realm_post post = true /\ r = Ok tt
             /\ realms (created_resources (fst st))
                = if (received_status post =? 201)%Z
                  then [test_realm_name (fst st)] else [])
          \/ (rest = [] /\ (exists e, r = Raise e)
              /\ realms (created_resources (fst st)) = [])))).
  unfold on_start, create_test_realm.
  wp_step. wp_step. wp_step. wp_step. wp_step.
  apply wp_get_admin_token. intros [[] | e] u' w' (Hres & Hrealm & _) _.
  - cbv beta iota zeta. repeat wp_step.
    all: eexists _, _; split; [reflexivity |]; split; [reflexivity |]; left;
      eexists; split; [reflexivity |]; split; [reflexivity |];
      split; [reflexivity |]; cbn [fst received_status received api_exchange];
      rewrite Heqb; unfold set_realms, set_resources;
      cbn [realms created_resources test_realm_name];
      rewrite ?Hres; reflexivity.
  - eexists _, _. split; [reflexivity |]. split; [reflexivity |]. right.
    split; [reflexivity |]. split; [now exists e |]. cbn [fst]. now rewrite Hres.
Qed.

(** The exchanges of [cleanup_resources]: the token check, then, when
    the check returns, the deletion of the realm when, and only when, the
    realm is tracked.  It raises when the check does, and only then. *)
Lemma cleanup_resources_spec u w :
  exists u' w',
    exchanges (cleanup_resources' (u, w))
    = (token_part u w
       ++ match outcome (cleanup_resources' (u, w)) with
          | Ok _ =>
              if existsb (String.eqb (test_realm_name u)) (realms (created_resources u))
              then [api_exchange u' w' DELETE (realm_url (test_realm_name u))
                      "cleanup/delete_test_realm" NoBody]
              else []
          | Raise _ => []
          end)%list
    /\ check_raised (outcome (cleanup_resources' (u, w))) u w.
Proof.
  change (wp cleanup_resources' (u, w) (fun r _ es =>
    exists u' w', es = (token_part u w
       ++ match r with
          | Ok _ =>
              if existsb (String.eqb (test_realm_name u)) (realms (created_resources u))
              then [api_exchange u' w' DELETE (realm_url (test_realm_name u))
                      "cleanup/delete_test_realm" NoBody]
              else []
          | Raise _ => []
          end)%list
      /\ check_raised r u w)).
  unfold cleanup_resources. repeat wp_step.
  all: match goal with
       | H : kept _ ?a _ ?b |- _ => destruct H as (Hres & Hrealm & _); exists a, b
       end;
    rewrite ?Hres, ?Hrealm in *; rewrite ?Heqb, ?app_nil_r;
    (split; [reflexivity |
             match goal with H : checked _ _ _ |- _ => exact (proj2 H) end]).
Qed.

Definition is_delete (e : exchange) : bool :=
  match method (sent e) with DELETE => true | _ => false end.

Lemma token_part_no_delete u w : filter is_delete (token_part u w) = [].
Proof. unfold token_part. destruct (expired u w); reflexivity. Qed.

(** C10, as the code has it.  At the end of a session, [on_stop] sends a
    [DELETE] exactly when the [POST] that created the realm in [on_start]
    was answered 201 and the token check of [cleanup_resources] returns.
    The check raises only when it finds the token expired and the token
    endpoint answers the fetch with status 200; then [on_stop] raises and
    sends no [DELETE], also when the realm was created.  When the creation
    failed it sends no [DELETE] at all.  A [DELETE] it sends is for the
    session's realm. *)
Theorem realm_deleted_iff_created (st0 : state) (ts : list task) :
  let start := on_start' st0 in
  let realm := test_realm_name (user_after start) in
  let last := fst (run_tasks' ts (state_after start)) in
  let stop := on_stop' last in
  ((exists e, In e (exchanges stop) /\ method (sent e) = DELETE)
   <-> (exists e, In e (exchanges start)
                  /\ name (sent e) = "setup/create_test_realm"
                  /\ received_status e = 201%Z)
       /\ outcome stop = Ok tt)
  /\ check_raised (outcome stop) (fst last) (snd last)
  /\ (forall e, In e (exchanges stop) -> method (sent e) = DELETE ->
                url (sent e) = realm_url realm).
Proof.
  cbv zeta. unfold on_stop.
  destruct (on_start_spec st0) as (tok & rest & Hes & Htok & Hcases).
  pose proof (run_tasks_keep_realm ts (state_after (on_start' st0))) as [Hn Hr].
  destruct (run_tasks' ts (state_after (on_start' st0))) as [[u1 w1] es1].
  cbn [fst snd] in *. unfold user_after, state_after in *.
  destruct (cleanup_resources_spec u1 w1) as (u' & w' & Hstop & Hraised).
  split; [| split; [exact Hraised |]]; rewrite ?Hstop, ?Hes, ?Hn, ?Hr; clear Hstop.
  all: assert (Hdel : forall e, In e (token_part u1 w1) ->
                                method (sent e) = DELETE -> False)
    by (intros e He Hm; pose proof (token_part_no_delete u1 w1) as Hf;
        assert (In e (filter is_delete (token_part u1 w1))) as Hin
          by (apply filter_In; split; [exact He | unfold is_delete; now rewrite Hm]);
        rewrite Hf in Hin; exact Hin).
  all: destruct (outcome (cleanup_resources' (u1, w1))) as [[] | raised].
  all: destruct Hcases as [(post & -> & Hpost & _ & Hrealms) | (-> & _ & Hrealms)];
    rewrite ?Hrealms.
  all: try destruct (received_status post =? 201)%Z eqn:Hst.
  all: cbn [existsb]; rewrite ?String.eqb_refl; cbn [orb]; rewrite ?app_nil_r.
  (* the equivalence *)
  - split.
    + intros _. split; [| reflexivity]. exists post.
      split; [right; left; reflexivity |].
      split; [now apply String.eqb_eq | now apply Z.eqb_eq].
    + intros _. eexists. split; [apply in_or_app; right; left; reflexivity |].
      reflexivity.
  - split.
    + intros (e & He & Hm). destruct (Hdel e He Hm).
    + intros [(e & [<- | [<- | []]] & Hname & Hstatus) _].
      * apply String.eqb_eq in Hname. unfold realm_post in Htok. congruence.
      * apply Z.eqb_neq in Hst. contradiction.
  - split.
    + intros (e & He & Hm). destruct (Hdel e He Hm).
    + intros [(e & [<- | []] & Hname & Hstatus) _].
      apply String.eqb_eq in Hname. unfold realm_post in Htok. congruence.
  - split; [intros (e & He & Hm); destruct (Hdel e He Hm) | intros [_ H]; discriminate H].
  - split; [intros (e & He & Hm); destruct (Hdel e He Hm) | intros [_ H]; discriminate H].
  - split; [intros (e & He & Hm); destruct (Hdel e He Hm) | intros [_ H]; discriminate H].
  (* the URL *)
  - intros e He Hm. apply in_app_or in He. destruct He as [He | [<- | []]].
    + destruct (Hdel e He Hm).
    + reflexivity.
  - intros e He Hm. destruct (Hdel e He Hm).
  - intros e He Hm. destruct (Hdel e He Hm).
  - intros e He Hm. destruct (Hdel e He Hm).
  - intros e He Hm. destruct (Hdel e He Hm).
  - intros e He Hm. destruct (Hdel e He Hm).
Qed.


(** *** Deletions *)

Definition delete_task (k : kind) : M unit :=
  match k with
  | Users => delete_user clock token_endpoint admin_api repr
  | Clients => delete_client clock token_endpoint admin_api repr
  | Roles => delete_realm_role clock token_endpoint admin_api repr
  | Groups => delete_group clock token_endpoint admin_api repr
  end.

Definition create_task (k : kind) : M unit :=
  match k with
  | Users => create_user clock uuid4_hex token_endpoint admin_api repr
  | Clients => create_client clock uuid4_hex token_endpoint admin_api repr
  | Roles => create_realm_role clock uuid4_hex token_endpoint admin_api repr
  | Groups => create_group clock uuid4_hex token_endpoint admin_api repr
  end.

Lemma kept_tracked u u' w w' k : kept u u' w w' -> tracked k u' = tracked k u.
Proof. intros (Hres & _ & _). destruct k; unfold tracked; now rewrite Hres. Qed.

(** A deletion in closed form: [r] is the outcome of its token check. *)
Lemma delete_tracked_spec k name u w :
  exists (r : result unit) u' w',
    kept u u' w w'
    /\ checked r u w
    /\ delete_tracked clock token_endpoint admin_api repr k name (u, w)
       = match r with
         | Raise e => (Raise e, (u', w'), token_part u w)
         | Ok _ =>
             if (1 <? List.length (tracked k u))%nat
             then (Ok tt,
                   (set_tracked k (removelast (tracked k u)) u', next_request w'),
                   (token_part u w
                    ++ [api_exchange (set_tracked k (removelast (tracked k u)) u') w'
                          DELETE
                          (resource_url (test_realm_name u) k (last (tracked k u) ""))
                          name NoBody])%list)
             else (Ok tt, (u', w'), token_part u w)
         end.
Proof.
  enough (wp (delete_tracked clock token_endpoint admin_api repr k name) (u, w)
            (fun r0 st es => exists (r : result unit) u' w',
               kept u u' w w' /\ checked r u w
               /\ (r0, st, es) =
                  match r with
                  | Raise e => (Raise e, (u', w'), token_part u w)
                  | Ok _ =>
                      if (1 <? List.length (tracked k u))%nat
                      then (Ok tt,
                            (set_tracked k (removelast (tracked k u)) u',
                             next_request w'),
                            (token_part u w
                             ++ [api_exchange
                                   (set_tracked k (removelast (tracked k u)) u') w'
                                   DELETE
                                   (resource_url (test_realm_name u) k
                                      (last (tracked k u) ""))
                                   name NoBody])%list)
                      else (Ok tt, (u', w'), token_part u w)
                  end)) as H.
  { unfold wp, outcome, state_after, exchanges in H.
    destruct (delete_tracked _ _ _ _ k name (u, w)) as [[r st] es]. exact H. }
  unfold delete_tracked, pop. repeat wp_step.
  all: match goal with
       | H : kept _ ?a _ ?b, R : checked ?r _ _ |- _ =>
           exists r, a, b; split; [exact H |]; split; [exact R |];
           rewrite ?(kept_tracked _ _ _ _ k H) in *; destruct H as (_ & Hrealm & _)
       end;
    rewrite ?Heqb, ?Hrealm, ?app_nil_r; reflexivity.
Qed.

Lemma delete_task_unfold k :
  exists name, delete_task k = delete_tracked clock token_endpoint admin_api repr k name.
Proof. destruct k; eexists; reflexivity. Qed.

Lemma removelast_last (l : list string) :
  l <> [] -> l = (removelast l ++ [last l ""])%list.
Proof. intros Hl. now apply app_removelast_last. Qed.

Lemma length_removelast (l : list string) :
  List.length (removelast l) = (List.length l - 1)%nat.
Proof.
  induction l as [| a [| b l] IH]; [reflexivity | reflexivity |].
  change (S (List.length (removelast (b :: l))) = (S (S (List.length l)) - 1)%nat).
  rewrite IH. cbn [List.length]. lia.
Qed.

(** A creation leaves the tracked list as it was or appends one
    identifier at its end. *)
Lemma create_task_appends k u w :
  tracked k (user_after (create_task k (u, w))) = tracked k u
  \/ exists id,
       tracked k (user_after (create_task k (u, w))) = (tracked k u ++ [id])%list.
Proof.
  change (wp (create_task k) (u, w) (fun _ st _ =>
            tracked k (fst st) = tracked k u
            \/ exists id, tracked k (fst st) = (tracked k u ++ [id])%list)).
  destruct k; unfold create_task; unfold_task; repeat wp_step.
  all: cbn [fst];
    match goal with H : kept _ _ _ _ |- _ => pose proof (kept_tracked _ _ _ _ Users H);
      pose proof (kept_tracked _ _ _ _ Clients H);
      pose proof (kept_tracked _ _ _ _ Roles H);
      pose proof (kept_tracked _ _ _ _ Groups H) end;
    rewrite ?tracked_set_tracked; cbn [kind_eqb];
    first [ left; congruence | right; eexists; f_equal; congruence ].
Qed.

(** C4, as the code has it.  A deletion of a tracked type raises only in
    its token check, and then it leaves the list as it is and sends no
    [DELETE], however many identifiers are tracked.  When it returns: with
    two or more identifiers tracked it removes the last one of the list,
    which is where creations append, sends one [DELETE], for that
    identifier, and leaves at least one identifier tracked.  With fewer than
    two it leaves the list as it is and sends no [DELETE].  So a list that
    is not empty stays so.  The lists of the other types are not touched. *)
Theorem delete_keeps_one (k : kind) (u : KeycloakUser) (w : world) :
  let before := tracked k u in
  let run := delete_task k (u, w) in
  let after := tracked k (user_after run) in
  (outcome run = Ok tt ->
   2 <= List.length before ->
   before = (after ++ [last before ""])%list
   /\ 1 <= List.length after
   /\ exists e, filter is_delete (exchanges run) = [e]
                /\ url (sent e)
                   = resource_url (test_realm_name u) k (last before ""))%nat
  /\ (forall e, outcome run = Raise e ->
                check_raised (outcome run) u w
                /\ after = before /\ filter is_delete (exchanges run) = [])
  /\ (List.length before < 2 ->
      after = before /\ filter is_delete (exchanges run) = [])%nat
  /\ (1 <= List.length before -> 1 <= List.length after)%nat
  /\ (forall k', k' <> k -> tracked k' (user_after run) = tracked k' u)
  /\ (tracked k (user_after (create_task k (u, w))) = before
      \/ exists id,
           tracked k (user_after (create_task k (u, w))) = (before ++ [id])%list).
Proof.
  cbv zeta. destruct (delete_task_unfold k) as [name ->].
  destruct (delete_tracked_spec k name u w) as (r & u' & w' & Hk & [_ Hraised] & ->).
  pose proof (kept_tracked _ _ _ _ k Hk) as Hsame.
  assert (Hother : forall k', tracked k' u' = tracked k' u)
    by (intros k'; exact (kept_tracked _ _ _ _ k' Hk)).
  destruct r as [[] | raised].
  - destruct (1 <? List.length (tracked k u))%nat eqn:Hlen;
      [apply Nat.ltb_lt in Hlen | apply Nat.ltb_ge in Hlen];
      unfold outcome, user_after, exchanges; cbn [fst snd];
      rewrite ?tracked_set_tracked.
    + replace (kind_eqb k k) with true by (destruct k; reflexivity).
      assert (Hne : tracked k u <> [])
        by (intros E; rewrite E in Hlen; cbn in Hlen; lia).
      split; [intros _ _ | split; [intros e H; discriminate H |
                                   split; [lia | split; [| split]]]].
      * split; [now apply removelast_last |].
        split; [rewrite length_removelast; lia |].
        eexists. rewrite filter_app, token_part_no_delete. split; reflexivity.
      * intros _. rewrite length_removelast. lia.
      * intros k' Hk'. rewrite tracked_set_tracked.
        replace (kind_eqb k' k) with false by (destruct k', k; cbn; congruence).
        apply Hother.
      * apply create_task_appends.
    + split; [lia |]. split; [intros e H; discriminate H |].
      split; [intros _; split; [exact Hsame | apply token_part_no_delete] |].
      split; [rewrite Hsame; exact (fun H => H) |].
      split; [intros k' _; apply Hother | apply create_task_appends].
  - unfold outcome, user_after, exchanges; cbn [fst snd].
    split; [intros H; discriminate H |].
    split; [intros e _; split; [exact Hraised |];
            split; [exact Hsame | apply token_part_no_delete] |].
    split; [intros _; split; [exact Hsame | apply token_part_no_delete] |].
    split; [rewrite Hsame; exact (fun H => H) |].
    split; [intros k' _; apply Hother | apply create_task_appends].
Qed.


(** *** The admin token *)

(** A request for a token: a [POST] to the token endpoint. *)
Definition is_token_fetch (e : exchange) : bool :=
  match method (sent e) with
  | POST => String.eqb (url (sent e)) token_url
  | _ => false
  end.

Definition token_fetches (es : list exchange) : nat :=
  List.length (filter is_token_fetch es).

(** The operations that check the token before they make their own
    request: the twenty tasks, and the cleanup at the end of the session. *)
Inductive operation : Type :=
| Task (t : task)
| Cleanup.

Definition run_operation (op : operation) : M unit :=
  match op with
  | Task t => run_task' t
  | Cleanup => cleanup_resources'
  end.

(** An operation starts with its token check; whatever it exchanges after
    that is no token fetch. *)
Lemma operation_exchanges op u w :
  exists rest,
    exchanges (run_operation op (u, w)) = (token_part u w ++ rest)%list
    /\ token_fetches rest = 0%nat.
Proof.
  change (wp (run_operation op) (u, w) (fun _ _ es =>
            exists rest, es = (token_part u w ++ rest)%list
                         /\ token_fetches rest = 0%nat)).
  destruct op as [t |]; [destruct t |]; unfold run_operation, cleanup_resources;
    unfold_task; repeat wp_step.
  all: first [ eexists; split; reflexivity
             | exists []; split; [now rewrite app_nil_r | reflexivity] ].
Qed.

Lemma token_fetches_app a b :
  token_fetches (a ++ b) = (token_fetches a + token_fetches b)%nat.
Proof. unfold token_fetches. now rewrite filter_app, length_app. Qed.

Local Abbreviation get_admin_token' := (get_admin_token clock token_endpoint repr).

(** A fetch answered 200 with an object that has a token, and a lifetime
    that the subtraction and the sum take, returns; what it stores. *)
Lemma get_admin_token_success u w fields tok difference lifetime :
  token_status (token_answer u w) = 200%Z ->
  token_json (token_answer u w) = Ok (JDict fields) ->
  dict_get "access_token" fields = Some tok ->
  subtract match dict_get "expires_in" fields with
           | Some v => v
           | None => JInt 300
           end 60 = Ok difference ->
  as_float difference = Ok lifetime ->
  get_admin_token' (u, w)
  = (Ok tt,
     (set_authorization ("Bearer " ++ format_value repr tok)
        (set_token_expires_at (clock (n_clock w) + lifetime)
           (set_admin_token tok u)),
      tick (next_request w)),
     [token_exchange u w]).
Proof.
  intros H200 Hjson Htok Hdiff Hlife.
  unfold get_admin_token, bind, token_request.
  cbn [fst snd]. fold (request_of u POST token_url "auth/get_admin_token"
         (FormData [ ("grant_type", "password"); ("client_id", "admin-cli");
                     ("username", "admin"); ("password", "admin") ])).
  change (token_endpoint (n_requests w) _) with (token_answer u w).
  rewrite H200, Hjson. cbn [Z.eqb Pos.eqb lift ret subscript_key get_or].
  rewrite Htok. cbn [lift ret update_self fst snd time_time]. rewrite Hdiff.
  cbn [lift ret fst snd]. rewrite Hlife. reflexivity.
Qed.

(** The same fetch with a lifetime too large for a float raises in the
    sum: the token is stored, the expiry and the header are not. *)
Lemma get_admin_token_overflow u w fields tok difference :
  token_status (token_answer u w) = 200%Z ->
  token_json (token_answer u w) = Ok (JDict fields) ->
  dict_get "access_token" fields = Some tok ->
  subtract match dict_get "expires_in" fields with
           | Some v => v
           | None => JInt 300
           end 60 = Ok difference ->
  as_float difference = Raise OverflowError ->
  get_admin_token' (u, w)
  = (Raise OverflowError, (set_admin_token tok u, tick (next_request w)),
     [token_exchange u w]).
Proof.
  intros H200 Hjson Htok Hdiff Hlife.
  unfold get_admin_token, bind, token_request.
  cbn [fst snd]. fold (request_of u POST token_url "auth/get_admin_token"
         (FormData [ ("grant_type", "password"); ("client_id", "admin-cli");
                     ("username", "admin"); ("password", "admin") ])).
  change (token_endpoint (n_requests w) _) with (token_answer u w).
  rewrite H200, Hjson. cbn [Z.eqb Pos.eqb lift ret subscript_key get_or].
  rewrite Htok. cbn [lift ret update_self fst snd time_time]. rewrite Hdiff.
  cbn [lift ret fst snd]. rewrite Hlife. reflexivity.
Qed.

(** [on_start] fetches the token once, first; the creation of the realm
    follows when the fetch returns, and nothing follows when it raises. *)
Lemma on_start_fetches_once st0 :
  exists fetch rest,
    exchanges (on_start' st0) = fetch :: rest
    /\ is_token_fetch fetch = true
    /\ ((exists post, rest = [post] /\ is_token_fetch post = false
                      /\ outcome (on_start' st0) = Ok tt)
        \/ (rest = [] /\ exists e, outcome (on_start' st0) = Raise e)).
Proof.
  destruct st0 as [u0 w0].
  change (wp on_start' (u0, w0) (fun r _ es =>
    exists fetch rest, es = fetch :: rest /\ is_token_fetch fetch = true
      /\ ((exists post, rest = [post] /\ is_token_fetch post = false /\ r = Ok tt)
          \/ (rest = [] /\ exists e, r = Raise e)))).
  unfold on_start, create_test_realm.
  wp_step. wp_step. wp_step. wp_step. wp_step.
  apply wp_get_admin_token. intros [[] | e] u' w' _ _.
  - cbv beta iota zeta. repeat wp_step.
    all: eexists _, _; split; [reflexivity |]; split; [reflexivity |]; left;
      eexists; repeat split; reflexivity.
  - eexists _, _. split; [reflexivity |]. split; [reflexivity |]. right.
    split; [reflexivity | now exists e].
Qed.



(** *** Full-replace updates *)

Lemma dict_keys_set {V} key k (v : V) d :
  In key (dict_keys d) -> In key (dict_keys (dict_set k v d)).
Proof.
  unfold dict_keys. induction d as [| [k' v'] d IH]; [intros [] |].
  cbn [dict_set]. destruct (String.eqb k k'); cbn [map fst In]; [tauto |].
  intros [H | H]; [now left | right; now apply IH].
Qed.

Lemma dict_get_set_other {V} key k (v : V) d :
  key <> k -> dict_get key (dict_set k v d) = dict_get key d.
Proof.
  intros Hne. induction d as [| [k' v'] d IH]; cbn [dict_set dict_get].
  - destruct (String.eqb key k) eqn:E; [apply String.eqb_eq in E; contradiction |].
    reflexivity.
  - destruct (String.eqb k k') eqn:E; cbn [dict_get]; [| now rewrite IH].
    apply String.eqb_eq in E. subst k'.
    destruct (String.eqb key k) eqn:E'; [apply String.eqb_eq in E'; contradiction |].
    reflexivity.
Qed.

(** The request [put] merges what was read just before it: [pre], the
    exchanges before it, ends with a [GET] of the same resource that was
    answered 200 with a JSON object; the body of [put] is a JSON object with
    every key of that object, and under every key but [updated] it has the
    value read. *)
Definition merged_from (updated : string) (pre : list exchange) (put : exchange)
  : Prop :=
  exists pre' got answer fields_read fields_written,
    pre = (pre' ++ [got])%list
    /\ method (sent got) = GET
    /\ url (sent got) = url (sent put)
    /\ received got = FromAdminApi answer
    /\ status_code answer = 200%Z
    /\ json_body answer = Ok (JDict fields_read)
    /\ payload (sent put) = JsonBody (JDict fields_written)
    /\ (forall key, In key (dict_keys fields_read) ->
                    In key (dict_keys fields_written))
    /\ (forall key, key <> updated ->
                    dict_get key fields_written = dict_get key fields_read).

(** Every [PUT] among the exchanges [es] merges what was read just before
    it. *)
Definition round_trip (updated : string) (es : list exchange) : Prop :=
  forall pre put post,
    es = (pre ++ put :: post)%list ->
    method (sent put) = PUT ->
    merged_from updated pre put.

Ltac split_at Hes :=
  repeat match type of Hes with
         | [] = (_ ++ _ :: _)%list => destruct (app_cons_not_nil _ _ _ Hes)
         | (_ :: _) = (?pre ++ _ :: _)%list =>
             destruct pre as [| ? ?]; cbn [app] in Hes;
             [ injection Hes as ? ?; subst | injection Hes as ? Hes; subst ]
         end.

Local Abbreviation update_realm_role' :=
  (update_realm_role clock randbelow token_endpoint admin_api repr).
Local Abbreviation update_group' :=
  (update_group clock randbelow token_endpoint admin_api repr).

Lemma update_realm_role_round_trip u w :
  round_trip "description" (exchanges (update_realm_role' (u, w))).
Proof.
  change (wp update_realm_role' (u, w) (fun _ _ es => round_trip "description" es)).
  unfold update_realm_role. repeat wp_step.
  all: intros pre put post Hes Hput; unfold token_part in Hes;
    destruct (expired u w); cbn [app] in Hes; split_at Hes;
    try discriminate Hput.
  all: unfold merged_from; (exists [] + eexists [_]); eexists _, _, _, _;
    (split; [reflexivity |]); (split; [reflexivity |]); (split; [reflexivity |]);
    (split; [reflexivity |]); (split; [apply Z.eqb_eq; eassumption |]);
    (split; [eassumption |]); (split; [reflexivity |]);
    split; intros key Hkey; [now apply dict_keys_set | now apply dict_get_set_other].
Qed.

Lemma dict_get_set_same {V} k (v : V) d : dict_get k (dict_set k v d) = Some v.
Proof.
  induction d as [| [k' v'] d IH]; cbn [dict_set dict_get].
  - now rewrite String.eqb_refl.
  - destruct (String.eqb k k') eqn:E; cbn [dict_get]; rewrite E; [reflexivity | exact IH].
Qed.

Lemma update_group_round_trip u w :
  round_trip "attributes" (exchanges (update_group' (u, w))).
Proof.
  change (wp update_group' (u, w) (fun _ _ es => round_trip "attributes" es)).
  unfold update_group. repeat wp_step.
  all: intros pre put post Hes Hput; unfold token_part in Hes;
    destruct (expired u w); cbn [app] in Hes; split_at Hes;
    try discriminate Hput.
  all: unfold merged_from; (exists [] + eexists [_]); eexists _, _, _, _;
    (split; [reflexivity |]); (split; [reflexivity |]); (split; [reflexivity |]);
    (split; [reflexivity |]); (split; [apply Z.eqb_eq; eassumption |]);
    (split; [eassumption |]); (split; [reflexivity |]);
    split; intros key Hkey.
  all: destruct (negb (dict_has "attributes" fields)).
  all: first [ repeat apply dict_keys_set; exact Hkey
             | rewrite !dict_get_set_other by exact Hkey; reflexivity ].
Qed.

(** C5.  In [update_realm_role] and [update_group], a [PUT] comes right
    after a [GET] of the same resource, and its body has every key of the
    object the [GET] returned (with the value read, under every key but the
    one the update writes). *)
Theorem full_replace_updates_round_trip (u : KeycloakUser) (w : world) :
  round_trip "description" (exchanges (update_realm_role' (u, w)))
  /\ round_trip "attributes" (exchanges (update_group' (u, w))).
Proof.
  split; [apply update_realm_role_round_trip | apply update_group_round_trip].
Qed.


(** *** The identifiers the requests name *)

(** [s] without its prefix [p], when it starts with [p]. *)
Fixpoint strip_prefix (p s : string) : option string :=
  match p with
  | EmptyString => Some s
  | String a p' =>
      match s with
      | EmptyString => None
      | String b s' => if Ascii.eqb a b then strip_prefix p' s' else None
      end
  end.

Lemma strip_prefix_common a p s :
  strip_prefix (a ++ p) (a ++ s) = strip_prefix p s.
Proof.
  induction a as [| c a IH]; [reflexivity |].
  cbn [append strip_prefix]. now rewrite Ascii.eqb_refl.
Qed.

Lemma strip_prefix_longer a c p : strip_prefix (a ++ String c p) a = None.
Proof.
  induction a as [| d a IH]; [reflexivity |].
  cbn [append strip_prefix]. now rewrite Ascii.eqb_refl.
Qed.

Lemma append_assoc' (a b c : string) : ((a ++ b) ++ c = a ++ (b ++ c))%string.
Proof. induction a as [| x a IH]; [reflexivity |]. cbn [append]. now rewrite IH. Qed.

(** The identifier a request names under the collection of [k], if its
    URL is that of a resource of the collection. *)
Definition named (realm : string) (k : kind) (e : exchange) : list string :=
  match strip_prefix (collection_url realm k ++ "/") (url (sent e)) with
  | Some id => [id]
  | None => []
  end.

Definition referenced (realm : string) (k : kind) (es : list exchange) : list string :=
  flat_map (named realm k) es.

Lemma referenced_app realm k a b :
  referenced realm k (a ++ b) = (referenced realm k a ++ referenced realm k b)%list.
Proof. apply flat_map_app. Qed.

Lemma collection_prefix realm k :
  collection_url realm k ++ "/" = realm_url realm ++ ("/" ++ segment k ++ "/").
Proof. unfold collection_url. now rewrite !append_assoc'. Qed.

Lemma named_under_realm realm k u w m rest name payload :
  named realm k (api_exchange u w m (realm_url realm ++ rest) name payload)
  = match strip_prefix ("/" ++ segment k ++ "/") rest with
    | Some id => [id]
    | None => []
    end.
Proof.
  unfold named. cbn [sent url api_exchange request_of].
  now rewrite collection_prefix, strip_prefix_common.
Qed.

Lemma named_resource realm k k' id u w m name payload :
  named realm k (api_exchange u w m (resource_url realm k' id) name payload)
  = if kind_eqb k k' then [id] else [].
Proof.
  unfold resource_url, collection_url. rewrite !append_assoc', named_under_realm.
  destruct k, k'; reflexivity.
Qed.

Lemma named_collection realm k k' u w m name payload :
  named realm k (api_exchange u w m (collection_url realm k') name payload) = [].
Proof.
  unfold collection_url. rewrite named_under_realm. destruct k, k'; reflexivity.
Qed.

Lemma named_realm realm k u w m name payload :
  named realm k (api_exchange u w m (realm_url realm) name payload) = [].
Proof.
  unfold named. cbn [sent url api_exchange request_of].
  rewrite collection_prefix.
  change ("/" ++ segment k ++ "/") with (String "/" (segment k ++ "/")).
  now rewrite strip_prefix_longer.
Qed.

Lemma named_client_scopes realm k u w m name payload :
  named realm k (api_exchange u w m (realm_url realm ++ "/client-scopes") name payload)
  = [].
Proof. rewrite named_under_realm. destruct k; reflexivity. Qed.

Lemma named_client_scope realm k id u w m name payload :
  named realm k
    (api_exchange u w m (realm_url realm ++ "/client-scopes/" ++ id) name payload)
  = [].
Proof. rewrite named_under_realm. destruct k; reflexivity. Qed.

Lemma named_token realm k u w : named realm k (token_exchange u w) = [].
Proof. destruct k; reflexivity. Qed.

Lemma referenced_token_part realm k u w : referenced realm k (token_part u w) = [].
Proof.
  unfold token_part. destruct (expired u w); [| reflexivity].
  cbn [referenced flat_map]. now rewrite named_token.
Qed.


Lemma choice_at_In {A} r (l : list A) x : choice_at r l = Some x -> In x l.
Proof. unfold choice_at. apply nth_error_In. Qed.

Lemma last_In (l : list string) : (1 <? List.length l)%nat = true -> In (last l "") l.
Proof.
  intros Hlen. destruct l as [| a l]; [discriminate |].
  destruct (exists_last (l := a :: l)) as (l' & x & ->); [discriminate |].
  rewrite last_last. apply in_or_app. right. now left.
Qed.

Ltac use_kept :=
  match goal with
  | H : kept ?u ?u' _ _ |- _ =>
      let Htracked := fresh "Htracked" in
      pose proof (fun k => kept_tracked _ _ _ _ k H) as Htracked;
      rewrite ?Htracked in *;
      let Hrealm := fresh "Hrealm" in
      let Hrandom := fresh "Hrandom" in
      destruct H as (_ & Hrealm & Hrandom); rewrite ?Hrealm, ?Hrandom in *
  end.

Ltac simpl_named :=
  rewrite ?referenced_app, ?referenced_token_part;
  cbn [app referenced flat_map];
  rewrite ?named_resource, ?named_collection, ?named_realm, ?named_client_scopes,
    ?named_client_scope;
  cbn [app].

(** Whatever a task requests under one of the four collections, it
    requests for an identifier the session tracks when the task starts. *)
Lemma task_names_tracked t u w k :
  Forall (fun id => In id (tracked k u))
    (referenced (test_realm_name u) k (exchanges (run_task' t (u, w)))).
Proof.
  revert k.
  change (wp (run_task' t) (u, w) (fun _ _ es => forall k,
            Forall (fun id => In id (tracked k u))
              (referenced (test_realm_name u) k es))).
  destruct t; unfold_task; unfold pop; repeat wp_step.
  all: intros k; use_kept; simpl_named.
  all: destruct k; cbn [kind_eqb app]; repeat constructor.
  all: first [ eapply choice_at_In; eassumption | apply last_In; assumption ].
Qed.


(** *** Where tracked identifiers come from *)

(** The identifier a creation request stands for: the name it sent, for a
    role; the last segment of the [Location] it was answered with, for the
    other types. *)
Definition created_id (k : kind) (e : exchange) : option string :=
  match k with
  | Roles =>
      match payload (sent e) with
      | JsonBody (JDict fields) =>
          match dict_get "name" fields with
          | Some (JStr name) => Some name
          | _ => None
          end
      | _ => None
      end
  | _ =>
      match received e with
      | FromAdminApi r =>
          if String.eqb (location r) "" then None
          else Some (last_segment (location r))
      | FromTokenEndpoint _ => None
      end
  end.

(** The exchange [e] confirms that [id] was created in the collection of
    [k]: a [POST] to the collection, answered 201, for that identifier. *)
Definition confirms (realm : string) (k : kind) (e : exchange) (id : string) : Prop :=
  method (sent e) = POST
  /\ url (sent e) = collection_url realm k
  /\ received_status e = 201%Z
  /\ created_id k e = Some id.

Lemma kind_eqb_eq a b : kind_eqb a b = true -> a = b.
Proof. destruct a, b; (reflexivity || discriminate). Qed.

Lemma In_removelast (l : list string) x : In x (removelast l) -> In x l.
Proof.
  induction l as [| a [| b l] IH]; [intros [] | intros [] |].
  intros [<- | H]; [now left | right; now apply IH].
Qed.

(** An identifier tracked after a task was tracked before it, or one of
    the task's exchanges confirms its creation. *)
Lemma task_tracks_confirmed t u w k id :
  In id (tracked k (user_after (run_task' t (u, w)))) ->
  In id (tracked k u)
  \/ exists e, In e (exchanges (run_task' t (u, w)))
               /\ confirms (test_realm_name u) k e id.
Proof.
  revert k id.
  change (wp (run_task' t) (u, w) (fun _ st es => forall k id,
            In id (tracked k (fst st)) ->
            In id (tracked k u)
            \/ exists e, In e es /\ confirms (test_realm_name u) k e id)).
  destruct t; unfold_task; unfold pop; repeat wp_step.
  all: intros k id Hin; cbn [fst] in Hin; rewrite ?tracked_set_tracked in Hin;
    use_kept.
  all: try (left; exact Hin).
  all: match type of Hin with
       | context [kind_eqb ?a ?b] => destruct (kind_eqb a b) eqn:Hk
       end; try (left; exact Hin);
    apply kind_eqb_eq in Hk; subst k.
  all: try (left; now apply In_removelast).
  all: apply in_app_or in Hin; destruct Hin as [Hin | [<- | []]]; [now left | right].
  all: match goal with
       | |- context [api_exchange ?a ?b POST ?c ?d ?p] =>
           exists (api_exchange a b POST c d p)
       end.
  all: split;
    [ apply in_or_app; right; cbn [app]; left; reflexivity
    | split; [reflexivity |]; split; [reflexivity |];
      split; [now apply Z.eqb_eq |];
      cbn [created_id received api_exchange sent payload request_of dict_get];
      try reflexivity ].
  all: match goal with
       | H : negb (String.eqb ?l "") = true |- _ =>
           apply negb_true_iff in H; rewrite H; reflexivity
       end.
Qed.


(** *** How updates and deletions pick their identifier *)

Definition update_task (k : kind) : M unit :=
  match k with
  | Users => update_user clock uuid4_hex randbelow token_endpoint admin_api repr
  | Clients => update_client clock randbelow token_endpoint admin_api repr
  | Roles => update_realm_role'
  | Groups => update_group'
  end.

Lemma choice_at_nonempty {A} r (l : list A) : l <> [] -> choice_at r l <> None.
Proof.
  intros Hl H. unfold choice_at in H. apply nth_error_None in H.
  assert (List.length l <> 0)%nat by (destruct l; [contradiction | discriminate]).
  pose proof (Nat.mod_upper_bound r (List.length l)). lia.
Qed.

(** An update of a tracked type, when its token check returns, names the
    identifier [random.choice] draws among the tracked ones, and no
    other. *)
Lemma update_names_choice k u w :
  tracked k u <> [] ->
  outcome (ensure_valid_token' (u, w)) = Ok tt ->
  exists id more,
    choice_at (randbelow (n_random w) (List.length (tracked k u))) (tracked k u)
      = Some id
    /\ referenced (test_realm_name u) k (exchanges (update_task k (u, w)))
       = id :: more
    /\ Forall (eq id) more.
Proof.
  change (wp (update_task k) (u, w) (fun _ _ es =>
    tracked k u <> [] ->
    outcome (ensure_valid_token' (u, w)) = Ok tt ->
    exists id more,
      choice_at (randbelow (n_random w) (List.length (tracked k u))) (tracked k u)
        = Some id
      /\ referenced (test_realm_name u) k es = id :: more
      /\ Forall (eq id) more)).
  destruct k; unfold update_task; unfold_task; repeat wp_step.
  all: intros Hne Hok; try check_returns; use_kept.
  all: try (destruct (tracked _ u); [contradiction | discriminate]).
  all: try (exfalso; eapply choice_at_nonempty; eassumption).
  all: eexists _, _; split; [eassumption |]; simpl_named; cbn [kind_eqb app];
    split; [reflexivity | repeat constructor].
Qed.

(** A deletion of a tracked type names the last tracked identifier when
    its token check returns and two or more are tracked, and nothing
    otherwise. *)
Lemma delete_names_last k u w :
  referenced (test_realm_name u) k (exchanges (delete_task k (u, w)))
  = match outcome (ensure_valid_token' (u, w)) with
    | Ok _ =>
        if (1 <? List.length (tracked k u))%nat then [last (tracked k u) ""] else []
    | Raise _ => []
    end.
Proof.
  destruct (delete_task_unfold k) as [name ->].
  destruct (delete_tracked_spec k name u w) as (r & u' & w' & Hk & [<- _] & ->).
  destruct r as [[] | e];
    [destruct (1 <? List.length (tracked k u))%nat |];
    unfold exchanges; cbn [snd]; simpl_named; try reflexivity.
  destruct k; reflexivity.
Qed.

(** [on_start] tracks no user, client, role or group. *)
Lemma on_start_tracks_nothing st0 k : tracked k (user_after (on_start' st0)) = [].
Proof.
  destruct st0 as [u0 w0].
  change (wp on_start' (u0, w0) (fun _ st _ => tracked k (fst st) = [])).
  unfold on_start, create_test_realm.
  wp_step. wp_step. wp_step. wp_step. wp_step.
  apply wp_get_admin_token. intros [[] | e] u' w' Hk _;
    pose proof (kept_tracked _ _ _ _ k Hk) as Htr;
    cbv beta iota zeta; repeat wp_step.
  all: cbn [fst]; unfold set_realms; destruct k; exact Htr.
Qed.

Lemma run_tasks_track_confirmed ts st k id :
  In id (tracked k (fst (fst (run_tasks' ts st)))) ->
  In id (tracked k (fst st))
  \/ exists e, In e (snd (run_tasks' ts st))
               /\ confirms (test_realm_name (fst st)) k e id.
Proof.
  revert st. induction ts as [| t ts IH]; intros [u w]; [now left |].
  cbn [run_tasks].
  pose proof (task_tracks_confirmed t u w k id) as Hstep.
  pose proof (task_keeps_realm t u w) as [Hrealm _].
  unfold user_after, exchanges in Hstep, Hrealm.
  destruct (run_task' t (u, w)) as [[r st1] es1]. cbn [fst snd] in *.
  specialize (IH st1). destruct (run_tasks' ts st1) as [st2 es2]. cbn [fst snd] in *.
  intros Hin. destruct (IH Hin) as [Hin1 | (e & He & Hconf)].
  - destruct (Hstep Hin1) as [Hin0 | (e & He & Hconf)]; [now left | right].
    exists e. split; [apply in_or_app; now left | exact Hconf].
  - right. exists e. split; [apply in_or_app; now right |].
    now rewrite <- Hrealm.
Qed.


(** C2, as the code has it.  In any session ([on_start], then any tasks):
    every tracked identifier comes from a creation request that was answered
    201; whatever the next task requests under one of the four collections,
    it requests for an identifier tracked at that moment; an update whose
    token check returns names the identifier [random.choice] draws among the
    tracked ones; a deletion takes no draw: when its token check returns it
    names the last tracked identifier if two or more are tracked, and
    nothing otherwise.  A deletion whose token check raises names
    nothing. *)
Theorem tracked_identifiers (st0 : state) (ts : list task) :
  let start := on_start' st0 in
  let run := run_tasks' ts (state_after start) in
  let u := fst (fst run) in
  let w := snd (fst run) in
  let realm := test_realm_name u in
  (forall k id,
      In id (tracked k u) ->
      exists e, In e (exchanges start ++ snd run)%list /\ confirms realm k e id)
  /\ (forall t k,
        Forall (fun id => In id (tracked k u))
          (referenced realm k (exchanges (run_task' t (u, w)))))
  /\ (forall k,
        tracked k u <> [] ->
        outcome (ensure_valid_token' (u, w)) = Ok tt ->
        exists id more,
          choice_at (randbelow (n_random w) (List.length (tracked k u))) (tracked k u)
            = Some id
          /\ referenced realm k (exchanges (update_task k (u, w))) = id :: more
          /\ Forall (eq id) more)
  /\ (forall k,
        referenced realm k (exchanges (delete_task k (u, w)))
        = match outcome (ensure_valid_token' (u, w)) with
          | Ok _ =>
              if (1 <? List.length (tracked k u))%nat
              then [last (tracked k u) ""] else []
          | Raise _ => []
          end).
Proof.
  cbv zeta. split; [| split; [| split]].
  - intros k id Hin.
    destruct (run_tasks_track_confirmed ts _ k id Hin) as [Hin0 | (e & He & Hconf)].
    + unfold state_after in Hin0.
      change (fst (snd (fst (on_start' st0)))) with (user_after (on_start' st0)) in Hin0.
      rewrite on_start_tracks_nothing in Hin0. destruct Hin0.
    + exists e. split; [apply in_or_app; now right |].
      now rewrite (proj1 (run_tasks_keep_realm ts _)).
  - intros t k. destruct (fst (run_tasks' ts _)) as [u w]. apply task_names_tracked.
  - intros k. destruct (fst (run_tasks' ts _)) as [u w]. apply update_names_choice.
  - intros k. destruct (fst (run_tasks' ts _)) as [u w]. apply delete_names_last.
Qed.

End Session.

(** *** A concrete environment *)

(** A clock that starts at 1000 and advances by a second at each reading,
    a source of identifiers, a server that grants every token for five
    minutes, answers every [POST] with 201 and a [Location], and every
    other request with 200 and a JSON document: a list of one scope for the
    client scopes, an object for the rest. *)
Definition clock0 (n : nat) : Q := inject_Z (1000 + Z.of_nat n).

Definition uuid0 (n : nat) : string := "0123456789abcdef0123456789abcdef".

Definition token0 (n : nat) (req : request) : token_response :=
  {| token_status := 200;
     token_json := Ok (JDict [ ("access_token", JStr "secret");
                               ("expires_in", JInt 300) ]) |}.

(** A token endpoint that grants its tokens for one minute, so that every
    operation fetches one, and that from its seventh request on answers
    with status 200 and a body that is not JSON. *)
Definition token1 (n : nat) (req : request) : token_response :=
  {| token_status := 200;
     token_json := if (n <? 6)%nat
                   then Ok (JDict [ ("access_token", JStr "secret");
                                    ("expires_in", JInt 60) ])
                   else Raise JSONDecodeError |}.

Definition api0 (n : nat) (req : request) : response :=
  {| status_code := match method req with POST => 201 | _ => 200 end;
     location := url req ++ "/id" ++ str_int (Z.of_nat n);
     json_body :=
       if contains "/client-scopes" (url req)
       then Ok (JList [ JDict [ ("id", JStr "scope-1");
                                ("name", JStr "test-scope-0a1b") ] ])
       else Ok (JDict [ ("id", JStr "0a1b"); ("name", JStr "test-role-0a1b") ]) |}.

Definition repr0 (j : json) : string := "".

(** The generator that always draws [r]. *)
Definition draws (r : nat) (n bound : nat) : nat := r.

(** The session after [on_start] and two creations of a user. *)
Definition two_users (r : nat) : state :=
  fst (session clock0 uuid0 (draws r) token0 api0 repr0 [CreateUser; CreateUser]).

(** The same session against the endpoint with the short-lived tokens: its
    next request is the seventh. *)
Definition two_users_later : state :=
  fst (session clock0 uuid0 (draws 0) token1 api0 repr0 [CreateUser; CreateUser]).

(** The session after [on_start] and the creation of a role. *)
Definition one_role : state :=
  fst (session clock0 uuid0 (draws 0) token0 api0 repr0 [CreateRealmRole]).

Lemma delete_keeps_one_witness :
  let u := fst (two_users 0) in
  let run := delete_task clock0 token0 api0 repr0 Users (u, snd (two_users 0)) in
  tracked Users u = (tracked Users (user_after run) ++ [last (tracked Users u) ""])%list
  /\ (1 <= List.length (tracked Users (user_after run)))%nat
  /\ exists e, filter is_delete (exchanges run) = [e]
               /\ url (sent e)
                  = resource_url (test_realm_name u) Users (last (tracked Users u) "").
Proof.
  apply (proj1 (delete_keeps_one clock0 uuid0 token0 api0 repr0 Users
                  (fst (two_users 0)) (snd (two_users 0)))).
  - reflexivity.
  - vm_compute. apply le_n.
Defined.

(** C4, as the spec words it, fails when the token check raises: with two
    users tracked, [delete_user] finds the token expired, the endpoint
    answers the fetch with status 200 and a body that is not JSON, and the
    task raises: it removes no identifier and sends no [DELETE]. *)
Lemma delete_raises_and_removes_nothing :
  tracked Users (fst two_users_later) = ["id3"; "id5"]
  /\ outcome (delete_user clock0 token1 api0 repr0 two_users_later)
     = Raise JSONDecodeError
  /\ tracked Users (user_after (delete_user clock0 token1 api0 repr0 two_users_later))
     = ["id3"; "id5"]
  /\ filter is_delete (exchanges (delete_user clock0 token1 api0 repr0 two_users_later))
     = []
  /\ map received_status
       (exchanges (delete_user clock0 token1 api0 repr0 two_users_later))
     = [200%Z].
Proof. vm_compute. repeat split; reflexivity. Qed.

(** C10, as the spec words it, fails for the same reason: the creation of
    the realm was answered 201, and [on_stop], whose token check raises,
    sends no [DELETE]. *)
Lemma created_realm_is_not_deleted :
  map received_status
    (filter realm_post
       (exchanges (on_start clock0 uuid0 token1 api0 repr0 (new_user, new_world))))
  = [201%Z]
  /\ In (test_realm_name (fst two_users_later))
        (realms (created_resources (fst two_users_later)))
  /\ outcome (on_stop clock0 token1 api0 repr0 two_users_later)
     = Raise JSONDecodeError
  /\ filter is_delete (exchanges (on_stop clock0 token1 api0 repr0 two_users_later))
     = [].
Proof. vm_compute. repeat split; try reflexivity. left. reflexivity. Qed.


Lemma full_replace_updates_round_trip_witness :
  let es := exchanges (update_realm_role clock0 (draws 0) token0 api0 repr0 one_role) in
  merged_from "description" (firstn 1 es)
    (nth 1 es (token_exchange token0 new_user new_world)).
Proof.
  exact (proj1 (full_replace_updates_round_trip clock0 (draws 0) token0 api0 repr0
                  (fst one_role) (snd one_role))
           (firstn 1 (exchanges (update_realm_role clock0 (draws 0) token0 api0 repr0
                                   one_role)))
           (nth 1 (exchanges (update_realm_role clock0 (draws 0) token0 api0 repr0
                                one_role))
                (token_exchange token0 new_user new_world))
           [] eq_refl eq_refl).
Defined.

(** C2, as the spec words it, fails on deletions: with two users tracked,
    the draw 0 would have [random.choice] take the first; [delete_user]
    names the second, whatever the generator would draw, and draws
    nothing.  And [delete_client_scope] deletes a scope the server listed:
    its identifier is in none of the session's lists. *)
Lemma delete_user_is_not_a_random_choice :
  tracked Users (fst (two_users 0)) = ["id2"; "id3"]
  /\ choice_at (draws 0 0 2) ["id2"; "id3"] = Some "id2"
  /\ referenced (test_realm_name (fst (two_users 0))) Users
       (exchanges (delete_user clock0 token0 api0 repr0 (two_users 0))) = ["id3"]
  /\ n_random (snd (state_after (delete_user clock0 token0 api0 repr0 (two_users 0))))
     = n_random (snd (two_users 0))
  /\ choice_at (draws 1 0 2) ["id2"; "id3"] = Some "id3"
  /\ referenced (test_realm_name (fst (two_users 1))) Users
       (exchanges (delete_user clock0 token0 api0 repr0 (two_users 1))) = ["id3"]
  /\ map (fun e => url (sent e))
       (filter is_delete
          (exchanges (delete_client_scope clock0 (draws 0) token0 api0 repr0
                        (two_users 0))))
     = [ "/admin/realms/test-realm-01234567/client-scopes/scope-1" ]
  /\ map (fun k => tracked k (fst (two_users 0))) [Users; Clients; Roles; Groups]
     = [ ["id2"; "id3"]; []; []; [] ].
Proof. vm_compute. repeat split; reflexivity. Qed.

End LocustfileProps.

(** ** performance_monitor.py *)

Module PerformanceMonitor.

(** One row of the table of system metrics, with the columns the report
    and the analysis read.  The cells are the exact values of the numbers
    psutil gave: rationals for percentages and load averages, integers for
    the cumulative byte counters. *)
Record sample : Type := {
  timestamp : Q;
  cpu_percent : Q;
  cpu_count : Z;
  load_1min : Q;
  load_5min : Q;
  load_15min : Q;
  memory_used : Z;
  memory_percent : Q;
  disk_read_bytes : Z;
  disk_write_bytes : Z;
  net_bytes_sent : Z;
  net_bytes_recv : Z
}.

(** A cell of a computed column: [None] is NaN. *)
Definition cell : Type := option Q.

(** [x > y] on floats, as a boolean. *)
Definition Qgt_bool (x y : Q) : bool := negb (Qle_bool x y).

(** A comparison with NaN is false. *)
Definition cell_gt (c : cell) (threshold : Q) : bool :=
  match c with
  | Some x => Qgt_bool x threshold
  | None => false
  end.

(** [column.diff()]: NaN for the first row, then each value minus the one
    before it. *)
Fixpoint diff_from (previous : Z) (column : list Z) : list cell :=
  match column with
  | [] => []
  | x :: rest => Some (inject_Z (x - previous)) :: diff_from x rest
  end.

Definition diff (column : list Z) : list cell :=
  match column with
  | [] => []
  | x :: rest => None :: diff_from x rest
  end.

(** [column / d], cell by cell. *)
Definition div_by (d : Q) (column : list cell) : list cell :=
  map (option_map (fun x => x / d)) column.

Definition sum (xs : list Q) : Q := fold_right Qplus 0 xs.

(** [column.mean()] and [column.max()] on a column without NaN; NaN on an
    empty one. *)
Definition mean (xs : list Q) : cell :=
  match xs with
  | [] => None
  | _ => Some (sum xs / inject_Z (Z.of_nat (List.length xs)))
  end.

Definition Qmax (x y : Q) : Q := if Qle_bool x y then y else x.

Definition max (xs : list Q) : cell :=
  match xs with
  | [] => None
  | x :: rest => Some (fold_left Qmax rest x)
  end.

(** The cells of a column that are not NaN. *)
Fixpoint dropna (column : list cell) : list Q :=
  match column with
  | [] => []
  | Some x :: rest => x :: dropna rest
  | None :: rest => dropna rest
  end.

(** [column.mean()] skips NaN. *)
Definition mean_skipna (column : list cell) : cell := mean (dropna column).

(** [(condition).sum()]: the number of rows that meet a condition. *)
Definition count_where (p : sample -> bool) (df : list sample) : Z :=
  Z.of_nat (List.length (filter p df)).

(** Arithmetic that NaN goes through. *)
Definition cell_add (a b : cell) : cell :=
  match a, b with
  | Some x, Some y => Some (x + y)
  | _, _ => None
  end.

Definition cell_div (a : cell) (d : Q) : cell := option_map (fun x => x / d) a.

(** [os.path.join(a, b)]. *)
Definition path_join (a b : string) : string :=
  if startswith "/" b then b
  else if orb (String.eqb a "") (String.eqb (String.substring (String.length a - 1) 1 a) "/")
       then a ++ b
       else a ++ "/" ++ b.

Definition MB : Q := inject_Z (1024 * 1024).

(** *** Floating point: [len(system_df) * 0.1]

    [0.1] is not a binary fraction: the float of that name is
    [tenth_mantissa / 2^55].  The product of an integer with it is rounded
    to the nearest float, ties to even, that is to 53 significant bits. *)
Definition tenth_mantissa : Z := 3602879701896397.

(** The nearest integer with at most 53 significant bits, ties to even. *)
Definition round53 (m : Z) : Z :=
  (let s := Z.log2 m + 1 - 53 in
   if s <=? 0 then m
   else
     let q := m / 2 ^ s in
     let r := m mod 2 ^ s in
     let half := 2 ^ (s - 1) in
     let q' := if r <? half then q
               else if half <? r then q + 1
               else if Z.even q then q else q + 1 in
     q' * 2 ^ s)%Z.

(** [n * 0.1] for a row count [n]. *)
Definition times_tenth (n : Z) : Q :=
  Qmake (round53 (n * tenth_mantissa)) (2 ^ 55).

Section Reports.

(** Python's text for floats: [format_fixed d] is [{:.df}] and takes NaN;
    [str_float] is [str]. *)
Variable format_fixed : nat -> cell -> string.
Variable str_float : Q -> string.

(** What the report draws. *)
Record line : Type := {
  label : string;
  xs : list Q;
  ys : list cell
}.

Record panel : Type := {
  title : string;
  ylabel : string;
  lines : list line
}.

Record report : Type := {
  panels : list panel;
  stats_text : list string;
  plot_path : string;
  csv_path : string
}.

Definition column {A} (f : sample -> A) (df : list sample) : list A := map f df.

Definition plain (xs : list Q) : list cell := map Some xs.

(** [create_performance_report(test_name, system_df)], on a table as the
    collector built it: a table without rows has no columns either. *)
Definition create_performance_report (output_dir test_name : string)
    (system_df : list sample) : result report :=
  match system_df with
  | [] => Raise (KeyError "timestamp")
  | first :: _ =>
      let final := last system_df first in
      let t := column timestamp system_df in
      (* CPU usage *)
      let cpu := {| title := "CPU Usage (%)"; ylabel := "CPU %";
                    lines := [ {| label := ""; xs := t;
                                  ys := plain (column cpu_percent system_df) |} ] |} in
      (* memory usage *)
      let memory_gb :=
        map (fun x => inject_Z x / inject_Z (1024 ^ 3)) (column memory_used system_df) in
      let memory := {| title := "Memory Usage (GB)"; ylabel := "Memory (GB)";
                       lines := [ {| label := ""; xs := t; ys := plain memory_gb |} ] |} in
      (* load average *)
      let load :=
        {| title := "System Load Average"; ylabel := "Load";
           lines := [ {| label := "1min"; xs := t;
                         ys := plain (column load_1min system_df) |};
                      {| label := "5min"; xs := t;
                         ys := plain (column load_5min system_df) |};
                      {| label := "15min"; xs := t;
                         ys := plain (column load_15min system_df) |} ] |} in
      (* network I/O *)
      let net_sent_mb := div_by MB (diff (column net_bytes_sent system_df)) in
      let net_recv_mb := div_by MB (diff (column net_bytes_recv system_df)) in
      let network :=
        {| title := "Network I/O Rate (MB/s)"; ylabel := "MB/s";
           lines := [ {| label := "Sent"; xs := t; ys := net_sent_mb |};
                      {| label := "Received"; xs := t; ys := net_recv_mb |} ] |} in
      (* disk I/O *)
      let disk_read_mb := div_by MB (diff (column disk_read_bytes system_df)) in
      let disk_write_mb := div_by MB (diff (column disk_write_bytes system_df)) in
      let disk :=
        {| title := "Disk I/O Rate (MB/s)"; ylabel := "MB/s";
           lines := [ {| label := "Read"; xs := t; ys := disk_read_mb |};
                      {| label := "Write"; xs := t; ys := disk_write_mb |} ] |} in
      (* summary *)
      let total (f : sample -> Z) : cell := Some (inject_Z (f final - f first) / MB) in
      let stats :=
        [ "CPU Usage:";
          "  Mean: " ++ format_fixed 1 (mean (column cpu_percent system_df)) ++ "%";
          "  Max: " ++ format_fixed 1 (max (column cpu_percent system_df)) ++ "%";
          "Memory Usage:";
          "  Mean: " ++ format_fixed 1 (mean (column memory_percent system_df)) ++ "%";
          "  Max: " ++ format_fixed 1 (max (column memory_percent system_df)) ++ "%";
          "Load Average (1min):";
          "  Mean: " ++ format_fixed 2 (mean (column load_1min system_df));
          "  Max: " ++ format_fixed 2 (max (column load_1min system_df));
          "Network I/O:";
          "  Total Sent: " ++ format_fixed 1 (total net_bytes_sent) ++ " MB";
          "  Total Recv: " ++ format_fixed 1 (total net_bytes_recv) ++ " MB" ] in
      Ok {| panels := [cpu; memory; load; network; disk];
            stats_text := stats;
            plot_path := path_join output_dir (test_name ++ "_performance_report.png");
            csv_path := path_join output_dir (test_name ++ "_system_metrics.csv") |}
  end.

(** [analyze_bottlenecks(system_df, test_name)]: the findings, the path of
    the analysis file, and the lines written to it. *)
Definition analyze_bottlenecks (output_dir : string) (system_df : list sample)
    (test_name : string) : result (list string * string * list string) :=
  match system_df with
  | [] => Raise (KeyError "cpu_percent")
  | first :: _ =>
      (* CPU *)
      let high_cpu_threshold := 80%Z in
      let cpu_high_time :=
        count_where (fun s => Qgt_bool (cpu_percent s) (inject_Z high_cpu_threshold))
          system_df in
      let cpu_finding :=
        if Qgt_bool (inject_Z cpu_high_time)
             (times_tenth (Z.of_nat (List.length system_df)))
        then [ "CPU: High CPU usage (>" ++ str_int high_cpu_threshold
               ++ "%) detected for " ++ str_int cpu_high_time ++ " measurements" ]
        else [] in
      (* memory *)
      let high_memory_threshold := 85%Z in
      let memory_high_time :=
        count_where (fun s => Qgt_bool (memory_percent s) (inject_Z high_memory_threshold))
          system_df in
      let memory_finding :=
        if (0 <? memory_high_time)%Z
        then [ "Memory: High memory usage (>" ++ str_int high_memory_threshold
               ++ "%) detected for " ++ str_int memory_high_time ++ " measurements" ]
        else [] in
      (* load average *)
      let cpu_count := cpu_count first in
      let limit := inject_Z cpu_count * (3 # 2) in
      let high_load_time :=
        count_where (fun s => Qgt_bool (load_1min s) limit) system_df in
      let load_finding :=
        if (0 <? high_load_time)%Z
        then [ "Load: System overload detected (load > " ++ str_float limit
               ++ ") for " ++ str_int high_load_time ++ " measurements" ]
        else [] in
      (* disk I/O *)
      let disk_read_rate :=
        cell_div (mean_skipna (diff (column disk_read_bytes system_df))) MB in
      let disk_write_rate :=
        cell_div (mean_skipna (diff (column disk_write_bytes system_df))) MB in
      let disk_finding :=
        if orb (cell_gt disk_read_rate 100) (cell_gt disk_write_rate 100)
        then [ "Disk I/O: High disk activity detected (Read: "
               ++ format_fixed 1 disk_read_rate ++ " MB/s, Write: "
               ++ format_fixed 1 disk_write_rate ++ " MB/s)" ]
        else [] in
      (* network *)
      let net_rate :=
        cell_div (cell_add (mean_skipna (diff (column net_bytes_sent system_df)))
                           (mean_skipna (diff (column net_bytes_recv system_df)))) MB in
      let network_finding :=
        if cell_gt net_rate 100
        then [ "Network: High network activity detected ("
               ++ format_fixed 1 net_rate ++ " MB/s combined)" ]
        else [] in
      let bottlenecks :=
        (cpu_finding ++ memory_finding ++ load_finding ++ disk_finding
           ++ network_finding)%list in
      (* the analysis file *)
      let analysis_path :=
        path_join output_dir (test_name ++ "_bottleneck_analysis.txt") in
      let numbered :=
        map (fun ib => str_int (Z.of_nat (fst ib)) ++ ". " ++ snd ib)
          (combine (seq 1 (List.length bottlenecks)) bottlenecks) in
      let heading :=
        [ "Bottleneck Analysis for " ++ test_name; repeat_str "=" 50; "" ] in
      let findings :=
        match bottlenecks with
        | [] => [ "No significant bottlenecks detected." ]
        | _ => "Potential Bottlenecks Detected:" :: numbered
        end in
      let summary :=
        [ ""; "Performance Metrics Summary:";
          "Average CPU Usage: "
            ++ format_fixed 2 (mean (column cpu_percent system_df)) ++ "%";
          "Peak CPU Usage: "
            ++ format_fixed 2 (max (column cpu_percent system_df)) ++ "%";
          "Average Memory Usage: "
            ++ format_fixed 2 (mean (column memory_percent system_df)) ++ "%";
          "Peak Memory Usage: "
            ++ format_fixed 2 (max (column memory_percent system_df)) ++ "%";
          "Average Load (1min): "
            ++ format_fixed 2 (mean (column load_1min system_df));
          "Peak Load (1min): "
            ++ format_fixed 2 (max (column load_1min system_df)) ] in
      let written := (heading ++ findings ++ summary)%list in
      Ok (bottlenecks, analysis_path, written)
  end.

End Reports.

(** *** Collecting from Prometheus *)

(** A Python float: [float()] also reads ["nan"] and ["inf"]. *)
Inductive pyfloat : Type :=
| Real (x : Q)
| NotANumber
| Infinity (negative : bool).

(** What [requests.get] does: it raises, or it returns a response with a
    status and a body that [response.json()] parses or rejects. *)
Inductive reply : Type :=
| Unreachable (e : exn)
| Answered (status_code : Z) (body : result json).

(** A value of a row: the time of the row, or the value of a query. *)
Inductive field : Type :=
| At (t : Q)
| Metric (v : pyfloat).

Definition metric_point : Type := list (string * field).

Definition and_then {A B} (r : result A) (k : A -> result B) : result B :=
  match r with
  | Ok a => k a
  | Raise e => Raise e
  end.

Notation "x <- r ;; k" := (and_then r (fun x => k))
  (at level 61, r at next level, right associativity).

Section Collector.

(** The environment: the [k]-th reading of [time.time()], the time
    [datetime.now()] gives in iteration [i], the flag [monitoring_active]
    as the [i]-th test of the loop finds it, what Prometheus does with the
    [j]-th query of iteration [i], and [float()] on a string. *)
Variable clock : nat -> Q.
Variable datetime_now : nat -> Q.
Variable monitoring_active : nat -> bool.
Variable prometheus : nat -> nat -> string -> reply.
Variable float_of_str : string -> option pyfloat.

(** [float(v)]. *)
Definition to_float (v : json) : result pyfloat :=
  match v with
  | JStr s =>
      match float_of_str s with
      | Some x => Ok x
      | None => Raise ValueError
      end
  | JInt z => Ok (Real (inject_Z z))
  | JFloat x => Ok (Real x)
  | JBool b => Ok (Real (if b then 1 else 0))
  | _ => Raise TypeError
  end.

Definition is_success (v : json) : bool :=
  match v with
  | JStr s => String.eqb s "success"
  | _ => false
  end.

(** The body of the [try] once the response is there: the value to
    record, or the exception the [except] clause gets. *)
Definition read_value (status_code : Z) (body : result json) : result pyfloat :=
  if (status_code =? 200)%Z then
    data <- body ;;
    status <- subscript_key data "status" ;;
    if is_success status then
      inner <- subscript_key data "data" ;;
      result <- subscript_key inner "result" ;;
      if truthy result then
        (* take the first result value *)
        first <- subscript_index result 0 ;;
        value <- subscript_key first "value" ;;
        second <- subscript_index value 1 ;;
        to_float second
      else Ok (Real 0)
    else Ok (Real 0)
  else Ok (Real 0).

(** One query of one iteration: the value recorded under its name, and
    what is printed. *)
Definition collect_query (i j : nat) (query_name query : string)
  : pyfloat * list string :=
  let outcome :=
    match prometheus i j query with
    | Unreachable e => Raise e
    | Answered status_code body => read_value status_code body
    end in
  match outcome with
  | Ok value => (value, [])
  | Raise e =>
      (Real 0, [ "Error collecting " ++ query_name ++ ": " ++ str_exn e ])
  end.

(** [for query_name, query in queries.items()]. *)
Fixpoint collect_queries (i j : nat) (queries : list (string * string))
    (point : metric_point) : metric_point * list string :=
  match queries with
  | [] => (point, [])
  | (query_name, query) :: rest =>
      let (value, printed) := collect_query i j query_name query in
      let (point', printed') :=
        collect_queries i (S j) rest (dict_set query_name (Metric value) point) in
      (point', (printed ++ printed')%list)
  end.

(** The [while] loop from its [i]-th test on.  [fuel] bounds the number
    of tests; [None] when it does not suffice. *)
Fixpoint collect_loop (fuel : nat) (i : nat) (end_time : Q)
    (queries : list (string * string)) : option (list metric_point * list string) :=
  match fuel with
  | O => None
  | S fuel' =>
      if andb (negb (Qle_bool end_time (clock (S i)))) (monitoring_active i) then
        let (point, printed) :=
          collect_queries i 0 queries [ ("timestamp", At (datetime_now i)) ] in
        match collect_loop fuel' (S i) end_time queries with
        | Some (all_metrics, printed') =>
            Some (point :: all_metrics, (printed ++ printed')%list)
        | None => None
        end
      else Some ([], [])
  end.

(** [collect_prometheus_metrics(queries, duration_seconds)]: the rows of
    the table, and what was printed after the first line. *)
Definition collect_prometheus_metrics (fuel : nat) (queries : list (string * string))
    (duration_seconds : Q) : option (list metric_point * list string) :=
  let start_time := clock 0%nat in
  let end_time := start_time + duration_seconds in
  collect_loop fuel 0 end_time queries.

End Collector.

End PerformanceMonitor.

(** ** Properties of the metrics collector and reporter *)

Module PerformanceMonitorProps.
Import PerformanceMonitor.

Local Open Scope Z_scope.

Lemma round53_small m : Z.log2 m + 1 - 53 <= 0 -> round53 m = m.
Proof.
  intros Hs. unfold round53. cbv zeta.
  destruct (Z.log2 m + 1 - 53 <=? 0) eqn:E; [reflexivity |].
  apply Z.leb_gt in E. lia.
Qed.

(** Above 53 bits, [round53 m] is a multiple [q' * 2^s] of the weight of the
    last kept bit, no less than [m] rounded down, and within half that
    weight above [m]; [m] has 53 bits above that weight. *)
Lemma round53_large m :
  0 < Z.log2 m + 1 - 53 ->
  exists q',
    round53 m = q' * 2 ^ (Z.log2 m + 1 - 53)
    /\ m / 2 ^ (Z.log2 m + 1 - 53) <= q'
    /\ 2 * round53 m <= 2 * m + 2 ^ (Z.log2 m + 1 - 53)
    /\ 2 ^ 52 * 2 ^ (Z.log2 m + 1 - 53) <= m.
Proof.
  intros Hs. unfold round53. cbv zeta.
  set (s := Z.log2 m + 1 - 53) in *.
  destruct (s <=? 0) eqn:E; [apply Z.leb_le in E; lia | clear E].
  assert (Hm : 0 < m).
  { destruct (Z.lt_ge_cases 0 m) as [H | H]; [exact H |].
    assert (Z.log2 m = 0) by (apply Z.log2_nonpos; exact H). lia. }
  assert (HP : 0 < 2 ^ s) by (apply Z.pow_pos_nonneg; lia).
  assert (Hhalf : 2 ^ s = 2 * 2 ^ (s - 1)).
  { replace s with (1 + (s - 1)) at 1 by lia. rewrite Z.pow_add_r by lia. reflexivity. }
  assert (Hlog : 2 ^ 52 * 2 ^ s <= m).
  { rewrite <- Z.pow_add_r by lia. replace (52 + s) with (Z.log2 m) by lia.
    apply Z.log2_spec. exact Hm. }
  pose proof (Z.div_mod m (2 ^ s) ltac:(lia)) as Hdiv.
  pose proof (Z.mod_pos_bound m (2 ^ s) HP) as Hmod.
  set (P := 2 ^ s) in *. set (q := m / P) in *. set (r := m mod P) in *.
  set (h := 2 ^ (s - 1)) in *.
  destruct (r <? h) eqn:E1; [apply Z.ltb_lt in E1 | apply Z.ltb_ge in E1].
  - exists q. repeat split; try lia.
  - assert (Hup : 2 * ((q + 1) * P) <= 2 * m + P) by nia.
    destruct (h <? r) eqn:E2; [| destruct (Z.even q)].
    + exists (q + 1). repeat split; try lia.
    + exists q. repeat split; try lia.
    + exists (q + 1). repeat split; try lia.
Qed.

(** The comparison with [n * 0.1] decides whether [c] exceeds a tenth of
    [n], for every row count a table can have. *)
Lemma above_times_tenth n c :
  0 <= n < 2 ^ 52 -> 0 <= c ->
  (round53 (n * tenth_mantissa) < c * 2 ^ 55 <-> n < 10 * c).
Proof.
  intros Hn Hc. unfold tenth_mantissa.
  set (x := n * 3602879701896397).
  assert (Hx : x = n * 3602879701896397) by reflexivity.
  change (2 ^ 52) with 4503599627370496 in Hn.
  change (2 ^ 55) with 36028797018963968.
  destruct (Z.le_gt_cases (Z.log2 x + 1 - 53) 0) as [Hs | Hs].
  - rewrite (round53_small x Hs). lia.
  - destruct (round53_large x Hs) as (q' & HR & Hq & Hup & Hlog).
    set (s := Z.log2 x + 1 - 53) in *.
    assert (HP : 0 < 2 ^ s) by (apply Z.pow_pos_nonneg; lia).
    change (2 ^ 52) with 4503599627370496 in Hlog.
    split.
    + intros Hlt. destruct (Z.lt_ge_cases n (10 * c)) as [H | H]; [exact H | exfalso].
      (* [c * 2^55] is a multiple of [2^s] below [x] *)
      assert (Hs52 : s < 52).
      { apply (Z.pow_lt_mono_r_iff 2); [lia | lia |].
        change (2 ^ 52) with 4503599627370496. lia. }
      assert (Hg : c * 36028797018963968 = (c * 2 ^ (55 - s)) * 2 ^ s).
      { rewrite <- Z.mul_assoc, <- Z.pow_add_r by lia.
        replace (55 - s + s) with 55 by lia. reflexivity. }
      assert (Hle : c * 2 ^ (55 - s) <= q').
      { eapply Z.le_trans; [| exact Hq].
        apply Z.div_le_lower_bound; [exact HP |]. rewrite Z.mul_comm, <- Hg. lia. }
      apply (Z.mul_le_mono_nonneg_r _ _ (2 ^ s)) in Hle; [| lia].
      rewrite <- Hg, <- HR in Hle. lia.
    + intros Hlt. lia.
Qed.


Local Close Scope Z_scope.

(** *** The CPU finding *)

Definition is_cpu_finding (finding : string) : bool := startswith "CPU:" finding.

(** The number of values of a column that are above a threshold, counted
    value by value with the order of the rationals. *)
Fixpoint rows_above (threshold : Q) (column : list Q) : Z :=
  match column with
  | [] => 0
  | x :: rest =>
      (match (threshold ?= x)%Q with Lt => 1 | _ => 0 end
       + rows_above threshold rest)%Z
  end.

(** The number of rows whose CPU percentage is above 80. *)
Definition cpu_high_time (system_df : list sample) : Z :=
  rows_above 80 (map cpu_percent system_df).

Lemma rows_above_bounds threshold column :
  (0 <= rows_above threshold column <= Z.of_nat (List.length column))%Z.
Proof.
  induction column as [| x rest IH]; [cbn; lia |].
  cbn [rows_above List.length]. destruct (threshold ?= x)%Q; lia.
Qed.

(** What the code counts, [(column > threshold).sum()], is that number. *)
Lemma count_where_rows_above (f : sample -> Q) threshold system_df :
  count_where (fun s => Qgt_bool (f s) threshold) system_df
  = rows_above threshold (map f system_df).
Proof.
  unfold count_where.
  induction system_df as [| s rest IH]; [reflexivity |].
  cbn [filter map rows_above]. rewrite <- IH.
  assert (Hgt : Qgt_bool (f s) threshold
                = match (threshold ?= f s)%Q with Lt => true | _ => false end).
  { unfold Qgt_bool, Qle_bool, Qcompare.
    rewrite Z.leb_compare, (Z.compare_antisym (Qnum threshold * QDen (f s))%Z).
    destruct (Qnum threshold * QDen (f s) ?= Qnum (f s) * QDen threshold)%Z;
      reflexivity. }
  rewrite Hgt. destruct (threshold ?= f s)%Q; cbn [List.length]; lia.
Qed.

Definition findings_of (r : result (list string * string * list string)) : list string :=
  match r with
  | Ok (bottlenecks, _, _) => bottlenecks
  | Raise _ => []
  end.

Lemma Qgt_times_tenth n c :
  (0 <= n < 2 ^ 52)%Z -> (0 <= c)%Z ->
  Qgt_bool (inject_Z c) (times_tenth n) = (n <? 10 * c)%Z.
Proof.
  intros Hn Hc. pose proof (above_times_tenth n c Hn Hc) as Hiff.
  unfold Qgt_bool, Qle_bool, times_tenth, inject_Z. cbn [Qnum Qden].
  change (Z.pos (2 ^ 55)) with (2 ^ 55)%Z. rewrite Z.mul_1_r.
  destruct (n <? 10 * c)%Z eqn:E.
  - apply Z.ltb_lt in E. apply Hiff in E.
    apply negb_true_iff, Z.leb_gt. exact E.
  - apply Z.ltb_ge in E. apply negb_false_iff, Z.leb_le.
    destruct (Z.le_gt_cases (c * 2 ^ 55) (round53 (n * tenth_mantissa)))
      as [H | H]; [exact H |].
    apply Hiff in H. lia.
Qed.

Section Analysis.
Variable format_fixed : nat -> cell -> string.
Variable str_float : Q -> string.

Lemma analyze_bottlenecks_cpu output_dir test_name first rest :
  (Z.of_nat (List.length (first :: rest)) < 2 ^ 52)%Z ->
  existsb is_cpu_finding
    (findings_of (analyze_bottlenecks format_fixed str_float output_dir
                    (first :: rest) test_name))
  = (Z.of_nat (List.length (first :: rest)) <? 10 * cpu_high_time (first :: rest))%Z.
Proof.
  intros Hlen.
  assert (Hc : (0 <= cpu_high_time (first :: rest))%Z)
    by (unfold cpu_high_time; apply rows_above_bounds).
  unfold analyze_bottlenecks, findings_of. cbv zeta.
  rewrite !existsb_app.
  change (inject_Z 80) with (80 : Q).
  rewrite (count_where_rows_above cpu_percent 80 (first :: rest)).
  fold (cpu_high_time (first :: rest)).
  rewrite Qgt_times_tenth; [| split; [lia | exact Hlen] | exact Hc].
  repeat match goal with
         | |- context [existsb is_cpu_finding (if ?b then _ else _)] => destruct b
         end;
    cbn [existsb]; unfold is_cpu_finding, startswith; cbn [append prefix];
    rewrite ?Ascii.eqb_refl; cbn; rewrite ?orb_false_r; reflexivity.
Qed.

(** C7.  On a table that has rows (fewer than 2^52 of them),
    [analyze_bottlenecks] returns, and its findings have the CPU finding if
    and only if the rows above 80% are more than a tenth of all rows: when
    they are exactly a tenth, or fewer, there is no CPU finding.  The rows
    above 80% are counted by [rows_above], row by row; the test is the one
    the code makes, against the float [len(system_df) * 0.1]. *)
Theorem cpu_finding_iff (output_dir test_name : string) (system_df : list sample) :
  system_df <> [] ->
  (Z.of_nat (List.length system_df) < 2 ^ 52)%Z ->
  exists bottlenecks analysis_path written,
    analyze_bottlenecks format_fixed str_float output_dir system_df test_name
      = Ok (bottlenecks, analysis_path, written)
    /\ (existsb is_cpu_finding bottlenecks = true
        <-> (Z.of_nat (List.length system_df) < 10 * cpu_high_time system_df)%Z)
    /\ ((10 * cpu_high_time system_df <= Z.of_nat (List.length system_df))%Z ->
        existsb is_cpu_finding bottlenecks = false).
Proof.
  intros Hne Hlen. destruct system_df as [| first rest]; [contradiction |].
  pose proof (analyze_bottlenecks_cpu output_dir test_name first rest Hlen) as Hcpu.
  unfold analyze_bottlenecks in *. cbv zeta in *. cbn [findings_of] in Hcpu.
  eexists _, _, _. split; [reflexivity |].
  rewrite Hcpu. split; [apply Z.ltb_lt | intros Hle; now apply Z.ltb_ge].
Qed.

End Analysis.


(** *** Concrete tables *)

Definition no_format (digits : nat) (c : cell) : string := "".
Definition no_str (x : Q) : string := "".

(** A sample of a quiet machine with the given CPU percentage. *)
Definition sample_at (cpu : Q) : sample :=
  {| timestamp := 0; cpu_percent := cpu; cpu_count := 4;
     load_1min := 1; load_5min := 1; load_15min := 1;
     memory_used := 1073741824; memory_percent := 25;
     disk_read_bytes := 0; disk_write_bytes := 0;
     net_bytes_sent := 0; net_bytes_recv := 0 |}.

(** [total] rows, the first [high] of them at 90% CPU, the others at 10%. *)
Definition busy_table (high total : nat) : list sample :=
  (repeat (sample_at 90) high ++ repeat (sample_at 10) (total - high))%list.

Lemma cpu_finding_iff_witness :
  cpu_high_time (busy_table 2 10) = 2%Z
  /\ exists bottlenecks analysis_path written,
       analyze_bottlenecks no_format no_str "out" (busy_table 2 10) "run"
         = Ok (bottlenecks, analysis_path, written)
       /\ existsb is_cpu_finding bottlenecks = true.
Proof.
  split; [reflexivity |].
  destruct (cpu_finding_iff no_format no_str "out" "run" (busy_table 2 10)
              ltac:(discriminate) eq_refl)
    as (bottlenecks & analysis_path & written & Hrun & Hiff & _).
  exists bottlenecks, analysis_path, written. split; [exact Hrun |].
  apply Hiff. reflexivity.
Defined.

(** Twenty percent of the rows above the threshold trigger the finding;
    exactly ten percent do not, also where [n * 0.1] is not exact (30 rows:
    the float is 3.0000000000000004). *)
Lemma cpu_finding_examples :
  findings_of (analyze_bottlenecks no_format no_str "out" (busy_table 2 10) "run")
    = [ "CPU: High CPU usage (>80%) detected for 2 measurements" ]
  /\ findings_of (analyze_bottlenecks no_format no_str "out" (busy_table 1 10) "run")
     = []
  /\ findings_of (analyze_bottlenecks no_format no_str "out" (busy_table 3 30) "run")
     = []
  /\ findings_of (analyze_bottlenecks no_format no_str "out" (busy_table 4 30) "run")
     = [ "CPU: High CPU usage (>80%) detected for 4 measurements" ].
Proof. vm_compute. repeat split; reflexivity. Qed.

(** *** The rate panels *)

(** The rate the spec describes: for each sample after the first, the
    difference of the counter to the sample before, divided by the time
    between the two samples (and by 2^20, the panel being in MB/s). *)
Fixpoint rate_from (t0 : Q) (x0 : Z) (rows : list (Q * Z)) : list cell :=
  match rows with
  | [] => []
  | (t, x) :: rest =>
      Some (inject_Z (x - x0) / (t - t0) / MB) :: rate_from t x rest
  end.

Definition rate_per_second (counter : sample -> Z) (df : list sample) : list cell :=
  match df with
  | [] => []
  | s :: rest =>
      None :: rate_from (timestamp s) (counter s)
                (map (fun r => (timestamp r, counter r)) rest)
  end.

(** Two columns agree: NaN where the other has NaN, equal numbers
    elsewhere. *)
Fixpoint same_cells (a b : list cell) : bool :=
  match a, b with
  | [], [] => true
  | Some x :: a', Some y :: b' => andb (Qeq_bool x y) (same_cells a' b')
  | None :: a', None :: b' => same_cells a' b'
  | _, _ => false
  end.

(** The lines of the panel with the given title. *)
Definition lines_of (panel_title : string) (r : result report) : list line :=
  match r with
  | Ok rep =>
      flat_map (fun p => if String.eqb (title p) panel_title then lines p else [])
        (panels rep)
  | Raise _ => []
  end.

Definition plotted (panel_title line_label : string) (r : result report) : list cell :=
  flat_map (fun l => if String.eqb (label l) line_label then ys l else [])
    (lines_of panel_title r).

(** Two samples five seconds apart: 10 MB were sent and 20 MB read from
    disk in between. *)
Definition five_seconds : list sample :=
  [ {| timestamp := 0; cpu_percent := 10; cpu_count := 4;
       load_1min := 1; load_5min := 1; load_15min := 1;
       memory_used := 1073741824; memory_percent := 25;
       disk_read_bytes := 0; disk_write_bytes := 0;
       net_bytes_sent := 0; net_bytes_recv := 0 |};
    {| timestamp := 5; cpu_percent := 10; cpu_count := 4;
       load_1min := 1; load_5min := 1; load_15min := 1;
       memory_used := 1073741824; memory_percent := 25;
       disk_read_bytes := 20971520; disk_write_bytes := 0;
       net_bytes_sent := 10485760; net_bytes_recv := 0 |} ].

(** C8.  On two samples five seconds apart, with 10 MB sent and 20 MB read
    between them, the line "Sent" of the panel "Network I/O Rate (MB/s)" is
    at 10 and the line "Read" of the panel "Disk I/O Rate (MB/s)" at 20: the
    differences of the counters, in MB, not divided by the five seconds.
    The rates are 2 MB/s and 4 MB/s. *)
Theorem rate_panels_are_not_per_second :
  let report := create_performance_report no_format "out" "run" five_seconds in
  same_cells (plotted "Network I/O Rate (MB/s)" "Sent" report) [None; Some 10] = true
  /\ same_cells (rate_per_second net_bytes_sent five_seconds) [None; Some 2] = true
  /\ same_cells (plotted "Network I/O Rate (MB/s)" "Sent" report)
       (rate_per_second net_bytes_sent five_seconds) = false
  /\ same_cells (plotted "Disk I/O Rate (MB/s)" "Read" report) [None; Some 20] = true
  /\ same_cells (rate_per_second disk_read_bytes five_seconds) [None; Some 4] = true
  /\ same_cells (plotted "Disk I/O Rate (MB/s)" "Read" report)
       (rate_per_second disk_read_bytes five_seconds) = false.
Proof. vm_compute. repeat split; reflexivity. Qed.

(** Whatever the table, the rate panels plot the successive differences
    of the counters divided by 2^20 and by nothing else. *)
Lemma rate_panels_plot_differences output_dir test_name first rest :
  let df := first :: rest in
  let report := create_performance_report no_format output_dir test_name df in
  plotted "Network I/O Rate (MB/s)" "Sent" report
    = div_by MB (diff (map net_bytes_sent df))
  /\ plotted "Network I/O Rate (MB/s)" "Received" report
     = div_by MB (diff (map net_bytes_recv df))
  /\ plotted "Disk I/O Rate (MB/s)" "Read" report
     = div_by MB (diff (map disk_read_bytes df))
  /\ plotted "Disk I/O Rate (MB/s)" "Write" report
     = div_by MB (diff (map disk_write_bytes df)).
Proof.
  cbv zeta. unfold plotted, lines_of, create_performance_report.
  cbn [panels flat_map title lines label ys String.eqb Ascii.eqb Bool.eqb app].
  rewrite !app_nil_r. repeat split; reflexivity.
Qed.


(** *** The collection loop *)

Lemma dict_get_set {V} key k (v : V) d :
  dict_get key (dict_set k v d)
  = if String.eqb key k then Some v else dict_get key d.
Proof.
  induction d as [| [k' v'] d IH]; cbn [dict_set dict_get]; [reflexivity |].
  destruct (String.eqb k k') eqn:E; cbn [dict_get].
  - apply String.eqb_eq in E. subst k'. destruct (String.eqb key k); reflexivity.
  - rewrite IH. destruct (String.eqb key k) eqn:E'; [| reflexivity].
    apply String.eqb_eq in E'. subst key. now rewrite E.
Qed.

Section Collector.
Variable clock : nat -> Q.
Variable datetime_now : nat -> Q.
Variable monitoring_active : nat -> bool.
Variable prometheus : nat -> nat -> string -> reply.
Variable float_of_str : string -> option pyfloat.

Local Abbreviation collect_query' := (collect_query prometheus float_of_str).
Local Abbreviation collect_queries' := (collect_queries prometheus float_of_str).
Local Abbreviation read_value' := (read_value float_of_str).

(** The line the [except] clause prints. *)
Definition error_line (query_name : string) (e : exn) : string :=
  "Error collecting " ++ query_name ++ ": " ++ str_exn e.

(** The test of the [while] loop, the [i]-th time it is made. *)
Definition goes_on (duration_seconds : Q) (i : nat) : bool :=
  andb (negb (Qle_bool (clock 0%nat + duration_seconds) (clock (S i))))
       (monitoring_active i).

(** A row has a value under a name. *)
Definition has_value (point : metric_point) (query_name : string) : Prop :=
  exists v, dict_get query_name point = Some (Metric v).

Lemma collect_queries_values i queries : forall j point,
  (forall query_name, In query_name (map fst queries) ->
                      has_value (fst (collect_queries' i j queries point)) query_name)
  /\ (forall query_name, has_value point query_name ->
                         has_value (fst (collect_queries' i j queries point)) query_name).
Proof.
  induction queries as [| [query_name query] rest IH]; intros j point.
  - split; [intros ? [] | intros ? H; exact H].
  - cbn [collect_queries].
    destruct (collect_query' i j query_name query) as [value printed].
    specialize (IH (S j) (dict_set query_name (Metric value) point)).
    destruct (collect_queries' i (S j) rest _) as [point' printed'].
    cbn [fst] in *. destruct IH as [IHnew IHold].
    assert (Hset : forall n, n = query_name \/ has_value point n ->
                             has_value (dict_set query_name (Metric value) point) n).
    { intros n Hn. unfold has_value. rewrite dict_get_set.
      destruct (String.eqb n query_name) eqn:E; [now exists value |].
      destruct Hn as [-> | Hn]; [now rewrite String.eqb_refl in E | exact Hn]. }
    split.
    + intros n [<- | Hn]; [apply IHold, Hset; now left | now apply IHnew].
    + intros n Hn. apply IHold, Hset. now right.
Qed.

Lemma collect_loop_runs queries end_time : forall k i fuel,
  (forall d, (d < k)%nat ->
     andb (negb (Qle_bool end_time (clock (S (i + d))))) (monitoring_active (i + d))
     = true) ->
  andb (negb (Qle_bool end_time (clock (S (i + k))))) (monitoring_active (i + k))
    = false ->
  (k < fuel)%nat ->
  exists all_metrics printed,
    collect_loop clock datetime_now monitoring_active prometheus float_of_str
      fuel i end_time queries = Some (all_metrics, printed)
    /\ List.length all_metrics = k
    /\ forall point, In point all_metrics ->
         forall query_name, In query_name (map fst queries) ->
                            has_value point query_name.
Proof.
  induction k as [| k IH]; intros i fuel Hon Hoff Hfuel;
    (destruct fuel as [| fuel]; [lia |]); cbn [collect_loop].
  - rewrite Nat.add_0_r in Hoff. rewrite Hoff.
    exists [], []. repeat split. intros ? [].
  - pose proof (Hon 0%nat ltac:(lia)) as H0. rewrite Nat.add_0_r in H0. rewrite H0.
    pose proof (proj1 (collect_queries_values i queries 0%nat
                         [ ("timestamp", At (datetime_now i)) ])) as Hrow.
    destruct (collect_queries' i 0 queries _) as [point printed]. cbn [fst] in Hrow.
    destruct (IH (S i) fuel) as (rows & out & -> & Hlen & Hrows).
    + intros d Hd. replace (S i + d)%nat with (i + S d)%nat by lia. apply Hon. lia.
    + replace (S i + k)%nat with (i + S k)%nat by lia. exact Hoff.
    + lia.
    + eexists _, _. split; [reflexivity |]. split; [cbn; now rewrite Hlen |].
      intros p [<- | Hp]; [exact Hrow | now apply Hrows].
Qed.

(** C9, as the code has it.  A query whose request raises, or whose answer
    makes the code raise, is recorded as 0 and one line is printed for it; a
    query answered with another status than 200, with a status field that is
    not "success", or with an empty result is recorded as 0 and nothing is
    printed.  None of this stops the loop: when its test holds [k] times and
    then fails, the table has [k] rows and every row has a value under every
    query name. *)
Theorem query_failures_default_to_zero :
  (forall i j query_name query,
      (forall e,
          prometheus i j query = Unreachable e ->
          collect_query' i j query_name query = (Real 0, [error_line query_name e]))
      /\ (forall status_code body e,
            prometheus i j query = Answered status_code body ->
            read_value' status_code body = Raise e ->
            collect_query' i j query_name query = (Real 0, [error_line query_name e]))
      /\ (forall status_code body,
            prometheus i j query = Answered status_code body ->
            status_code <> 200%Z ->
            collect_query' i j query_name query = (Real 0, []))
      /\ (forall data status,
            prometheus i j query = Answered 200 (Ok data) ->
            subscript_key data "status" = Ok status ->
            is_success status = false ->
            collect_query' i j query_name query = (Real 0, []))
      /\ (forall data inner result,
            prometheus i j query = Answered 200 (Ok data) ->
            subscript_key data "status" = Ok (JStr "success") ->
            subscript_key data "data" = Ok inner ->
            subscript_key inner "result" = Ok result ->
            truthy result = false ->
            collect_query' i j query_name query = (Real 0, [])))
  /\ (forall queries duration_seconds k fuel,
        (forall i, (i < k)%nat -> goes_on duration_seconds i = true) ->
        goes_on duration_seconds k = false ->
        (k < fuel)%nat ->
        exists all_metrics printed,
          collect_prometheus_metrics clock datetime_now monitoring_active prometheus
            float_of_str fuel queries duration_seconds = Some (all_metrics, printed)
          /\ List.length all_metrics = k
          /\ forall point, In point all_metrics ->
               forall query_name, In query_name (map fst queries) ->
                                  has_value point query_name).
Proof.
  split.
  - intros i j query_name query. unfold collect_query.
    split; [| split; [| split; [| split]]].
    + intros e ->. reflexivity.
    + intros status_code body e -> ->. reflexivity.
    + intros status_code body -> Hne. unfold read_value.
      destruct (status_code =? 200)%Z eqn:E; [apply Z.eqb_eq in E; contradiction |].
      reflexivity.
    + intros data status -> Hst Hno. unfold read_value, and_then.
      cbn [Z.eqb Pos.eqb]. rewrite Hst, Hno. reflexivity.
    + intros data inner result -> Hst Hin Hres Hempty. unfold read_value, and_then.
      cbn [Z.eqb Pos.eqb]. rewrite Hst. cbn [is_success]. rewrite String.eqb_refl.
      rewrite Hin, Hres, Hempty. reflexivity.
  - intros queries duration_seconds k fuel Hon Hoff Hfuel.
    unfold collect_prometheus_metrics.
    apply (collect_loop_runs queries (clock 0%nat + duration_seconds) k 0%nat fuel).
    + intros d Hd. exact (Hon d Hd).
    + exact Hoff.
    + exact Hfuel.
Qed.

End Collector.

(** A Prometheus that answers every query with status 500, one that
    answers with an empty result, and one that is not there. *)
Definition failing_prometheus (i j : nat) (query : string) : reply :=
  Answered 500 (Raise JSONDecodeError).

Definition empty_prometheus (i j : nat) (query : string) : reply :=
  Answered 200
    (Ok (JDict [ ("status", JStr "success");
                 ("data", JDict [ ("resultType", JStr "vector");
                                  ("result", JList []) ]) ])).

Definition absent_prometheus (i j : nat) (query : string) : reply :=
  Unreachable (RequestException "Connection refused").

Definition no_float (s : string) : option pyfloat := None.

(** A clock that advances by six seconds at each reading. *)
Definition six_seconds (k : nat) : Q := inject_Z (6 * Z.of_nat k).

(** C9, as the spec words it, fails: a query answered with status 500, or
    with an empty result, is recorded as 0 and nothing is printed. *)
Lemma silent_zero_on_status_500 :
  collect_query failing_prometheus no_float 0 0 "node_load1" "node_load1"
    = (Real 0, [])
  /\ collect_query empty_prometheus no_float 0 0 "node_load1" "node_load1"
     = (Real 0, [])
  /\ collect_prometheus_metrics six_seconds six_seconds (fun _ => true)
       failing_prometheus no_float 5 [ ("node_load1", "node_load1") ] 10
     = Some ([ [ ("timestamp", At 0); ("node_load1", Metric (Real 0)) ] ], []).
Proof. vm_compute. repeat split; reflexivity. Qed.

Lemma query_failures_default_to_zero_witness :
  collect_query absent_prometheus no_float 0 0 "node_load1" "node_load1"
    = (Real 0, [ error_line "node_load1" (RequestException "Connection refused") ])
  /\ exists all_metrics printed,
       collect_prometheus_metrics six_seconds six_seconds (fun _ => true)
         absent_prometheus no_float 5 [ ("node_load1", "node_load1") ] 10
       = Some (all_metrics, printed)
       /\ List.length all_metrics = 1%nat
       /\ forall point, In point all_metrics ->
            forall query_name, In query_name (map fst [ ("node_load1", "node_load1") ]) ->
                               has_value point query_name.
Proof.
  destruct (query_failures_default_to_zero six_seconds six_seconds (fun _ => true)
              absent_prometheus no_float) as [Hquery Hloop].
  split.
  - apply (proj1 (Hquery 0%nat 0%nat "node_load1" "node_load1")). reflexivity.
  - apply Hloop.
    + intros [| i] Hi; [reflexivity | lia].
    + reflexivity.
    + lia.
Defined.

End PerformanceMonitorProps.

(** ** Facts about dicts and lists shared by the developments below *)

Module PyFacts.

(** [enumerate(l, i)]. *)
Fixpoint indexed {A} (i : nat) (l : list A) : list (nat * A) :=
  match l with
  | [] => []
  | a :: rest => (i, a) :: indexed (S i) rest
  end.

(** Setting a key that a dict does not have appends it. *)
Lemma dict_set_fresh {V} k (v : V) d :
  ~ In k (dict_keys d) -> dict_set k v d = (d ++ [(k, v)])%list.
Proof.
  induction d as [| [k' v'] d IH]; intros Hk; [reflexivity |].
  cbn [dict_set]. destruct (String.eqb k k') eqn:E.
  - apply String.eqb_eq in E. subst. exfalso. apply Hk. now left.
  - cbn [app]. rewrite IH; [reflexivity |]. intros H. apply Hk. now right.
Qed.

Lemma forallb_snd_map {A B} (f : A -> B * bool) (l : list A) :
  forallb snd (map f l) = forallb (fun a => snd (f a)) l.
Proof. induction l as [| a l IH]; [reflexivity |]. cbn. now rewrite IH. Qed.

Lemma last_cons {A} (x : A) (rest : list A) : forall d, last (x :: rest) d = last rest x.
Proof.
  revert x. induction rest as [| y rest IH]; intros x d; [reflexivity |].
  change (last (x :: y :: rest) d) with (last (y :: rest) d).
  rewrite (IH y d), (IH y x). reflexivity.
Qed.

Lemma last_of_map {A B} (f : A -> B) (l : list A) : forall d,
  last (map f l) (f d) = f (last l d).
Proof.
  induction l as [| a l IH]; intros d; [reflexivity |].
  cbn [map]. rewrite !last_cons. apply IH.
Qed.

End PyFacts.

(** ** More about the workload: what each task does and leaves alone *)

Module LocustfileTasks.
Import Locustfile LocustfileProps.

Section Session.
Variable clock : nat -> Q.
Variable uuid4_hex : nat -> string.
Variable randbelow : nat -> nat -> nat.
Variable token_endpoint : nat -> request -> token_response.
Variable admin_api : nat -> request -> response.
Variable repr : json -> string.

Local Abbreviation run_task' :=
  (run_task clock uuid4_hex randbelow token_endpoint admin_api repr).
Local Abbreviation run_operation' :=
  (run_operation clock uuid4_hex randbelow token_endpoint admin_api repr).
Local Abbreviation create_task' :=
  (create_task clock uuid4_hex token_endpoint admin_api repr).
Local Abbreviation delete_task' := (delete_task clock token_endpoint admin_api repr).
Local Abbreviation update_task' :=
  (update_task clock uuid4_hex randbelow token_endpoint admin_api repr).
Local Abbreviation token_part' := (token_part clock token_endpoint).
Local Abbreviation token_exchange' := (token_exchange token_endpoint).
Local Abbreviation expired' := (expired clock).
Local Abbreviation api_exchange' := (api_exchange admin_api).
Local Abbreviation ensure_valid_token' :=
  (ensure_valid_token clock token_endpoint repr).
Local Abbreviation get_admin_token' := (get_admin_token clock token_endpoint repr).

(** *** The token check, exactly *)

(** The answer to the token fetch of a check made at [(u, w)]. *)
Definition check_answer (u : KeycloakUser) (w : world) : token_response :=
  token_answer token_endpoint u (tick w).

(** The token check made at [(u, w)]: its outcome, and the session and the
    world it leaves. *)
Definition check_outcome (u : KeycloakUser) (w : world) : result unit :=
  outcome (ensure_valid_token' (u, w)).

Definition after_check (u : KeycloakUser) (w : world) : KeycloakUser :=
  user_after (ensure_valid_token' (u, w)).

Definition world_after_check (u : KeycloakUser) (w : world) : world :=
  snd (state_after (ensure_valid_token' (u, w))).

Lemma ensure_valid_token_exact u w :
  ensure_valid_token' (u, w)
  = (check_outcome u w, (after_check u w, world_after_check u w), token_part' u w).
Proof.
  pose proof (ensure_valid_token_spec clock token_endpoint repr u w) as (_ & _ & Hes).
  unfold check_outcome, after_check, world_after_check, outcome, user_after,
    state_after, exchanges in *.
  destruct (ensure_valid_token' (u, w)) as [[r [u' w']] es]. cbn [fst snd] in *.
  now subst.
Qed.

Lemma wp_ensure_valid_token_exact u w Q :
  Q (check_outcome u w) (after_check u w, world_after_check u w) (token_part' u w) ->
  wp ensure_valid_token' (u, w) Q.
Proof. unfold wp. rewrite ensure_valid_token_exact. exact (fun H => H). Qed.

Lemma after_check_kept u w : kept u (after_check u w) w (world_after_check u w).
Proof.
  exact (proj1 (ensure_valid_token_spec clock token_endpoint repr u w)).
Qed.

Lemma after_check_resources u w :
  created_resources (after_check u w) = created_resources u.
Proof. exact (proj1 (after_check_kept u w)). Qed.

Lemma after_check_realm u w : test_realm_name (after_check u w) = test_realm_name u.
Proof. exact (proj1 (proj2 (after_check_kept u w))). Qed.

Lemma after_check_tracked u w k : tracked k (after_check u w) = tracked k u.
Proof. unfold tracked. now rewrite after_check_resources. Qed.

Lemma world_after_check_random u w : n_random (world_after_check u w) = n_random w.
Proof. exact (proj2 (proj2 (after_check_kept u w))). Qed.

(** A check that raises found the token expired, and the answer to its
    fetch, the only exchange of the check, has status 200. *)
Lemma check_outcome_raise u w e :
  check_outcome u w = Raise e ->
  token_part' u w = [token_exchange' u (tick w)]
  /\ received_status (token_exchange' u (tick w)) = 200%Z.
Proof.
  intros Hraise.
  pose proof (ensure_valid_token_spec clock token_endpoint repr u w) as (_ & Hr & _).
  fold (check_outcome u w) in Hr. rewrite Hraise in Hr. destruct Hr as [Hexp H200].
  unfold token_part. rewrite Hexp. split; [reflexivity | exact H200].
Qed.

(** The check is the fetch when the token has expired, and reads the clock
    and nothing else when it has not. *)
Lemma ensure_valid_token_unfold u w :
  ensure_valid_token' (u, w)
  = if expired' u w then get_admin_token' (u, tick w) else (Ok tt, (u, tick w), []).
Proof.
  unfold ensure_valid_token, bind, time_time, self, expired. cbn [fst snd].
  destruct (Qle_bool (token_expires_at u) (clock (n_clock w))); [| reflexivity].
  change {| n_requests := n_requests w; n_clock := S (n_clock w);
            n_random := n_random w; n_uuid := n_uuid w |} with (tick w).
  destruct (get_admin_token' (u, tick w)) as [[r st] es]. reflexivity.
Qed.

Ltac step :=
  lazymatch goal with
  | |- wp (bind _ _) _ _ => apply wp_bind
  | |- wp (ret _) _ _ => apply wp_ret
  | |- wp (raise _) _ _ => apply wp_raise
  | |- wp self _ _ => apply wp_self
  | |- wp (update_self _) _ _ => apply wp_update_self
  | |- wp (lift _) _ _ => apply wp_lift
  | |- wp (json_of _) _ _ => apply wp_json_of
  | |- wp (time_time _) _ _ => apply wp_time_time
  | |- wp (uuid4 _) _ _ => apply wp_uuid4
  | |- wp (random_choice _ _) _ _ =>
      apply wp_random_choice; [intros ? ? | intros ?]
  | |- wp (client_request _ _ _ _ _) _ _ => apply wp_client_request
  | |- wp (ensure_valid_token _ _ _) (?u, ?w) _ =>
      apply wp_ensure_valid_token_exact;
      destruct (check_outcome u w) as [[] | ?] eqn:?
  | |- wp (track _ _) _ _ => unfold track
  | |- wp (track_location _ _) _ _ => unfold track_location
  | |- wp (set_attribute _ _ _) _ _ => unfold set_attribute
  | |- wp (if ?c then _ else _) _ _ => destruct c eqn:?
  | |- wp (match ?x with _ => _ end) _ _ => destruct x eqn:?
  | |- match ?x with _ => _ end => destruct x eqn:?
  end; cbv beta iota zeta.

(** What a fetch that returns with a new token read of its answer: the
    token, and the lifetime less 60 seconds.  [None] when the answer has
    another status than 200, or when reading it raises. *)
Definition granted (answer : token_response) : option (json * Q) :=
  if (token_status answer =? 200)%Z then
    match token_json answer with
    | Ok (JDict fields) =>
        match dict_get "access_token" fields with
        | Some token =>
            match subtract match dict_get "expires_in" fields with
                           | Some v => v
                           | None => JInt 300
                           end 60 with
            | Ok difference =>
                match as_float difference with
                | Ok lifetime => Some (token, lifetime)
                | Raise _ => None
                end
            | Raise _ => None
            end
        | None => None
        end
    | _ => None
    end
  else None.

(** The header after a fetch: the new bearer token when one was granted,
    the header as it was otherwise. *)
Lemma get_admin_token_authorization u w :
  client_authorization (user_after (get_admin_token' (u, w)))
  = match granted (token_answer token_endpoint u w) with
    | Some (token, _) => Some ("Bearer " ++ format_value repr token)
    | None => client_authorization u
    end.
Proof.
  change (wp get_admin_token' (u, w) (fun _ st _ =>
    client_authorization (fst st)
    = match granted (token_answer token_endpoint u w) with
      | Some (token, _) => Some ("Bearer " ++ format_value repr token)
      | None => client_authorization u
      end)).
  unfold get_admin_token, granted.
  apply wp_bind, wp_token_request. cbv beta iota zeta.
  change (token_endpoint (n_requests w) _) with (token_answer token_endpoint u w).
  destruct (token_status (token_answer token_endpoint u w) =? 200)%Z;
    [| apply wp_ret; reflexivity].
  apply wp_bind, wp_lift.
  destruct (token_json (token_answer token_endpoint u w)) as [info | e];
    [| reflexivity].
  cbv beta iota. apply wp_bind, wp_lift.
  destruct info as [| b | z | x | s | items | fields]; try reflexivity.
  cbn [subscript_key get_or].
  destruct (dict_get "access_token" fields) as [token |]; [| reflexivity].
  cbv beta iota. repeat step.
  all: cbn [admin_token set_token_expires_at set_admin_token] in *;
    first [ reflexivity | discriminate | injection Heqo as <-; reflexivity ].
Qed.

Lemma after_check_authorization u w :
  client_authorization (after_check u w)
  = if expired' u w
    then match granted (check_answer u w) with
         | Some (token, _) => Some ("Bearer " ++ format_value repr token)
         | None => client_authorization u
         end
    else client_authorization u.
Proof.
  unfold after_check, check_answer. rewrite ensure_valid_token_unfold.
  destruct (expired' u w); [| reflexivity].
  apply get_admin_token_authorization.
Qed.

Ltac unfold_tasks :=
  unfold run_operation, cleanup_resources, run_task, create_user, create_client,
    create_realm_role, create_group,
    create_client_scope, read_users, read_clients, read_realm_roles, read_groups,
    read_realm_info, update_user, update_client, update_realm_role, update_group,
    update_realm_settings, delete_user, delete_client, delete_realm_role,
    delete_group, delete_tracked, delete_client_scope, pop.

Ltac normalize :=
  rewrite ?after_check_tracked, ?after_check_realm, ?after_check_resources,
    ?world_after_check_random in *.

Lemma set_tracked_realms k l u :
  realms (created_resources (set_tracked k l u)) = realms (created_resources u).
Proof. destruct k; reflexivity. Qed.

Lemma set_tracked_realm k l u :
  test_realm_name (set_tracked k l u) = test_realm_name u.
Proof. destruct k; reflexivity. Qed.

Lemma set_tracked_auth k l u :
  client_authorization (set_tracked k l u) = client_authorization u.
Proof. destruct k; reflexivity. Qed.

(** *** Which task touches which list *)

(** The tasks that can change the list of a type: its creation and its
    deletion. *)
Definition changes (t : task) (k : kind) : bool :=
  match t, k with
  | CreateUser, Users | DeleteUser, Users
  | CreateClient, Clients | DeleteClient, Clients
  | CreateRealmRole, Roles | DeleteRealmRole, Roles
  | CreateGroup, Groups | DeleteGroup, Groups => true
  | _, _ => false
  end.

(** X1.  A task changes at most the list of the type it creates or
    deletes: every other list of [created_resources], the list of realms and
    the name of the test realm are after the task what they were before it,
    whatever the server answers. *)
Theorem tasks_keep_other_lists (t : task) (u : KeycloakUser) (w : world) :
  (forall k, changes t k = false ->
             tracked k (user_after (run_task' t (u, w))) = tracked k u)
  /\ realms (created_resources (user_after (run_task' t (u, w))))
     = realms (created_resources u)
  /\ test_realm_name (user_after (run_task' t (u, w))) = test_realm_name u.
Proof.
  change (wp (run_task' t) (u, w) (fun _ st _ =>
    (forall k, changes t k = false -> tracked k (fst st) = tracked k u)
    /\ realms (created_resources (fst st)) = realms (created_resources u)
    /\ test_realm_name (fst st) = test_realm_name u)).
  destruct t; unfold_tasks; repeat step.
  all: cbn [fst]; split; [intros k Hk | split].
  all: rewrite ?tracked_set_tracked, ?set_tracked_realms, ?set_tracked_realm;
    try (destruct k; try discriminate Hk; cbn [kind_eqb]);
    normalize; reflexivity.
Qed.


(** *** Creations *)

Definition to_list {A} (o : option A) : list A :=
  match o with Some a => [a] | None => [] end.

(** X2.  A creation task ([create_user], [create_client],
    [create_realm_role], [create_group]) whose token check returns, returns
    after exactly one POST, to the collection of its type in the test realm,
    that follows the token exchanges.  The list of its type grows by the
    identifier the answer confirms when the status is 201 (for a role the
    name that was sent, for the others the last segment of a Location header
    that is not empty) and is unchanged otherwise.  A creation whose token
    check raises is that check and nothing more: it raises, sends no POST
    and tracks nothing. *)
Theorem creation_tracks_what_was_answered (k : kind) (u : KeycloakUser) (w : world) :
  (check_outcome u w = Ok tt ->
   exists post,
     create_task' k (u, w)
     = (Ok tt, state_after (create_task' k (u, w)), (token_part' u w ++ [post])%list)
     /\ method (sent post) = POST
     /\ url (sent post) = collection_url (test_realm_name u) k
     /\ tracked k (user_after (create_task' k (u, w)))
        = (tracked k u
           ++ if (received_status post =? 201)%Z then to_list (created_id k post)
              else [])%list)
  /\ (forall e,
        check_outcome u w = Raise e ->
        create_task' k (u, w) = ensure_valid_token' (u, w)
        /\ outcome (create_task' k (u, w)) = Raise e
        /\ exchanges (create_task' k (u, w)) = token_part' u w
        /\ tracked k (user_after (create_task' k (u, w))) = tracked k u).
Proof.
  enough (wp (create_task' k) (u, w) (fun r st es =>
    (check_outcome u w = Ok tt ->
     exists post,
       (r, st, es) = (Ok tt, st, (token_part' u w ++ [post])%list)
       /\ method (sent post) = POST
       /\ url (sent post) = collection_url (test_realm_name u) k
       /\ tracked k (fst st)
          = (tracked k u
             ++ if (received_status post =? 201)%Z then to_list (created_id k post)
                else [])%list)
    /\ (forall e,
          check_outcome u w = Raise e ->
          (r, st, es) = ensure_valid_token' (u, w)
          /\ r = Raise e /\ es = token_part' u w
          /\ tracked k (fst st) = tracked k u))) as H.
  { unfold wp, outcome, state_after, user_after, exchanges in *.
    destruct (create_task' k (u, w)) as [[r st] es]. exact H. }
  destruct k; unfold create_task; unfold_tasks; repeat step.
  all: split; [intros Hok | intros raised Hraised]; try discriminate.
  all: try (injection Hraised as <-; rewrite ensure_valid_token_exact;
            match goal with H : check_outcome _ _ = Raise _ |- _ => rewrite H end;
            cbn [fst]; normalize; repeat split; reflexivity).
  all: eexists (api_exchange' _ _ POST _ _ _);
    (split; [reflexivity |]); (split; [reflexivity |]);
    (split; [cbn [sent url api_exchange request_of]; normalize; reflexivity |]);
    cbn [fst received_status received api_exchange created_id sent payload
         request_of dict_get String.eqb Ascii.eqb Bool.eqb to_list];
    rewrite ?tracked_set_tracked; cbn [kind_eqb]; normalize;
    rewrite Heqb; try rewrite app_nil_r; try reflexivity.
  all: match goal with
       | H : negb _ = true |- _ => apply negb_true_iff in H; rewrite H
       | H : negb _ = false |- _ => apply negb_false_iff in H; rewrite H
       end; cbn [to_list]; rewrite ?app_nil_r; reflexivity.
Qed.

(** *** Which tasks can raise *)

Definition reads_json (t : task) : bool :=
  match t with
  | UpdateRealmRole | UpdateGroup | DeleteClientScope => true
  | _ => false
  end.

(** X3.  A task raises only while it reads an answer with status 200.  A
    task other than [update_realm_role], [update_group] and
    [delete_client_scope] raises exactly when its token check does.  When a
    task raises, its last exchange was answered with status 200: it is the
    token fetch, when the token check raised, or a GET of one of these three
    tasks, when the check returned; and [created_resources] is what it was
    before the task. *)
Theorem tasks_raise_only_on_what_they_read (t : task) (u : KeycloakUser) (w : world) :
  (reads_json t = false -> outcome (run_task' t (u, w)) = check_outcome u w)
  /\ (forall e,
        outcome (run_task' t (u, w)) = Raise e ->
        (exists pre got,
           exchanges (run_task' t (u, w)) = (pre ++ [got])%list
           /\ received_status got = 200%Z
           /\ ((is_token_fetch got = true /\ check_outcome u w = Raise e)
               \/ (method (sent got) = GET /\ reads_json t = true
                   /\ check_outcome u w = Ok tt)))
        /\ created_resources (user_after (run_task' t (u, w))) = created_resources u).
Proof.
  change (wp (run_task' t) (u, w) (fun r st es =>
    (reads_json t = false -> r = check_outcome u w)
    /\ (forall e, r = Raise e ->
          (exists pre got, es = (pre ++ [got])%list
             /\ received_status got = 200%Z
             /\ ((is_token_fetch got = true /\ check_outcome u w = Raise e)
                 \/ (method (sent got) = GET /\ reads_json t = true
                     /\ check_outcome u w = Ok tt)))
          /\ created_resources (fst st) = created_resources u))).
  destruct t; unfold_tasks; repeat step.
  all: try (exfalso; eapply choice_at_nonempty; [| eassumption];
            match goal with
            | H : nonempty ?l = true |- _ => destruct l; [discriminate H | discriminate]
            end).
  all: split; [intros Hreads; first [ congruence | cbn in Hreads; discriminate Hreads ] |].
  all: intros raised Hraised; try discriminate Hraised.
  all: split; [| cbn [fst]; now normalize].
  (* the token check raised *)
  all: try (injection Hraised as <-;
            match goal with
            | H : check_outcome _ _ = Raise _ |- _ =>
                destruct (check_outcome_raise _ _ _ H) as [Hpart H200]; rewrite Hpart
            end;
            eexists [], (token_exchange' _ _); split; [reflexivity |];
            split; [exact H200 |]; left; split; reflexivity).
  (* a task that reads an answer raised *)
  all: eexists _, (api_exchange' _ _ GET _ _ _);
    split; [rewrite ?app_nil_r; reflexivity |];
    split; [cbn [received_status received api_exchange]; now apply Z.eqb_eq |];
    right; split; [reflexivity |]; split; reflexivity.
Qed.

(** *** Updates with nothing to update *)

(** X4.  An update of a type of which nothing is tracked sends no request
    to the admin API: it is its token check and nothing more, so that its
    exchanges are those of the check and it raises exactly when the check
    does. *)
Theorem update_of_nothing_sends_nothing (k : kind) (u : KeycloakUser) (w : world) :
  tracked k u = [] ->
  update_task' k (u, w) = ensure_valid_token' (u, w)
  /\ exchanges (update_task' k (u, w)) = token_part' u w
  /\ token_fetches (exchanges (update_task' k (u, w)))
     = List.length (exchanges (update_task' k (u, w))).
Proof.
  intros Hnone.
  assert (H : update_task' k (u, w) = ensure_valid_token' (u, w)).
  { enough (wp (update_task' k) (u, w) (fun r st es =>
              (r, st, es) = ensure_valid_token' (u, w))) as H.
    { unfold wp, outcome, state_after, exchanges in H.
      destruct (update_task' k (u, w)) as [[r st] es]. exact H. }
    rewrite ensure_valid_token_exact.
    destruct k; unfold update_task; unfold_tasks; repeat step.
    all: normalize; rewrite ?Hnone in *; try discriminate.
    all: rewrite ?app_nil_r; reflexivity. }
  rewrite H, ensure_valid_token_exact. unfold exchanges. cbn [snd].
  split; [reflexivity |]. split; [reflexivity |].
  unfold token_part. destruct (expired' u w); reflexivity.
Qed.


(** *** What an operation sends *)

Lemma prefix_app a b : String.prefix a (a ++ b) = true.
Proof.
  induction a as [| c a IH]; [destruct b; reflexivity |].
  cbn [append prefix]. destruct (ascii_dec c c); [exact IH | contradiction].
Qed.

Lemma prefix_refl a : String.prefix a a = true.
Proof.
  induction a as [| c a IH]; [reflexivity |].
  cbn [prefix]. destruct (ascii_dec c c); [exact IH | contradiction].
Qed.

(** A request to the admin API of the realm, with the given header. *)
Definition in_realm (realm : string) (header : option string) (e : exchange) : Prop :=
  is_token_fetch e = false
  /\ startswith (realm_url realm) (url (sent e)) = true
  /\ authorization (sent e) = header.

Lemma operation_requests op u w :
  exists requests,
    exchanges (run_operation' op (u, w)) = (token_part' u w ++ requests)%list
    /\ (List.length requests <= 2)%nat
    /\ Forall (in_realm (test_realm_name u) (client_authorization (after_check u w)))
         requests
    /\ (forall e, check_outcome u w = Raise e -> requests = []).
Proof.
  change (wp (run_operation' op) (u, w) (fun _ _ es => exists requests,
    es = (token_part' u w ++ requests)%list
    /\ (List.length requests <= 2)%nat
    /\ Forall (in_realm (test_realm_name u) (client_authorization (after_check u w)))
         requests
    /\ (forall e, check_outcome u w = Raise e -> requests = []))).
  destruct op as [t |]; [destruct t |]; unfold_tasks; repeat step.
  all: try (exists []; split; [now rewrite app_nil_r |]; split; [cbn; lia |];
            split; [constructor | reflexivity]).
  all: eexists; split; [reflexivity |]; normalize; cbn [app List.length];
    split; [lia |]; (split; [| intros ? ?; discriminate]); repeat constructor;
    cbn [sent url authorization api_exchange request_of];
    rewrite ?set_tracked_auth; try reflexivity;
    unfold startswith, resource_url, collection_url; rewrite ?append_assoc';
    first [apply prefix_app | apply prefix_refl].
Qed.

(** X5.  After the token exchanges an operation (any task, or the cleanup)
    sends at most two requests, and none when its token check raised; each
    goes to a URL under the test realm and carries the Authorization header
    the session has after the token check: the new bearer token when the
    token had expired and the fetch returned with a token, the header it had
    before otherwise. *)
Theorem operations_stay_in_their_realm (op : operation) (u : KeycloakUser) (w : world) :
  exists requests,
    exchanges (run_operation' op (u, w)) = (token_part' u w ++ requests)%list
    /\ (List.length requests <= 2)%nat
    /\ Forall (in_realm (test_realm_name u) (client_authorization (after_check u w)))
         requests
    /\ (forall e, check_outcome u w = Raise e -> requests = [])
    /\ client_authorization (after_check u w)
       = if expired' u w
         then match granted (check_answer u w) with
              | Some (token, _) => Some ("Bearer " ++ format_value repr token)
              | None => client_authorization u
              end
         else client_authorization u.
Proof.
  destruct (operation_requests op u w) as (requests & H1 & H2 & H3 & H4).
  exists requests. repeat split; try assumption.
  apply after_check_authorization.
Qed.

(** *** A session the token endpoint refuses *)

(** The token fields of the session. *)
Definition credentials (u : KeycloakUser) : Q * option json * option string :=
  (token_expires_at u, admin_token u, client_authorization u).

Lemma set_tracked_credentials k l u : credentials (set_tracked k l u) = credentials u.
Proof. destruct k; reflexivity. Qed.

(** A task leaves the token fields as its token check left them. *)
Lemma task_keeps_credentials t u w :
  credentials (user_after (run_task' t (u, w))) = credentials (after_check u w).
Proof.
  change (wp (run_task' t) (u, w) (fun _ st _ =>
            credentials (fst st) = credentials (after_check u w))).
  destruct t; unfold_tasks; repeat step.
  all: cbn [fst]; rewrite ?set_tracked_credentials; reflexivity.
Qed.

Section Refused.
Hypothesis refused : forall n req, token_status (token_endpoint n req) <> 200%Z.

Lemma get_admin_token_refused u w :
  get_admin_token' (u, w) = (Ok tt, (u, next_request w), [token_exchange' u w]).
Proof.
  unfold get_admin_token, bind, token_request, token_exchange, request_of.
  cbn [fst snd].
  destruct (token_status _ =? 200)%Z eqn:E; [| reflexivity].
  apply Z.eqb_eq in E. destruct (refused _ _ E).
Qed.

Lemma after_check_refused u w : after_check u w = u.
Proof.
  unfold after_check. rewrite ensure_valid_token_unfold.
  destruct (expired' u w); [| reflexivity]. now rewrite get_admin_token_refused.
Qed.

Lemma check_outcome_refused u w : check_outcome u w = Ok tt.
Proof.
  unfold check_outcome. rewrite ensure_valid_token_unfold.
  destruct (expired' u w); [| reflexivity]. now rewrite get_admin_token_refused.
Qed.

Lemma wp_get_admin_token_refused u w Q :
  Q (Ok tt) (u, next_request w) [token_exchange' u w] ->
  wp get_admin_token' (u, w) Q.
Proof. unfold wp. rewrite get_admin_token_refused. exact (fun H => H). Qed.

Definition anonymous (u : KeycloakUser) : Prop :=
  credentials u = (0, None, None).

Definition sent_anonymously (e : exchange) : Prop := authorization (sent e) = None.

Lemma task_refused t u w :
  anonymous u ->
  anonymous (user_after (run_task' t (u, w)))
  /\ Forall sent_anonymously (exchanges (run_task' t (u, w))).
Proof.
  intros Hu. split.
  - unfold anonymous. now rewrite task_keeps_credentials, after_check_refused.
  - destruct (operation_requests (Task t) u w) as (requests & Hes & _ & Hreq & _).
    cbn [run_operation] in Hes. rewrite Hes. rewrite after_check_refused in Hreq.
    assert (Hauth : client_authorization u = None)
      by (unfold anonymous, credentials in Hu; congruence).
    apply Forall_app. split.
    + unfold token_part. destruct (expired _ _ _); repeat constructor. exact Hauth.
    + eapply Forall_impl; [| exact Hreq]. intros e (_ & _ & He).
      unfold sent_anonymously. congruence.
Qed.

Lemma run_tasks_refused ts : forall st,
  anonymous (fst st) ->
  anonymous (fst (fst (run_tasks clock uuid4_hex randbelow token_endpoint admin_api
                         repr ts st)))
  /\ Forall sent_anonymously
       (snd (run_tasks clock uuid4_hex randbelow token_endpoint admin_api repr ts st)).
Proof.
  induction ts as [| t ts IH]; intros [u w] Hu; [split; [exact Hu | constructor] |].
  cbn [run_tasks]. destruct (task_refused t u w Hu) as [Hu1 Hes1].
  unfold user_after, exchanges in *.
  destruct (run_task' t (u, w)) as [[r st1] es1]. cbn [fst snd] in *.
  destruct (IH st1 Hu1) as [Hu2 Hes2].
  destruct (run_tasks _ _ _ _ _ _ ts st1) as [st2 es2]. cbn [fst snd] in *.
  split; [exact Hu2 | apply Forall_app; now split].
Qed.

Lemma on_start_refused :
  outcome (on_start clock uuid4_hex token_endpoint admin_api repr
             (new_user, new_world)) = Ok tt
  /\ anonymous (user_after (on_start clock uuid4_hex token_endpoint admin_api repr
                              (new_user, new_world)))
  /\ Forall sent_anonymously
       (exchanges (on_start clock uuid4_hex token_endpoint admin_api repr
                     (new_user, new_world))).
Proof.
  change (wp (on_start clock uuid4_hex token_endpoint admin_api repr)
            (new_user, new_world)
            (fun r st es => r = Ok tt /\ anonymous (fst st)
                            /\ Forall sent_anonymously es)).
  unfold on_start, create_test_realm.
  step. step. step. step. step.
  apply wp_get_admin_token_refused. cbv beta iota zeta. repeat step.
  all: split; [reflexivity |]; split; [reflexivity | repeat constructor].
Qed.

End Refused.

(** X9.  When the token endpoint never answers 200, no request of a session
    ([on_start] followed by any tasks) carries an Authorization header;
    [token_expires_at] stays 0 and neither a token nor a header is stored;
    and every later operation, run when the clock is not negative, asks for
    a token exactly once more. *)
Theorem refused_session_stays_anonymous (ts : list task) :
  (forall n req, token_status (token_endpoint n req) <> 200%Z) ->
  let run := session clock uuid4_hex randbelow token_endpoint admin_api repr ts in
  Forall sent_anonymously (snd run)
  /\ credentials (fst (fst run)) = (0, None, None)
  /\ forall op,
       (0 <= clock (n_clock (snd (fst run)))) ->
       token_fetches (exchanges (run_operation' op (fst run))) = 1%nat.
Proof.
  intros refused. cbv zeta. unfold session.
  destruct (on_start_refused refused) as (Hok & Hu0 & Hes0).
  unfold outcome, user_after, exchanges in *.
  destruct (on_start _ _ _ _ _ (new_user, new_world)) as [[r st0] es0].
  cbn [fst snd] in *. subst r.
  destruct (run_tasks_refused refused ts st0 Hu0) as [Hu1 Hes1].
  destruct (run_tasks _ _ _ _ _ _ ts st0) as [[u1 w1] es1]. cbn [fst snd] in *.
  split; [apply Forall_app; now split |]. split; [exact Hu1 |].
  intros op Hclock.
  change (token_fetches (exchanges (run_operation' op (u1, w1))) = 1%nat).
  destruct (operation_exchanges clock uuid4_hex randbelow token_endpoint admin_api
              repr op u1 w1) as (rest & -> & Hrest).
  rewrite token_fetches_app, Hrest. unfold token_part, expired.
  assert (Hexp : token_expires_at u1 = 0)
    by (unfold anonymous, credentials in Hu1; congruence).
  rewrite Hexp. apply Qle_bool_iff in Hclock. rewrite Hclock. reflexivity.
Qed.

(** *** The deletion of a client scope *)

Lemma test_scopes_of_sound items : forall found,
  test_scopes_of items = Ok found ->
  forall scope, In scope found ->
    In (JDict scope) items
    /\ exists name, dict_get "name" scope = Some (JStr name)
                    /\ startswith "test-scope-" name = true.
Proof.
  induction items as [| item items IH]; intros found Hfound scope Hin.
  - injection Hfound as <-. destruct Hin.
  - cbn [test_scopes_of] in Hfound. destruct item; try discriminate Hfound.
    destruct (dict_get "name" fields) as [[| | | | name | |] |] eqn:Hname;
      try discriminate Hfound.
    + destruct (test_scopes_of items) as [rest |]; [| discriminate Hfound].
      injection Hfound as <-. specialize (IH rest eq_refl scope).
      destruct (startswith "test-scope-" name) eqn:Htest.
      * destruct Hin as [<- | Hin]; [split; [now left | now exists name] |].
        destruct (IH Hin) as [H1 H2]. split; [now right | exact H2].
      * destruct (IH Hin) as [H1 H2]. split; [now right | exact H2].
    + destruct (test_scopes_of items) as [rest |]; [| discriminate Hfound].
      injection Hfound as <-. cbn in Hin. specialize (IH rest eq_refl scope Hin).
      destruct IH as [H1 H2]. split; [now right | exact H2].
Qed.

(** The request [e] deletes a scope that [got], a listing answered 200,
    has under a name that starts with "test-scope-". *)
Definition deletes_listed_test_scope (realm : string) (got e : exchange) : Prop :=
  exists answer listing items scope id name,
    method (sent got) = GET
    /\ received got = FromAdminApi answer
    /\ status_code answer = 200%Z
    /\ json_body answer = Ok listing
    /\ iterate listing = Ok items
    /\ In (JDict scope) items
    /\ dict_get "name" scope = Some (JStr name)
    /\ startswith "test-scope-" name = true
    /\ dict_get "id" scope = Some id
    /\ url (sent e) = realm_url realm ++ "/client-scopes/" ++ format_value repr id.

Local Abbreviation delete_client_scope' :=
  (delete_client_scope clock randbelow token_endpoint admin_api repr).

(** X6.  When [delete_client_scope] sends a DELETE, it is the second of two
    requests after the token exchanges: the first is the GET of the client
    scopes, answered 200 with a list, and the DELETE goes to the id of an
    entry of that list whose name starts with [test-scope-]. *)
Theorem delete_client_scope_deletes_a_test_scope (u : KeycloakUser) (w : world)
    (e : exchange) :
  In e (exchanges (delete_client_scope' (u, w))) ->
  method (sent e) = DELETE ->
  exists got,
    exchanges (delete_client_scope' (u, w)) = (token_part' u w ++ [got; e])%list
    /\ deletes_listed_test_scope (test_realm_name u) got e.
Proof.
  revert e.
  change (wp delete_client_scope' (u, w) (fun _ _ es => forall e,
    In e es -> method (sent e) = DELETE ->
    exists got, es = (token_part' u w ++ [got; e])%list
                /\ deletes_listed_test_scope (test_realm_name u) got e)).
  unfold delete_client_scope. repeat step.
  all: intros deleted He Hdelete;
    try rewrite <- (app_nil_r (token_part' _ _)) in He;
    apply in_app_or in He; destruct He as [He | He];
    [ exfalso; unfold token_part in He; destruct (expired _ _ _);
      [destruct He as [<- | []]; discriminate Hdelete | destruct He] |].
  all: cbn [app In] in He;
    repeat match type of He with
           | _ \/ _ => destruct He as [<- | He]; [try discriminate Hdelete |]
           | False => destruct He
           end.
  normalize. eexists. split; [reflexivity |].
  match goal with
  | Hs : test_scopes_of _ = Ok ?found, Hc : choice_at _ ?found = Some ?x |- _ =>
      destruct (test_scopes_of_sound _ _ Hs x (choice_at_In _ _ _ Hc))
        as (Hin & name & Hname & Htest)
  end.
  unfold deletes_listed_test_scope.
  eexists _, _, _, _, _, _. split; [reflexivity |]. split; [reflexivity |].
  split; [now apply Z.eqb_eq |]. repeat (split; [eassumption |]). reflexivity.
Qed.

(** *** A creation and the deletion that follows it *)

Lemma removelast_app_one (l : list string) x : removelast (l ++ [x]) = l.
Proof. rewrite removelast_app by discriminate. cbn. apply app_nil_r. Qed.

(** X7.  When a type has tracked resources and its creation task adds the
    identifier [id], the deletion task run next, when it returns, names [id]
    and no other resource in its requests, and leaves the list as it was
    before the creation.  When it raises, which it does only in its token
    check, the list stays as the creation left it and no resource is
    named. *)
Theorem deletion_undoes_the_creation_before_it (k : kind) (u : KeycloakUser)
    (w : world) (id : string) :
  tracked k u <> [] ->
  tracked k (user_after (create_task' k (u, w))) = (tracked k u ++ [id])%list ->
  let created := state_after (create_task' k (u, w)) in
  (outcome (delete_task' k created) = Ok tt ->
   tracked k (user_after (delete_task' k created)) = tracked k u
   /\ referenced (test_realm_name u) k (exchanges (delete_task' k created)) = [id])
  /\ (forall e,
        outcome (delete_task' k created) = Raise e ->
        tracked k (user_after (delete_task' k created)) = (tracked k u ++ [id])%list
        /\ referenced (test_realm_name u) k (exchanges (delete_task' k created)) = []).
Proof.
  intros Hne Hcreated. cbv zeta.
  assert (Hrealm : test_realm_name (user_after (create_task' k (u, w)))
                   = test_realm_name u).
  { destruct k;
      [ exact (proj1 (task_keeps_realm clock uuid4_hex randbelow token_endpoint
                        admin_api repr CreateUser u w))
      | exact (proj1 (task_keeps_realm clock uuid4_hex randbelow token_endpoint
                        admin_api repr CreateClient u w))
      | exact (proj1 (task_keeps_realm clock uuid4_hex randbelow token_endpoint
                        admin_api repr CreateRealmRole u w))
      | exact (proj1 (task_keeps_realm clock uuid4_hex randbelow token_endpoint
                        admin_api repr CreateGroup u w)) ]. }
  unfold user_after, state_after in *.
  destruct (create_task' k (u, w)) as [[r [u1 w1]] es]. cbn [fst snd] in *.
  pose proof (delete_names_last clock token_endpoint admin_api repr k u1 w1) as Hnames.
  destruct (delete_task_unfold clock token_endpoint admin_api repr k) as [name Hname].
  rewrite Hname in *.
  destruct (delete_tracked_spec clock token_endpoint admin_api repr k name u1 w1)
    as (checked & u' & w' & Hkept & [Hchecked _] & Hrun).
  subst checked.
  pose proof (kept_tracked _ _ _ _ k Hkept) as Hsame.
  rewrite Hrun in *. rewrite Hcreated, Hrealm in *.
  assert (Hlen : (1 <? List.length (tracked k u ++ [id]))%nat = true).
  { apply Nat.ltb_lt. rewrite length_app. cbn.
    destruct (tracked k u); [contradiction | cbn; lia]. }
  rewrite Hlen in *.
  destruct (outcome (ensure_valid_token clock token_endpoint repr (u1, w1)))
    as [[] | raised]; unfold outcome; cbn [fst snd] in *.
  - split; [intros _ | intros e H; discriminate H].
    rewrite last_last in *. split; [| exact Hnames].
    rewrite tracked_set_tracked.
    replace (kind_eqb k k) with true by (destruct k; reflexivity).
    apply removelast_app_one.
  - split; [intros H; discriminate H | intros e _].
    split; [now rewrite Hsame | exact Hnames].
Qed.

End Session.

(** *** The identifier in a [Location] *)

Definition no_slash (s : string) : bool := negb (contains "/" s).

Lemma contains_slash_cons c s :
  contains "/" (String c s) = orb (Ascii.eqb c "/") (contains "/" s).
Proof.
  cbn [contains prefix]. destruct (ascii_dec "/" c) as [<- | Hne].
  - now destruct s.
  - destruct (Ascii.eqb c "/") eqn:E; [apply Ascii.eqb_eq in E; congruence |].
    reflexivity.
Qed.

Lemma split_on_not_nil s : split_on "/" s <> [].
Proof.
  induction s as [| c s IH]; [discriminate |]. cbn [split_on].
  destruct (Ascii.eqb c "/"); [discriminate |].
  destruct (split_on "/" s); [contradiction | discriminate].
Qed.

Lemma split_on_no_slash s : contains "/" s = false -> split_on "/" s = [s].
Proof.
  induction s as [| c s IH]; intros Hs; [reflexivity |].
  rewrite contains_slash_cons in Hs. apply orb_false_iff in Hs. destruct Hs as [Hc Hs].
  cbn [split_on]. now rewrite Hc, (IH Hs).
Qed.

Lemma split_on_slash s :
  contains "/" s = true -> exists p q ps, split_on "/" s = p :: q :: ps.
Proof.
  induction s as [| c s IH]; intros Hs; [discriminate Hs |].
  rewrite contains_slash_cons in Hs. cbn [split_on].
  destruct (Ascii.eqb c "/").
  - pose proof (split_on_not_nil s) as Hnn.
    destruct (split_on "/" s) as [| q ps]; [contradiction |].
    eexists _, _, _. reflexivity.
  - destruct (IH Hs) as (p & q & ps & ->). eexists _, _, _. reflexivity.
Qed.

Lemma last_segment_cons c s :
  contains "/" s = true -> last_segment (String c s) = last_segment s.
Proof.
  intros Hs. unfold last_segment. cbn [split_on].
  destruct (split_on_slash s Hs) as (p & q & ps & ->).
  destruct (Ascii.eqb c "/"); reflexivity.
Qed.

Lemma contains_slash_app base rest : contains "/" (base ++ String "/" rest) = true.
Proof.
  induction base as [| c base IH]; cbn [append]; rewrite contains_slash_cons;
    [reflexivity | rewrite IH; apply orb_true_r].
Qed.

Lemma last_segment_has_no_slash s : no_slash (last_segment s) = true.
Proof.
  unfold no_slash. apply negb_true_iff.
  induction s as [| c s IH]; [reflexivity |].
  destruct (contains "/" s) eqn:Hs.
  - now rewrite last_segment_cons.
  - unfold last_segment in *. cbn [split_on].
    rewrite (split_on_no_slash s Hs) in *. cbn [last] in *.
    destruct (Ascii.eqb c "/") eqn:Hc; [exact IH |].
    cbn [last]. rewrite contains_slash_cons, Hc. exact IH.
Qed.

(** X8.  [location.split('/')[-1]], by which the creation tasks take the
    identifier from the Location header, never contains a slash; and for an
    identifier without a slash it undoes the building of a resource URL: the
    last segment of [location/id], and of the URL of the resource [id] of
    any type in any realm, is [id]. *)
Theorem last_segment_of_a_location (location id : string) :
  no_slash (last_segment location) = true
  /\ (no_slash id = true ->
      last_segment (location ++ "/" ++ id) = id
      /\ forall realm k, last_segment (resource_url realm k id) = id).
Proof.
  split; [apply last_segment_has_no_slash |].
  intros Hid. apply negb_true_iff in Hid.
  assert (Hlast : forall b, last_segment (b ++ "/" ++ id) = id).
  { induction b as [| c b IH].
    - cbn [append]. unfold last_segment. cbn [split_on Ascii.eqb Bool.eqb].
      rewrite (split_on_no_slash id Hid). reflexivity.
    - cbn [append]. rewrite last_segment_cons; [exact IH |].
      apply contains_slash_app. }
  split; [apply Hlast | intros realm k; apply Hlast].
Qed.

(** *** The properties at work in a concrete session *)

(** A token endpoint that refuses every request. *)
Definition refusing (n : nat) (req : request) : token_response :=
  {| token_status := 401; token_json := Raise JSONDecodeError |}.

Lemma update_of_nothing_sends_nothing_witness :
  update_task clock0 uuid0 (draws 0) token0 api0 repr0 Users (new_user, new_world)
  = ensure_valid_token clock0 token0 repr0 (new_user, new_world)
  /\ exchanges (update_task clock0 uuid0 (draws 0) token0 api0 repr0 Users
                  (new_user, new_world))
     = token_part clock0 token0 new_user new_world
  /\ token_fetches
       (exchanges (update_task clock0 uuid0 (draws 0) token0 api0 repr0 Users
                     (new_user, new_world)))
     = List.length
         (exchanges (update_task clock0 uuid0 (draws 0) token0 api0 repr0 Users
                       (new_user, new_world))).
Proof.
  apply (update_of_nothing_sends_nothing clock0 uuid0 (draws 0) token0 api0 repr0 Users
           new_user new_world).
  reflexivity.
Defined.

(** The second exchange of a deletion of a client scope in the session
    with two users. *)
Definition scope_deletion : exchange :=
  nth 1 (exchanges (delete_client_scope clock0 (draws 0) token0 api0 repr0
                      (fst (two_users 0), snd (two_users 0))))
    (token_exchange token0 new_user new_world).

Lemma delete_client_scope_deletes_a_test_scope_witness :
  exists got,
    exchanges (delete_client_scope clock0 (draws 0) token0 api0 repr0
                 (fst (two_users 0), snd (two_users 0)))
    = (token_part clock0 token0 (fst (two_users 0)) (snd (two_users 0))
       ++ [got; scope_deletion])%list
    /\ deletes_listed_test_scope repr0 (test_realm_name (fst (two_users 0))) got
         scope_deletion.
Proof.
  apply (delete_client_scope_deletes_a_test_scope clock0 (draws 0) token0 api0 repr0
           (fst (two_users 0)) (snd (two_users 0)) scope_deletion).
  - vm_compute. right. left. reflexivity.
  - reflexivity.
Defined.

Lemma deletion_undoes_the_creation_before_it_witness :
  let u := fst (two_users 0) in
  let w := snd (two_users 0) in
  let created := state_after (create_task clock0 uuid0 token0 api0 repr0 Users (u, w)) in
  tracked Users (user_after (delete_task clock0 token0 api0 repr0 Users created))
    = tracked Users u
  /\ referenced (test_realm_name u) Users
       (exchanges (delete_task clock0 token0 api0 repr0 Users created)) = ["id4"].
Proof.
  apply (proj1 (deletion_undoes_the_creation_before_it clock0 uuid0 (draws 0) token0
                  api0 repr0 Users (fst (two_users 0)) (snd (two_users 0)) "id4"
                  ltac:(vm_compute; discriminate) ltac:(vm_compute; reflexivity))).
  reflexivity.
Defined.

Lemma refused_session_stays_anonymous_witness :
  let run := session clock0 uuid0 (draws 0) refusing api0 repr0 [CreateUser; ReadUsers] in
  Forall sent_anonymously (snd run)
  /\ credentials (fst (fst run)) = (0, None, None)
  /\ forall op,
       (0 <= clock0 (n_clock (snd (fst run)))) ->
       token_fetches
         (exchanges (run_operation clock0 uuid0 (draws 0) refusing api0 repr0 op
                       (fst run))) = 1%nat.
Proof.
  apply (refused_session_stays_anonymous clock0 uuid0 (draws 0) refusing api0 repr0
           [CreateUser; ReadUsers]).
  intros n req H. discriminate H.
Defined.

End LocustfileTasks.

(** ** load_scenarios.py: the suite and the command line *)

Module LoadScenariosSuite.
Import LoadScenarios.

(** [f"{s:<n}"]: [s] padded with spaces on the right up to [n] characters. *)
Definition ljust (n : nat) (s : string) : string :=
  s ++ repeat_str " " (n - String.length s).

(** [name in self.scenarios] and [self.scenarios[name]]. *)
Definition scenario_of (self : LoadTestRunner) (name : string) : option scenario_config :=
  dict_get name (scenarios self).

Definition monitoring_cmd : list string :=
  [ "docker-compose"; "up"; "-d"; "prometheus"; "grafana"; "node-exporter"; "netdata" ].

Section Suite.

(** The subprocesses, the time [strftime] prints for the [i]-th scenario
    that is run, and the health endpoint. *)
Variable subprocess_run : list string -> string -> completed.
Variable timestamps : nat -> string.
Variable health : nat -> probe.

(** [start_monitoring]: the call of [subprocess.run] is not guarded, and
    its status is not looked at. *)
Definition start_monitoring (self : LoadTestRunner) : list event * result unit :=
  let announced := [ Print "Starting monitoring services..." ] in
  match get_base_dir self with
  | Raise e => (announced, Raise e)
  | Ok base =>
      match subprocess_run monitoring_cmd base with
      | LaunchFailed e => ((announced ++ [ Spawn monitoring_cmd base ])%list, Raise e)
      | Completed _ _ _ =>
          ((announced ++ [ Spawn monitoring_cmd base;
                           Print "Monitoring services started";
                           Sleep 10 ])%list,
           Ok tt)
      end
  end.

(** The loop of [run_all_scenarios] from its [i]-th scenario on:
    [results] is the dict of the outcomes so far. *)
Fixpoint run_each (self : LoadTestRunner) (i : nat)
    (todo : list (string * scenario_config)) (results : list (string * bool))
  : list event * result (list (string * bool)) :=
  match todo with
  | [] => ([], Ok results)
  | (scenario_name, config) :: rest =>
      let preparing :=
        [ Print (String "010" ("⏳ Preparing for " ++ scenario_name ++ "..."));
          Sleep 30 ] in
      let (ran, outcome) :=
        run_scenario subprocess_run (timestamps i) self scenario_name config in
      match outcome with
      | Raise e => ((preparing ++ ran)%list, Raise e)
      | Ok success =>
          let reported :=
            [ Print (if success then "✅ " ++ scenario_name ++ " completed"
                     else "❌ " ++ scenario_name ++ " failed") ] in
          let (later, final) :=
            run_each self (S i) rest (dict_set scenario_name success results) in
          ((preparing ++ ran ++ reported ++ later)%list, final)
      end
  end.

Definition summary_line (entry : string * bool) : event :=
  Print (ljust 15 (fst entry) ++ " "
         ++ if snd entry then "✅ PASSED" else "❌ FAILED").

Definition run_all_scenarios (self : LoadTestRunner) : list event * result bool :=
  let opening :=
    [ Print "🚀 Starting Keycloak Load Testing Suite";
      Print ("Results will be saved in: " ++ results_dir self) ] in
  let (monitoring, started) := start_monitoring self in
  match started with
  | Raise e => ((opening ++ monitoring)%list, Raise e)
  | Ok _ =>
      let (polled, ready) := wait_for_keycloak health 30 in
      if negb ready then
        ((opening ++ monitoring ++ polled
            ++ [ Print "❌ Keycloak is not ready. Please start Keycloak and try again." ])%list,
         Ok false)
      else
        let (ran, outcome) := run_each self 0 (scenarios self) [] in
        match outcome with
        | Raise e => ((opening ++ monitoring ++ polled ++ ran)%list, Raise e)
        | Ok results =>
            let summary :=
              ([ Print (String "010" banner); Print "TEST SUITE SUMMARY"; Print banner ]
               ++ map summary_line results
               ++ [ Print (String "010" ("Results location: " ++ results_dir self)) ])%list in
            ((opening ++ monitoring ++ polled ++ ran ++ summary)%list,
             Ok (forallb snd results))
        end
  end.

Definition usage_line (entry : string * scenario_config) : event :=
  Print ("  " ++ fst entry ++ ": " ++ str_int (users (snd entry)) ++ " users, "
         ++ run_time (snd entry) ++ " duration").

(** [main()], for the arguments [argv] and the working directory [cwd]. *)
Definition main (argv : list string) (cwd : string) : list event * result unit :=
  match argv with
  | _ :: scenario_name :: _ =>
      let runner := init cwd in
      if String.eqb scenario_name "all" then
        let (ev, outcome) := run_all_scenarios runner in
        (ev, match outcome with Ok _ => Ok tt | Raise e => Raise e end)
      else
        match scenario_of runner scenario_name with
        | Some config =>
            let (monitoring, started) := start_monitoring runner in
            match started with
            | Raise e => (monitoring, Raise e)
            | Ok _ =>
                let (polled, ready) := wait_for_keycloak health 30 in
                if ready then
                  let (ran, outcome) :=
                    run_scenario subprocess_run (timestamps 0) runner scenario_name
                      config in
                  ((monitoring ++ polled ++ ran)%list,
                   match outcome with Ok _ => Ok tt | Raise e => Raise e end)
                else
                  ((monitoring ++ polled ++ [ Print "Keycloak not ready" ])%list, Ok tt)
            end
        | None =>
            ([ Print ("Unknown scenario: " ++ scenario_name);
               Print ("Available scenarios: "
                      ++ join ", " (dict_keys (scenarios runner)) ++ ", all") ],
             Ok tt)
        end
  | _ =>
      let runner := init cwd in
      (([ Print "Usage: python load_scenarios.py [scenario_name|all]";
          Print "Available scenarios:" ]
        ++ map usage_line (scenarios runner)
        ++ [ Print "  all: Run all scenarios sequentially" ])%list,
       Ok tt)
  end.

End Suite.
End LoadScenariosSuite.

(** ** Properties of the suite and of the command line *)

Module LoadScenariosSuiteProps.
Import LoadScenarios LoadScenariosSuite PyFacts.

(** An event that reaches outside the process: a subprocess or a request. *)
Definition reaches_out (e : event) : bool := orb (is_spawn e) (is_get e).

(** The commands a run spawned, in order. *)
Definition spawned (ev : list event) : list (list string) :=
  flat_map (fun e => match e with Spawn cmd _ => [cmd] | _ => [] end) ev.

Lemma spawned_app a b : spawned (a ++ b) = (spawned a ++ spawned b)%list.
Proof. apply flat_map_app. Qed.

(** Whether [main] is given a scenario to run: ["all"], or the name of a
    configured scenario. *)
Definition takes_scenario (argv : list string) : bool :=
  match argv with
  | _ :: scenario_name :: _ =>
      orb (String.eqb scenario_name "all")
          (dict_has scenario_name (scenarios (init "")))
  | _ => false
  end.

Section Suite.
Variable subprocess_run : list string -> string -> completed.
Variable timestamps : nat -> string.
Variable health : nat -> probe.

Local Abbreviation main' := (main subprocess_run timestamps health).
Local Abbreviation run_all_scenarios' :=
  (run_all_scenarios subprocess_run timestamps health).
Local Abbreviation run_each' := (run_each subprocess_run timestamps).

Lemma spawned_cons e l :
  spawned (e :: l)
    = (match e with Spawn cmd _ => [cmd] | _ => [] end ++ spawned l)%list.
Proof. reflexivity. Qed.

Ltac spawned_norm :=
  cbn [fst snd]; repeat (rewrite spawned_cons || rewrite spawned_app).


(** *** The suite on a runner that has its [base_dir] *)

(** The command of the [i]-th scenario, and whether its process ran and
    left with status zero. *)
Definition scenario_cmd (self : LoadTestRunner) (d : string) (i : nat)
    (entry : string * scenario_config) : list string :=
  locust_cmd (timestamps i) d (results_dir self) (fst entry) (snd entry)
    (results_dir self ++ "/" ++ fst entry ++ "_" ++ timestamps i ++ ".html").

Definition passes (self : LoadTestRunner) (d : string) (i : nat)
    (entry : string * scenario_config) : bool :=
  match subprocess_run (scenario_cmd self d i entry) d with
  | Completed returncode _ _ => (returncode =? 0)%Z
  | LaunchFailed _ => false
  end.

Lemma run_scenario_set self d i scenario_name config :
  base_dir self = Some d ->
  snd (run_scenario subprocess_run (timestamps i) self scenario_name config)
    = Ok (passes self d i (scenario_name, config))
  /\ spawned (fst (run_scenario subprocess_run (timestamps i) self scenario_name config))
     = [ scenario_cmd self d i (scenario_name, config) ].
Proof.
  intros Hd. unfold run_scenario, get_base_dir, passes, scenario_cmd. rewrite Hd.
  cbn [fst snd]. destruct (subprocess_run _ d) as [rc out err | e];
    [destruct (rc =? 0)%Z |]; split; reflexivity.
Qed.

Lemma run_each_set self d : forall todo i results,
  base_dir self = Some d ->
  NoDup (map fst todo) ->
  (forall n, In n (map fst todo) -> ~ In n (dict_keys results)) ->
  snd (run_each' self i todo results)
    = Ok (results ++ map (fun ie => (fst (snd ie), passes self d (fst ie) (snd ie)))
                       (indexed i todo))%list
  /\ spawned (fst (run_each' self i todo results))
     = map (fun ie => scenario_cmd self d (fst ie) (snd ie)) (indexed i todo).
Proof.
  induction todo as [| [scenario_name config] todo IH]; intros i results Hd Hnd Hfresh.
  - cbn. rewrite app_nil_r. split; reflexivity.
  - cbn [run_each indexed map fst snd].
    destruct (run_scenario_set self d i scenario_name config Hd) as [Hres Hsp].
    destruct (run_scenario subprocess_run (timestamps i) self scenario_name config)
      as [ran outcome]. cbn [fst snd] in Hres, Hsp. subst outcome.
    inversion Hnd as [| ? ? Hnotin Hnd']; subst.
    specialize (IH (S i) (dict_set scenario_name
                            (passes self d i (scenario_name, config)) results) Hd Hnd').
    rewrite dict_set_fresh in * by (apply Hfresh; now left).
    destruct IH as [IHres IHsp].
    { intros n Hn Hin. unfold dict_keys in Hin. rewrite map_app in Hin.
      apply in_app_or in Hin. destruct Hin as [Hin | [<- | []]].
      - apply (Hfresh n); [now right | exact Hin].
      - contradiction. }
    destruct (run_each' self (S i) todo _) as [later final]. cbn [fst snd] in *.
    split.
    + rewrite IHres, <- app_assoc. reflexivity.
    + rewrite !spawned_app, Hsp, IHsp. reflexivity.
Qed.

Lemma spawned_poll max attempts : spawned (fst (poll health max attempts)) = [].
Proof.
  induction attempts as [| i attempts IH]; [reflexivity |].
  cbn [poll]. destruct (poll health max attempts) as [ev r]. cbn [fst] in IH.
  destruct (health i) as [c | e]; [destruct (c =? 200)%Z |]; cbn; try exact IH;
    reflexivity.
Qed.

Lemma spawned_wait max : spawned (fst (wait_for_keycloak health max)) = [].
Proof.
  unfold wait_for_keycloak. pose proof (spawned_poll max (seq 0 (Z.to_nat max))) as H.
  destruct (poll health max _) as [ev r]. exact H.
Qed.

Lemma spawned_summary results : spawned (map summary_line results) = [].
Proof. induction results as [| r results IH]; [reflexivity | exact IH]. Qed.

(** X11.  On a runner whose [base_dir] is set, with distinct scenario
    names: when docker-compose cannot be launched, [run_all_scenarios]
    raises that error and nothing else was spawned.  Otherwise it returns
    True exactly when Keycloak was ready within 30 attempts and the process
    of every scenario ended with status 0 (a scenario that could not be
    launched counts as failed and does not stop the suite), and it spawned
    docker-compose and then, when Keycloak was ready, one locust command per
    scenario in the order of the table of scenarios. *)
Theorem suite_passes_iff_all_pass (self : LoadTestRunner) (d : string) :
  base_dir self = Some d ->
  NoDup (map fst (scenarios self)) ->
  let ready := snd (wait_for_keycloak health 30) in
  let run := run_all_scenarios' self in
  (forall e, subprocess_run monitoring_cmd d = LaunchFailed e ->
             snd run = Raise e /\ spawned (fst run) = [monitoring_cmd])
  /\ (forall returncode out err,
        subprocess_run monitoring_cmd d = Completed returncode out err ->
        snd run
          = Ok (andb ready
                  (forallb (fun ie => passes self d (fst ie) (snd ie))
                     (indexed 0 (scenarios self))))
        /\ spawned (fst run)
           = monitoring_cmd
             :: if ready
                then map (fun ie => scenario_cmd self d (fst ie) (snd ie))
                       (indexed 0 (scenarios self))
                else []).
Proof.
  intros Hd Hnd. cbv zeta. unfold run_all_scenarios, start_monitoring, get_base_dir.
  rewrite Hd. split.
  - intros e ->. split; reflexivity.
  - intros returncode out err ->.
    pose proof (spawned_wait 30) as Hwait.
    destruct (wait_for_keycloak health 30) as [polled ready]. cbn [fst snd] in *.
    destruct ready; cbn [negb andb].
    + destruct (run_each_set self d (scenarios self) 0 [] Hd Hnd) as [Hres Hsp];
        [intros n _ [] |].
      destruct (run_each' self 0 (scenarios self) []) as [ran outcome].
      cbn [fst snd app] in *. subst outcome. split.
      * f_equal. rewrite forallb_snd_map. reflexivity.
      * spawned_norm. rewrite Hwait, Hsp, spawned_summary. cbn [app spawned flat_map].
        rewrite app_nil_r. reflexivity.
    + split; [reflexivity |]. spawned_norm. rewrite Hwait. reflexivity.
Qed.

End Suite.

(** *** A runner with its [base_dir], and processes that all succeed *)

Definition repaired (cwd : string) : LoadTestRunner :=
  {| results_dir := results_dir (init cwd);
     scenarios := scenarios (init cwd);
     base_dir := Some cwd |}.

Definition succeeding (cmd : list string) (cwd : string) : completed :=
  Completed 0 "" "".

Definition stamps (i : nat) : string := "20240101_00000" ++ str_int (Z.of_nat i).

Definition healthy (i : nat) : probe := Answered 200.

Lemma suite_passes_iff_all_pass_witness :
  snd (run_all_scenarios succeeding stamps healthy (repaired "/repo")) = Ok true
  /\ List.length (spawned (fst (run_all_scenarios succeeding stamps healthy
                                  (repaired "/repo")))) = 5%nat.
Proof.
  destruct (proj2 (suite_passes_iff_all_pass succeeding stamps healthy
                     (repaired "/repo") "/repo" eq_refl
                     ltac:(repeat constructor; cbn; intuition discriminate))
              0%Z "" "" eq_refl) as [Hres Hsp].
  split; [rewrite Hres | rewrite Hsp]; reflexivity.
Defined.

End LoadScenariosSuiteProps.

(** ** More about the analysis and the report *)

Module PerformanceMonitorAnalysis.
Import PerformanceMonitor PerformanceMonitorProps PyFacts.

Definition is_memory_finding (finding : string) : bool := startswith "Memory:" finding.
Definition is_load_finding (finding : string) : bool := startswith "Load:" finding.
Definition is_disk_finding (finding : string) : bool := startswith "Disk I/O:" finding.
Definition is_network_finding (finding : string) : bool := startswith "Network:" finding.

(** *** Counting and telescoping *)

Lemma count_where_pos p df : (0 <? count_where p df)%Z = existsb p df.
Proof.
  unfold count_where. induction df as [| s df IH]; [reflexivity |].
  cbn [filter existsb]. destruct (p s); cbn [orb]; [| exact IH].
  cbn [List.length]. apply Z.ltb_lt. lia.
Qed.

Lemma dropna_diff_from column : forall previous,
  List.length (dropna (diff_from previous column)) = List.length column
  /\ sum (dropna (diff_from previous column)) == inject_Z (last column previous - previous).
Proof.
  induction column as [| x rest IH]; intros previous.
  - split; [reflexivity |]. cbn. rewrite Z.sub_diag. reflexivity.
  - destruct (IH x) as [Hlen Hsum]. cbn [diff_from dropna List.length sum fold_right].
    split; [now rewrite Hlen |].
    change (fold_right Qplus 0 (dropna (diff_from x rest)))
      with (sum (dropna (diff_from x rest))).
    rewrite Hsum.
    rewrite last_cons.
    rewrite <- inject_Z_plus. apply inject_Z_injective. lia.
Qed.

(** The mean of the differences of a counter, in MB, against a threshold:
    only the first value, the last value and the number of differences
    count. *)
Lemma mean_diff_gt (x : Z) (rest : list Z) (threshold : Z) :
  cell_gt (cell_div (mean_skipna (diff (x :: rest))) MB) (inject_Z threshold)
  = (threshold * 1048576 * Z.of_nat (List.length rest) <? last rest x - x)%Z.
Proof.
  unfold mean_skipna, diff. cbn [dropna].
  destruct (dropna_diff_from rest x) as [Hlen Hsum].
  destruct rest as [| y rest'].
  - cbn. rewrite Z.sub_diag, Z.mul_0_r. reflexivity.
  - remember (y :: rest') as rest eqn:Hrest.
    assert (Hpos : (0 < Z.of_nat (List.length rest))%Z) by (subst rest; cbn; lia).
    unfold mean. destruct (dropna (diff_from x rest)) as [| d ds] eqn:Hd;
      [subst rest; discriminate Hlen |].
    rewrite Hlen. cbn [cell_div option_map cell_gt]. unfold Qgt_bool.
    set (n := Z.of_nat (List.length rest)) in *.
    set (delta := (last rest x - x)%Z) in *.
    assert (Hle : sum (d :: ds) / inject_Z n / MB <= inject_Z threshold
                  <-> (delta <= threshold * 1048576 * n)%Z).
    { rewrite Hsum. unfold MB. change (1024 * 1024)%Z with 1048576%Z.
      unfold Qle, Qdiv, Qmult, Qinv, inject_Z. cbn [Qnum Qden].
      destruct n as [| p | p]; try lia. cbn [Qnum Qden]. nia. }
    destruct (_ <? _)%Z eqn:E.
    + apply Z.ltb_lt in E. apply negb_true_iff.
      destruct (Qle_bool _ _) eqn:B; [| reflexivity].
      apply Qle_bool_iff, Hle in B. lia.
    + apply Z.ltb_ge in E. apply negb_false_iff, Qle_bool_iff, Hle. exact E.
Qed.

Lemma mean_diff_sum_gt (x y : Z) (xs ys : list Z) (threshold : Z) :
  List.length xs = List.length ys ->
  cell_gt (cell_div (cell_add (mean_skipna (diff (x :: xs)))
                              (mean_skipna (diff (y :: ys)))) MB) (inject_Z threshold)
  = (threshold * 1048576 * Z.of_nat (List.length xs)
       <? (last xs x - x) + (last ys y - y))%Z.
Proof.
  intros Hsame. unfold mean_skipna, diff. cbn [dropna].
  destruct (dropna_diff_from xs x) as [Hlx Hsx].
  destruct (dropna_diff_from ys y) as [Hly Hsy].
  destruct xs as [| x' xs'].
  - destruct ys; [| discriminate]. cbn. rewrite !Z.sub_diag, Z.mul_0_r. reflexivity.
  - remember (x' :: xs') as xs eqn:Hxs.
    assert (Hpos : (0 < Z.of_nat (List.length xs))%Z) by (subst xs; cbn; lia).
    unfold mean.
    destruct (dropna (diff_from x xs)) as [| d ds] eqn:Hd;
      [subst xs; discriminate Hlx |].
    destruct (dropna (diff_from y ys)) as [| e es] eqn:He;
      [subst xs; cbn in Hsame; rewrite <- Hsame in Hly; discriminate Hly |].
    rewrite Hlx, Hly, <- Hsame. cbn [cell_add cell_div option_map cell_gt].
    unfold Qgt_bool.
    set (n := Z.of_nat (List.length xs)) in *.
    set (dx := (last xs x - x)%Z) in *. set (dy := (last ys y - y)%Z) in *.
    assert (Hle : (sum (d :: ds) / inject_Z n + sum (e :: es) / inject_Z n) / MB
                    <= inject_Z threshold
                  <-> (dx + dy <= threshold * 1048576 * n)%Z).
    { rewrite Hsx, Hsy. unfold MB. change (1024 * 1024)%Z with 1048576%Z.
      unfold Qle, Qdiv, Qplus, Qmult, Qinv, inject_Z. cbn [Qnum Qden].
      destruct n as [| p | p]; try lia. cbn [Qnum Qden]. nia. }
    destruct (_ <? _)%Z eqn:E.
    + apply Z.ltb_lt in E. apply negb_true_iff.
      destruct (Qle_bool _ _) eqn:B; [| reflexivity].
      apply Qle_bool_iff, Hle in B. lia.
    + apply Z.ltb_ge in E. apply negb_false_iff, Qle_bool_iff, Hle. exact E.
Qed.

(** The findings other than the one looked for do not start with its
    prefix. *)
Ltac isolate_finding :=
  repeat match goal with
         | |- context [existsb _ (if ?b then _ else _)] => destruct b
         end;
  cbn [existsb];
  unfold is_memory_finding, is_load_finding, is_disk_finding, is_network_finding,
    startswith;
  cbn [append prefix]; rewrite ?Ascii.eqb_refl; cbn; rewrite ?orb_false_r;
  reflexivity.

Section Analysis.
Variable format_fixed : nat -> cell -> string.
Variable str_float : Q -> string.

Local Abbreviation analyze_bottlenecks' := (analyze_bottlenecks format_fixed str_float).

Lemma findings_memory_load output_dir test_name first rest :
  let findings :=
    findings_of (analyze_bottlenecks' output_dir (first :: rest) test_name) in
  existsb is_memory_finding findings
    = existsb (fun s => Qgt_bool (memory_percent s) 85) (first :: rest)
  /\ existsb is_load_finding findings
     = existsb (fun s => Qgt_bool (load_1min s) (inject_Z (cpu_count first) * (3 # 2)))
         (first :: rest).
Proof.
  cbv zeta. unfold analyze_bottlenecks, findings_of. cbv zeta.
  rewrite !existsb_app, !count_where_pos.
  change (inject_Z 85) with (85 : Q).
  split; isolate_finding.
Qed.

(** X12.  The analysis has a Memory finding exactly when some row has a
    [memory_percent] above 85, and a Load finding exactly when some row has
    a [load_1min] above one and a half times the [cpu_count] of the first
    row: the [cpu_count] of the other rows is not read. *)
Theorem memory_and_load_findings (output_dir test_name : string)
    (first : sample) (rest : list sample) :
  let system_df := first :: rest in
  let findings := findings_of (analyze_bottlenecks' output_dir system_df test_name) in
  (existsb is_memory_finding findings = true
   <-> exists s, In s system_df /\ 85 < memory_percent s)
  /\ (existsb is_load_finding findings = true
      <-> exists s, In s system_df
                    /\ inject_Z (cpu_count first) * (3 # 2) < load_1min s).
Proof.
  cbv zeta.
  destruct (findings_memory_load output_dir test_name first rest) as [-> ->].
  split; rewrite existsb_exists; split; intros (s & Hin & Hs); exists s;
    (split; [exact Hin |]); unfold Qgt_bool in *.
  - apply negb_true_iff in Hs. apply Qnot_le_lt. intros Hle.
    apply Qle_bool_iff in Hle. congruence.
  - apply negb_true_iff. destruct (Qle_bool _ _) eqn:B; [| reflexivity].
    apply Qle_bool_iff in B. exfalso. apply (Qlt_not_le _ _ Hs B).
  - apply negb_true_iff in Hs. apply Qnot_le_lt. intros Hle.
    apply Qle_bool_iff in Hle. congruence.
  - apply negb_true_iff. destruct (Qle_bool _ _) eqn:B; [| reflexivity].
    apply Qle_bool_iff in B. exfalso. apply (Qlt_not_le _ _ Hs B).
Qed.

(** X13.  Whether the analysis has a Disk I/O or a Network finding depends
    on the first row, the last row and the number of rows only.  With [n]
    rows after the first, Disk I/O is reported exactly when the read counter
    or the write counter grew by more than [100 * 2^20 * n] bytes from the
    first row to the last, and Network exactly when the bytes sent and
    received together grew by more than that.  A table of one row has
    neither finding. *)
Theorem io_findings_depend_on_first_and_last (output_dir test_name : string)
    (first : sample) (rest : list sample) :
  let system_df := first :: rest in
  let final := last rest first in
  let n := Z.of_nat (List.length rest) in
  let findings := findings_of (analyze_bottlenecks' output_dir system_df test_name) in
  existsb is_disk_finding findings
    = orb (100 * 1048576 * n <? disk_read_bytes final - disk_read_bytes first)%Z
          (100 * 1048576 * n <? disk_write_bytes final - disk_write_bytes first)%Z
  /\ existsb is_network_finding findings
     = (100 * 1048576 * n
          <? (net_bytes_sent final - net_bytes_sent first)
             + (net_bytes_recv final - net_bytes_recv first))%Z.
Proof.
  cbv zeta. unfold analyze_bottlenecks, findings_of. cbv zeta.
  rewrite !existsb_app. unfold column. cbn [map].
  change (100 : Q) with (inject_Z 100).
  rewrite !mean_diff_gt, mean_diff_sum_gt by (now rewrite !length_map).
  rewrite !length_map, !last_of_map.
  split; isolate_finding.
Qed.

Lemma nth_numbered (g : nat * string -> string) (l : list string) : forall start i,
  (i < List.length l)%nat ->
  nth i (map g (combine (seq start (List.length l)) l)) ""
  = g ((start + i)%nat, nth i l "").
Proof.
  induction l as [| a l IH]; intros start i Hi; [cbn in Hi; lia |].
  cbn [List.length seq combine map]. destruct i as [| i].
  - cbn [nth]. now rewrite Nat.add_0_r.
  - cbn [nth]. rewrite IH by (cbn in Hi; lia). now rewrite Nat.add_succ_r.
Qed.

(** X14.  On a table with rows the analysis is written to
    [<test_name>_bottleneck_analysis.txt] in the output directory; the file
    has twelve lines and one more per finding returned; its fourth line
    says that no bottleneck was detected when no finding is returned, and
    otherwise announces the findings, which follow in the order returned,
    numbered from 1. *)
Theorem analysis_file_lists_the_findings (output_dir test_name : string)
    (first : sample) (rest : list sample) :
  exists bottlenecks written,
    analyze_bottlenecks' output_dir (first :: rest) test_name
      = Ok (bottlenecks,
            path_join output_dir (test_name ++ "_bottleneck_analysis.txt"),
            written)
    /\ List.length written = (12 + List.length bottlenecks)%nat
    /\ nth 3 written ""
       = match bottlenecks with
         | [] => "No significant bottlenecks detected."
         | _ => "Potential Bottlenecks Detected:"
         end
    /\ forall i, (i < List.length bottlenecks)%nat ->
         nth (4 + i) written ""
         = str_int (Z.of_nat (1 + i)) ++ ". " ++ nth i bottlenecks "".
Proof.
  unfold analyze_bottlenecks. cbv zeta.
  match goal with
  | |- context [combine (seq 1 (List.length ?b)) ?b] => generalize b
  end.
  intros bottlenecks. eexists _, _. split; [reflexivity |].
  destruct bottlenecks as [| b bs].
  - repeat split. intros i Hi. cbn in Hi. lia.
  - split; [| split; [reflexivity |]].
    + cbn [app List.length]. rewrite length_app, length_map, length_combine, length_seq.
      cbn [List.length]. lia.
    + intros i Hi. cbn [app plus nth].
      rewrite app_nth1 by (rewrite length_map, length_combine, length_seq; lia).
      rewrite (nth_numbered _ (b :: bs) 1 i Hi). reflexivity.
Qed.

End Analysis.

(** *** The report *)

Lemma sum_dropna_div_by d column :
  sum (dropna (div_by d column)) == sum (dropna column) / d.
Proof.
  induction column as [| [x |] column IH].
  - cbn. unfold Qdiv. ring.
  - cbn [div_by map option_map dropna sum fold_right] in *.
    change (fold_right Qplus 0 ?l) with (sum l). rewrite IH. unfold Qdiv. ring.
  - exact IH.
Qed.

Lemma plotted_total (counter : sample -> Z) (first : sample) (rest : list sample) :
  sum (dropna (div_by MB (diff (map counter (first :: rest)))))
  == inject_Z (counter (last (first :: rest) first) - counter first) / MB.
Proof.
  rewrite sum_dropna_div_by. cbn [map diff dropna].
  rewrite (proj2 (dropna_diff_from (map counter rest) (counter first))).
  rewrite last_of_map, last_cons. reflexivity.
Qed.

Lemma length_diff column : List.length (diff column) = List.length column.
Proof.
  destruct column as [| x rest]; [reflexivity |]. cbn [diff List.length]. f_equal.
  revert x. induction rest as [| y rest IH]; intros x; [reflexivity |].
  cbn [diff_from List.length]. f_equal. apply IH.
Qed.

Section Report.
Variable format_fixed : nat -> cell -> string.

(** X15.  On a table with rows [create_performance_report] returns; every
    line of every panel has the timestamps of the table as its x values and
    one y value per row; and the totals of the summary, Total Sent and Total
    Recv, are the sums of the values that the lines Sent and Received of the
    network panel plot. *)
Theorem report_lines_and_totals (output_dir test_name : string)
    (first : sample) (rest : list sample) :
  let system_df := first :: rest in
  exists rep,
    create_performance_report format_fixed output_dir test_name system_df = Ok rep
    /\ (forall p l, In p (panels rep) -> In l (lines p) ->
          xs l = map timestamp system_df
          /\ List.length (ys l) = List.length system_df)
    /\ exists sent recv,
         nth 10 (stats_text rep) ""
           = "  Total Sent: " ++ format_fixed 1 (Some sent) ++ " MB"
         /\ nth 11 (stats_text rep) ""
            = "  Total Recv: " ++ format_fixed 1 (Some recv) ++ " MB"
         /\ sent == sum (dropna (plotted "Network I/O Rate (MB/s)" "Sent" (Ok rep)))
         /\ recv == sum (dropna (plotted "Network I/O Rate (MB/s)" "Received" (Ok rep))).
Proof.
  cbv zeta. unfold create_performance_report. cbv zeta.
  eexists. split; [reflexivity |]. split.
  - intros p l Hp Hl. cbn [panels In] in Hp.
    repeat destruct Hp as [Hp | Hp]; try contradiction; subst p;
      cbn [lines In] in Hl;
      repeat destruct Hl as [Hl | Hl]; try contradiction; subst l;
      cbn [xs ys]; unfold column, plain, div_by;
      rewrite ?length_map, ?length_diff, ?length_map; split; reflexivity.
  - eexists _, _. split; [reflexivity |]. split; [reflexivity |].
    unfold plotted, lines_of.
    cbn [panels flat_map title lines label ys String.eqb Ascii.eqb Bool.eqb app].
    rewrite !app_nil_r. unfold column.
    split; symmetry; apply plotted_total.
Qed.

End Report.

End PerformanceMonitorAnalysis.

(** ** performance_monitor.py: the collectors *)
Module PerformanceMonitorSystem.
Import PerformanceMonitor.

(** What psutil reports when a sample is taken: the columns the report and
    the analysis read.  [disk_io] is [None] where the platform has no disk
    counters. *)
Record reading : Type := {
  now : Q;
  cpu : Q;
  cpus : Z;
  used : Z;
  percent : Q;
  disk_io : option (Z * Z);
  net_io : Z * Z
}.

Section Collector.

(** The [k]-th reading of [time.time()], the flag [monitoring_active] as the
    [i]-th test of the loop finds it, what psutil reports in iteration [i],
    and [os.getloadavg] where the platform has it. *)
Variable clock : nat -> Q.
Variable monitoring_active : nat -> bool.
Variable psutil : nat -> reading.
Variable getloadavg : option (nat -> Q * Q * Q).

Definition system_point (i : nat) : sample :=
  let r := psutil i in
  let load_avg :=
    match getloadavg with
    | Some f => f i
    | None => (0, 0, 0)
    end in
  {| timestamp := now r;
     cpu_percent := cpu r;
     cpu_count := cpus r;
     load_1min := fst (fst load_avg);
     load_5min := snd (fst load_avg);
     load_15min := snd load_avg;
     memory_used := used r;
     memory_percent := percent r;
     disk_read_bytes := match disk_io r with Some d => fst d | None => 0 end;
     disk_write_bytes := match disk_io r with Some d => snd d | None => 0 end;
     net_bytes_sent := fst (net_io r);
     net_bytes_recv := snd (net_io r) |}.

(** The [while] loop from its [i]-th test on.  [fuel] bounds the number of
    tests; [None] when it does not suffice. *)
Fixpoint system_loop (fuel : nat) (i : nat) (end_time : Q) : option (list sample) :=
  match fuel with
  | O => None
  | S fuel' =>
      if andb (negb (Qle_bool end_time (clock (S i)))) (monitoring_active i) then
        match system_loop fuel' (S i) end_time with
        | Some metrics => Some (system_point i :: metrics)
        | None => None
        end
      else Some []
  end.

(** [collect_system_metrics(duration_seconds)]: the rows of the table. *)
Definition collect_system_metrics (fuel : nat) (duration_seconds : Q)
  : option (list sample) :=
  let start_time := clock 0%nat in
  let end_time := start_time + duration_seconds in
  system_loop fuel 0 end_time.

End Collector.

End PerformanceMonitorSystem.

(** ** Properties of the collectors *)

Module PerformanceMonitorSystemProps.
Import PerformanceMonitor PerformanceMonitorProps PerformanceMonitorSystem.
Import PerformanceMonitorAnalysis PyFacts.

Section Collectors.
Variable clock : nat -> Q.
Variable datetime_now : nat -> Q.
Variable monitoring_active : nat -> bool.
Variable prometheus : nat -> nat -> string -> reply.
Variable float_of_str : string -> option pyfloat.
Variable psutil : nat -> reading.
Variable getloadavg : option (nat -> Q * Q * Q).
Variable format_fixed : nat -> cell -> string.
Variable str_float : Q -> string.

Local Abbreviation collect_query' := (collect_query prometheus float_of_str).
Local Abbreviation collect_queries' := (collect_queries prometheus float_of_str).
Local Abbreviation goes_on' := (goes_on clock monitoring_active).
Local Abbreviation collect_system_metrics' :=
  (collect_system_metrics clock monitoring_active psutil getloadavg).
Local Abbreviation system_point' := (system_point psutil getloadavg).

(** *** The rows of the Prometheus table *)

(** What iteration [i] records for the [j]-th query onwards, and what it
    prints. *)
Definition recorded (i : nat) (jq : nat * (string * string)) : string * field :=
  (fst (snd jq),
   Metric (fst (collect_query' i (fst jq) (fst (snd jq)) (snd (snd jq))))).

Definition complained (i : nat) (jq : nat * (string * string)) : list string :=
  snd (collect_query' i (fst jq) (fst (snd jq)) (snd (snd jq))).

Definition row (queries : list (string * string)) (i : nat) : metric_point :=
  ("timestamp", At (datetime_now i)) :: map (recorded i) (indexed 0 queries).

Lemma collect_queries_fresh i : forall queries j point,
  NoDup (map fst queries) ->
  (forall n, In n (map fst queries) -> ~ In n (dict_keys point)) ->
  collect_queries' i j queries point
  = ((point ++ map (recorded i) (indexed j queries))%list,
     flat_map (complained i) (indexed j queries)).
Proof.
  induction queries as [| [query_name query] rest IH]; intros j point Hnd Hfresh.
  - cbn. now rewrite app_nil_r.
  - cbn [collect_queries indexed map flat_map].
    unfold recorded at 1, complained at 1. cbn [fst snd].
    destruct (collect_query' i j query_name query) as [value printed].
    inversion Hnd as [| ? ? Hnotin Hnd']; subst.
    rewrite dict_set_fresh by (apply Hfresh; now left).
    rewrite IH; [now rewrite <- app_assoc | exact Hnd' |].
    intros n Hn Hin. unfold dict_keys in Hin. rewrite map_app in Hin.
    apply in_app_or in Hin. destruct Hin as [Hin | [<- | []]].
    + apply (Hfresh n); [now right | exact Hin].
    + contradiction.
Qed.

Lemma collect_loop_rows queries end_time :
  NoDup (map fst queries) ->
  ~ In "timestamp" (map fst queries) ->
  forall k i fuel,
  (forall d, (d < k)%nat ->
     andb (negb (Qle_bool end_time (clock (S (i + d))))) (monitoring_active (i + d))
     = true) ->
  andb (negb (Qle_bool end_time (clock (S (i + k))))) (monitoring_active (i + k))
    = false ->
  (k < fuel)%nat ->
  collect_loop clock datetime_now monitoring_active prometheus float_of_str
    fuel i end_time queries
  = Some (map (row queries) (seq i k),
          flat_map (fun i => flat_map (complained i) (indexed 0 queries)) (seq i k)).
Proof.
  intros Hnd Hts.
  induction k as [| k IH]; intros i fuel Hon Hoff Hfuel;
    (destruct fuel as [| fuel]; [lia |]); cbn [collect_loop].
  - rewrite Nat.add_0_r in Hoff. rewrite Hoff. reflexivity.
  - pose proof (Hon 0%nat ltac:(lia)) as H0. rewrite Nat.add_0_r in H0. rewrite H0.
    rewrite collect_queries_fresh; [| exact Hnd |].
    + rewrite (IH (S i) fuel).
      * reflexivity.
      * intros d Hd. replace (S i + d)%nat with (i + S d)%nat by lia. apply Hon. lia.
      * replace (S i + k)%nat with (i + S k)%nat by lia. exact Hoff.
      * lia.
    + intros n Hn [<- | []]. contradiction.
Qed.

(** X16.  With distinct query names, none of them [timestamp], when the
    test of the loop holds [k] times and then fails,
    [collect_prometheus_metrics] returns [k] rows.  Row [i] has the time of
    iteration [i] under [timestamp], followed by one value per query in the
    order of the queries, each the value that its own request of that
    iteration gave; what is printed are the error lines of the queries, in
    the same order. *)
Theorem prometheus_rows_in_order (queries : list (string * string))
    (duration_seconds : Q) (k fuel : nat) :
  NoDup (map fst queries) ->
  ~ In "timestamp" (map fst queries) ->
  (forall i, (i < k)%nat -> goes_on' duration_seconds i = true) ->
  goes_on' duration_seconds k = false ->
  (k < fuel)%nat ->
  collect_prometheus_metrics clock datetime_now monitoring_active prometheus
    float_of_str fuel queries duration_seconds
  = Some (map (row queries) (seq 0 k),
          flat_map (fun i => flat_map (complained i) (indexed 0 queries)) (seq 0 k))
  /\ forall i, (i < k)%nat ->
       dict_keys (row queries i) = "timestamp" :: map fst queries
       /\ dict_get "timestamp" (row queries i) = Some (At (datetime_now i)).
Proof.
  intros Hnd Hts Hon Hoff Hfuel. split.
  - unfold collect_prometheus_metrics.
    apply (collect_loop_rows queries _ Hnd Hts k 0%nat fuel); assumption.
  - intros i _. split; [| reflexivity].
    unfold row, dict_keys. cbn [map fst]. f_equal.
    rewrite map_map. unfold recorded. cbn [fst].
    generalize 0%nat. induction queries as [| q rest IH]; intros j; [reflexivity |].
    cbn [indexed map fst snd]. f_equal. apply IH.
    + now inversion Hnd.
    + intros H. apply Hts. now right.
Qed.

(** *** The system table *)

Lemma system_loop_rows end_time : forall k i fuel,
  (forall d, (d < k)%nat ->
     andb (negb (Qle_bool end_time (clock (S (i + d))))) (monitoring_active (i + d))
     = true) ->
  andb (negb (Qle_bool end_time (clock (S (i + k))))) (monitoring_active (i + k))
    = false ->
  (k < fuel)%nat ->
  system_loop clock monitoring_active psutil getloadavg fuel i end_time
  = Some (map system_point' (seq i k)).
Proof.
  induction k as [| k IH]; intros i fuel Hon Hoff Hfuel;
    (destruct fuel as [| fuel]; [lia |]); cbn [system_loop].
  - rewrite Nat.add_0_r in Hoff. rewrite Hoff. reflexivity.
  - pose proof (Hon 0%nat ltac:(lia)) as H0. rewrite Nat.add_0_r in H0. rewrite H0.
    rewrite (IH (S i) fuel).
    + reflexivity.
    + intros d Hd. replace (S i + d)%nat with (i + S d)%nat by lia. apply Hon. lia.
    + replace (S i + k)%nat with (i + S k)%nat by lia. exact Hoff.
    + lia.
Qed.

(** X17.  A monitor whose flag [monitoring_active] is False when the loops
    first test it, as [__init__] leaves it, collects nothing: both
    collectors return a table without rows, and [create_performance_report]
    and [analyze_bottlenecks] both raise KeyError on the system table so
    collected. *)
Theorem idle_monitor_collects_nothing (queries : list (string * string))
    (duration_seconds : Q) (fuel : nat) (output_dir test_name : string) :
  monitoring_active 0%nat = false ->
  (0 < fuel)%nat ->
  collect_prometheus_metrics clock datetime_now monitoring_active prometheus
    float_of_str fuel queries duration_seconds = Some ([], [])
  /\ exists system_df,
       collect_system_metrics' fuel duration_seconds = Some system_df
       /\ create_performance_report format_fixed output_dir test_name system_df
          = Raise (KeyError "timestamp")
       /\ analyze_bottlenecks format_fixed str_float output_dir system_df test_name
          = Raise (KeyError "cpu_percent").
Proof.
  intros Hidle Hfuel. destruct fuel as [| fuel]; [lia |].
  unfold collect_prometheus_metrics, collect_system_metrics.
  cbn [collect_loop system_loop]. rewrite Hidle, andb_false_r.
  split; [reflexivity |]. exists []. repeat split.
Qed.

End Collectors.

Section WithoutLoadAverage.
Variable clock : nat -> Q.
Variable monitoring_active : nat -> bool.
Variable psutil : nat -> reading.
Variable format_fixed : nat -> cell -> string.
Variable str_float : Q -> string.

(** X18.  On a platform without [os.getloadavg] the load averages are
    recorded as 0, and the analysis of a collected table has no Load
    finding, provided the [cpu_count] of the first sample is not
    negative. *)
Theorem no_load_finding_without_getloadavg (duration_seconds : Q) (k fuel : nat)
    (output_dir test_name : string) :
  (forall i, (i < k)%nat -> goes_on clock monitoring_active duration_seconds i = true) ->
  goes_on clock monitoring_active duration_seconds k = false ->
  (k < fuel)%nat ->
  (0 <= cpus (psutil 0%nat))%Z ->
  exists system_df,
    collect_system_metrics clock monitoring_active psutil None fuel duration_seconds
      = Some system_df
    /\ List.length system_df = k
    /\ existsb is_load_finding
         (findings_of (analyze_bottlenecks format_fixed str_float output_dir
                         system_df test_name)) = false.
Proof.
  intros Hon Hoff Hfuel Hcpus. unfold collect_system_metrics.
  rewrite (system_loop_rows clock monitoring_active psutil None _ k 0%nat fuel Hon Hoff Hfuel).
  eexists. split; [reflexivity |]. split; [now rewrite length_map, length_seq |].
  destruct k as [| k]; [reflexivity |].
  cbn [seq map].
  rewrite (proj2 (findings_memory_load format_fixed str_float output_dir test_name _ _)).
  apply not_true_is_false. intros H. apply existsb_exists in H.
  destruct H as (s & Hin & Hs).
  assert (Hload : load_1min s = 0).
  { destruct Hin as [<- | Hin]; [reflexivity |].
    apply in_map_iff in Hin. destruct Hin as (i & <- & _). reflexivity. }
  rewrite Hload in Hs. unfold Qgt_bool in Hs. apply negb_true_iff in Hs.
  assert (Hle : 0 <= inject_Z (cpu_count (system_point psutil None 0)) * (3 # 2)).
  { cbn [system_point cpu_count]. unfold Qle, Qmult, inject_Z. cbn [Qnum Qden]. lia. }
  apply Qle_bool_iff in Hle. congruence.
Qed.

End WithoutLoadAverage.

(** *** A machine and a Prometheus to run against *)

Definition quiet (i : nat) : reading :=
  {| now := inject_Z (6 * Z.of_nat i); cpu := 10; cpus := 4;
     used := 1073741824; percent := 25;
     disk_io := None; net_io := (0, 0)%Z |}.

Definition always (i : nat) : bool := true.

Definition never (i : nat) : bool := false.

Definition one_query : list (string * string) := [ ("node_load1", "node_load1") ].

Lemma prometheus_rows_in_order_witness :
  collect_prometheus_metrics six_seconds six_seconds always absent_prometheus no_float
    5 one_query 10
  = Some (map (row six_seconds absent_prometheus no_float one_query) (seq 0 1),
          flat_map (fun i => flat_map (complained absent_prometheus no_float i)
                               (indexed 0 one_query)) (seq 0 1))
  /\ forall i, (i < 1)%nat ->
       dict_keys (row six_seconds absent_prometheus no_float one_query i)
         = "timestamp" :: map fst one_query
       /\ dict_get "timestamp" (row six_seconds absent_prometheus no_float one_query i)
          = Some (At (six_seconds i)).
Proof.
  apply (prometheus_rows_in_order six_seconds six_seconds always absent_prometheus
           no_float one_query 10 1 5).
  - repeat constructor. intros [].
  - intros [H | []]. discriminate H.
  - intros [| i] Hi; [reflexivity | lia].
  - reflexivity.
  - lia.
Defined.

Lemma idle_monitor_collects_nothing_witness :
  collect_prometheus_metrics six_seconds six_seconds never absent_prometheus no_float
    1 one_query 10 = Some ([], [])
  /\ exists system_df,
       collect_system_metrics six_seconds never quiet None 1 10 = Some system_df
       /\ create_performance_report no_format "out" "run" system_df
          = Raise (KeyError "timestamp")
       /\ analyze_bottlenecks no_format no_str "out" system_df "run"
          = Raise (KeyError "cpu_percent").
Proof.
  apply (idle_monitor_collects_nothing six_seconds six_seconds never absent_prometheus
           no_float quiet None no_format no_str one_query 10 1 "out" "run").
  - reflexivity.
  - lia.
Defined.

Lemma no_load_finding_without_getloadavg_witness :
  exists system_df,
    collect_system_metrics six_seconds always quiet None 5 10 = Some system_df
    /\ List.length system_df = 1%nat
    /\ existsb is_load_finding
         (findings_of (analyze_bottlenecks no_format no_str "out" system_df "run"))
       = false.
Proof.
  apply (no_load_finding_without_getloadavg six_seconds always quiet no_format no_str
           10 1 5 "out" "run").
  - intros [| i] Hi; [reflexivity | lia].
  - reflexivity.
  - lia.
  - cbn. lia.
Defined.

End PerformanceMonitorSystemProps.
